(** * DealMind agent pipelines: a shallow embedding and its properties

    The development follows [app/agents]: the three stage graphs
    ([qualification.py], [proposal.py], [monitoring.py]) and the driver
    ([orchestrator.py]).

    Conventions of the embedding.
    - A Python [str] is a [string]; the string functions below are exact on
      ASCII text (characters above 127 are carried along unchanged).
    - A Python [float] is a binary64 [float] of the kernel, so products and
      comparisons are the ones CPython computes; decimal literals denote the
      nearest binary64 value, as in Python.
    - A Python [int] is a [Z].
    - A call that may raise returns a [result]; [try]/[except] is [try_except].
    - The reply of the language model ([call_llm]) is an explicit argument of
      every stage that asks for one.
    - [json.loads] belongs to the Python standard library and is a parameter
      [json_loads] of the stages that parse a reply. *)

From Stdlib Require Import ZArith Lia.
From Stdlib Require Import Floats.PrimFloat Floats.SpecFloat Floats.FloatOps Floats.FloatAxioms.
From Stdlib Require Import Strings.Ascii Strings.String.
From stdpp Require Import gmap strings list pretty sorting.

Set Warnings "-inexact-float,-register-all,-clear-no-such-hyp".

Local Open Scope Z_scope.

(** ** Python values, exceptions and string functions *)

Module Py.

Inductive exn_class :=
  | JSONDecodeError | RecursionError | IndexError | AttributeError
  | TypeError | ValueError | OverflowError | GraphRecursionError | RuntimeError.

Record exn := Exn { exn_class_of : exn_class; exn_msg : string }.

Inductive result (A : Type) :=
  | Ok (a : A)
  | Raise (e : exn).
Arguments Ok {A} a.
Arguments Raise {A} e.

Definition bind {A B} (r : result A) (k : A -> result B) : result B :=
  match r with
  | Ok a => k a
  | Raise e => Raise e
  end.

(** [try: body except <classes>: handler]; an exception of another class
    passes through. *)
Definition try_except {A} (body : result A) (catches : exn_class -> bool)
    (handler : exn -> result A) : result A :=
  match body with
  | Ok a => Ok a
  | Raise e => if catches (exn_class_of e) then handler e else Raise e
  end.

(** [except Exception] catches every class modelled here. *)
Definition Exception (c : exn_class) : bool := true.

Definition is_ok {A} (r : result A) : bool :=
  match r with Ok _ => true | Raise _ => false end.

(** [str.isspace] on one ASCII character. *)
Definition isspace (c : ascii) : bool :=
  let n := nat_of_ascii c in
  ((9 <=? n) && (n <=? 13) || (28 <=? n) && (n <=? 32))%nat.

(** [str.lower] on one ASCII character. *)
Definition lower_char (c : ascii) : ascii :=
  let n := nat_of_ascii c in
  if ((65 <=? n) && (n <=? 90))%nat then ascii_of_nat (n + 32) else c.

Fixpoint lower (s : string) : string :=
  match s with
  | EmptyString => EmptyString
  | String c s' => String (lower_char c) (lower s')
  end.

(** [sub in s]. *)
Fixpoint contains (sub s : string) : bool :=
  String.prefix sub s ||
  match s with
  | EmptyString => false
  | String _ s' => contains sub s'
  end.

(** [s.split(sep)] for a non-empty [sep]: [skip] counts the characters of a
    separator still to be passed over, [cur] is the current piece, reversed. *)
Fixpoint split_go (sep : string) (skip : nat) (cur s : string) : list string :=
  match s with
  | EmptyString => [String.rev cur]
  | String c s' =>
      match skip with
      | S k => split_go sep k cur s'
      | O =>
          if String.prefix sep s
          then String.rev cur :: split_go sep (String.length sep - 1) EmptyString s'
          else split_go sep 0 (String c cur) s'
      end
  end.

Definition split (sep s : string) : list string := split_go sep 0 EmptyString s.

(** [s.split()]: maximal runs of non-space characters. *)
Fixpoint words_go (cur : option string) (s : string) : list string :=
  match s with
  | EmptyString => option_list (String.rev <$> cur)
  | String c s' =>
      if isspace c
      then option_list (String.rev <$> cur) ++ words_go None s'
      else words_go (Some (String c (default EmptyString cur))) s'
  end.

Definition split_ws (s : string) : list string := words_go None s.

Fixpoint lstrip (s : string) : string :=
  match s with
  | String c s' => if isspace c then lstrip s' else s
  | EmptyString => EmptyString
  end.

Definition rstrip (s : string) : string := String.rev (lstrip (String.rev s)).

(** [s.strip()]. *)
Definition strip (s : string) : string := rstrip (lstrip s).

(** [l[i]], raising [IndexError] out of range (non-negative [i]). *)
Definition index {A} (l : list A) (i : nat) : result A :=
  match l !! i with
  | Some a => Ok a
  | None => Raise (Exn IndexError "list index out of range")
  end.

(** [x or d] on an integer column that may be NULL. *)
Definition int_or (x : option Z) (d : Z) : Z :=
  match x with
  | Some v => if v =? 0 then d else v
  | None => d
  end.

(** [x or d] on a string that may be [None]. *)
Definition str_or (x : option string) (d : string) : string :=
  match x with
  | Some (String c s) => String c s
  | _ => d
  end.

(** [str.upper] on one ASCII character, and on a string. *)
Definition upper_char (c : ascii) : ascii :=
  let n := nat_of_ascii c in
  if ((97 <=? n) && (n <=? 122))%nat then ascii_of_nat (n - 32) else c.

Fixpoint upper (s : string) : string :=
  match s with
  | EmptyString => EmptyString
  | String c s' => String (upper_char c) (upper s')
  end.

(** The newline character. *)
Definition nl : string := String (ascii_of_nat 10) EmptyString.

(** [int(f)] on a float: truncation toward zero; NaN and the infinities
    raise. *)
Definition int_of_float (f : float) : result Z :=
  match Prim2SF f with
  | S754_zero _ => Ok 0
  | S754_finite s m e =>
      let v := match e with
               | Zneg p => Z.shiftr (Zpos m) (Zpos p)
               | _ => Z.shiftl (Zpos m) e
               end in
      Ok (if s then - v else v)
  | S754_infinity _ =>
      Raise (Exn OverflowError "cannot convert float infinity to integer")
  | S754_nan =>
      Raise (Exn ValueError "cannot convert float NaN to integer")
  end.

(** [math.floor(f)], the reading of the specification's "floor". *)
Definition floor_of_float (f : float) : result Z :=
  match Prim2SF f with
  | S754_zero _ => Ok 0
  | S754_finite s m e =>
      let n := if s then Zneg m else Zpos m in
      Ok match e with
         | Zneg p => n / 2 ^ Zpos p
         | _ => n * 2 ^ e
         end
  | S754_infinity _ =>
      Raise (Exn OverflowError "cannot convert float infinity to integer")
  | S754_nan =>
      Raise (Exn ValueError "cannot convert float NaN to integer")
  end.

(** [float(z)]: the nearest binary64 value, ties to even; [OverflowError]
    when it would be infinite. *)
Definition float_of_int (z : Z) : result float :=
  match binary_normalize prec emax z 0 false with
  | S754_infinity _ => Raise (Exn OverflowError "int too large to convert to float")
  | sf => Ok (SF2Prim sf)
  end.

(** [min(a, b)] and [max(a, b)] on floats: the first argument is kept unless
    the second compares strictly smaller (greater). *)
Definition fmin (a b : float) : float := if (b <? a)%float then b else a.
Definition fmax (a b : float) : float := if (a <? b)%float then b else a.

End Py.

(** [x ← r; k] sequences two calls, the first exception ending the block. *)
#[global] Instance result_bind : MBind Py.result := fun A B k r => Py.bind r k.
#[global] Instance result_ret : MRet Py.result := fun A a => Py.Ok a.

(** ** JSON values, as [json.loads] returns them *)

Module Json.
Import Py.

(** [None], [bool], [int], [float], [str], [list] and [dict]; the bindings of
    a [dict] are listed in insertion order and have distinct keys. *)
Inductive json :=
  | JNull
  | JBool (b : bool)
  | JInt (z : Z)
  | JFloat (f : float)
  | JStr (s : string)
  | JArr (l : list json)
  | JObj (kv : list (string * json)).

Definition type_name (v : json) : string :=
  match v with
  | JNull => "NoneType"
  | JBool _ => "bool"
  | JInt _ => "int"
  | JFloat _ => "float"
  | JStr _ => "str"
  | JArr _ => "list"
  | JObj _ => "dict"
  end.

Definition assoc (key : string) (kv : list (string * json)) : option json :=
  snd <$> List.find (fun p => String.eqb (fst p) key) kv.

(** [v.get(key, dflt)]: only a [dict] has the method. *)
Definition get (v : json) (key : string) (dflt : json) : result json :=
  match v with
  | JObj kv => Ok (default dflt (assoc key kv))
  | _ => Raise (Exn AttributeError
                  ("'" +:+ type_name v +:+ "' object has no attribute 'get'"))
  end.

(** [len(v)]. *)
Definition len (v : json) : result Z :=
  match v with
  | JStr s => Ok (Z.of_nat (String.length s))
  | JArr l => Ok (Z.of_nat (length l))
  | JObj kv => Ok (Z.of_nat (length kv))
  | _ => Raise (Exn TypeError
                  ("object of type '" +:+ type_name v +:+ "' has no len()"))
  end.

(** Truth value of [v] in [if v:]. *)
Definition truthy (v : json) : bool :=
  match v with
  | JNull => false
  | JBool b => b
  | JInt z => negb (z =? 0)
  | JFloat f => negb (f =? 0)%float
  | JStr s => negb (String.eqb s EmptyString)
  | JArr l => negb (bool_decide (l = []))
  | JObj kv => negb (bool_decide (kv = []))
  end.

(** [v is None]. *)
Definition is_none (v : json) : bool :=
  match v with JNull => true | _ => false end.

(** [isinstance(v, (int, float))]; [bool] is a subclass of [int]. *)
Definition is_number (v : json) : bool :=
  match v with
  | JBool _ | JInt _ | JFloat _ => true
  | _ => false
  end.

(** [float(v)] for a [v] that passed [is_number]. *)
Definition to_float (v : json) : result float :=
  match v with
  | JFloat f => Ok f
  | JInt z => float_of_int z
  | JBool b => Ok (if b then 1 else 0)%float
  | _ => Raise (Exn TypeError "float() argument must be a string or a real number")
  end.

End Json.

(** ** A reader for a fragment of JSON

    The stages take [json.loads] as a parameter. To run them on concrete
    replies, [JsonText.loads] reads the fragment of JSON made of objects,
    arrays, strings without escapes, integers, [true], [false] and [null];
    on that fragment it returns what [json.loads] returns. Text outside the
    fragment is rejected, so nothing is claimed about it. *)

Module JsonText.
Import Py Json.

Definition is_ws (c : ascii) : bool :=
  let n := nat_of_ascii c in
  ((n =? 32) || (n =? 9) || (n =? 10) || (n =? 13))%nat.

Fixpoint skip_ws (s : string) : string :=
  match s with
  | String c s' => if is_ws c then skip_ws s' else s
  | EmptyString => EmptyString
  end.

Definition digit (c : ascii) : option Z :=
  let n := nat_of_ascii c in
  if ((48 <=? n) && (n <=? 57))%nat then Some (Z.of_nat (n - 48)) else None.

Fixpoint read_digits (acc : Z) (s : string) : Z * string :=
  match s with
  | String c s' =>
      match digit c with
      | Some d => read_digits (10 * acc + d) s'
      | None => (acc, s)
      end
  | EmptyString => (acc, s)
  end.

Definition starts_number_tail (s : string) : bool :=
  match s with
  | String c _ =>
      let n := nat_of_ascii c in
      ((n =? 46) || (n =? 101) || (n =? 69))%nat || bool_decide (is_Some (digit c))
  | EmptyString => false
  end.

(** An integer literal without sign: no leading zero, no fraction, no
    exponent. *)
Definition read_nat (s : string) : option (Z * string) :=
  match s with
  | String c s' =>
      match digit c with
      | Some d =>
          let '(n, rest) := if d =? 0 then (0, s') else read_digits d s' in
          if starts_number_tail rest then None else Some (n, rest)
      | None => None
      end
  | EmptyString => None
  end.

(** The characters up to the closing quote; [acc] is reversed. *)
Fixpoint read_string (acc s : string) : option (string * string) :=
  match s with
  | String c s' =>
      let n := nat_of_ascii c in
      if (n =? 34)%nat then Some (String.rev acc, s')
      else if ((n =? 92) || (n <? 32))%nat then None
      else read_string (String c acc) s'
  | EmptyString => None
  end.

(** [d[key] = v]. *)
Fixpoint dict_set (key : string) (v : json) (kv : list (string * json))
    : list (string * json) :=
  match kv with
  | [] => [(key, v)]
  | (k, w) :: kv' =>
      if String.eqb k key then (k, v) :: kv' else (k, w) :: dict_set key v kv'
  end.

Definition drop_prefix (p s : string) : option string :=
  if String.prefix p s
  then Some (String.substring (String.length p) (String.length s) s)
  else None.

Fixpoint read_value (fuel : nat) (s : string) : option (json * string) :=
  match fuel with
  | O => None
  | S fuel =>
      match skip_ws s with
      | String c rest =>
          let n := nat_of_ascii c in
          if (n =? 91)%nat then
            match skip_ws rest with
            | String "]" rest' => Some (JArr [], rest')
            | _ => prod_map JArr id <$> read_elements fuel rest
            end
          else if (n =? 123)%nat then
            match skip_ws rest with
            | String "}" rest' => Some (JObj [], rest')
            | _ => prod_map JObj id <$> read_members fuel [] rest
            end
          else if (n =? 34)%nat then
            prod_map JStr id <$> read_string EmptyString rest
          else if (n =? 45)%nat then
            prod_map (λ z, JInt (- z)) id <$> read_nat rest
          else
            match drop_prefix "true" (String c rest),
                  drop_prefix "false" (String c rest),
                  drop_prefix "null" (String c rest) with
            | Some r, _, _ => Some (JBool true, r)
            | _, Some r, _ => Some (JBool false, r)
            | _, _, Some r => Some (JNull, r)
            | _, _, _ => prod_map JInt id <$> read_nat (String c rest)
            end
      | EmptyString => None
      end
  end
with read_elements (fuel : nat) (s : string) : option (list json * string) :=
  match fuel with
  | O => None
  | S fuel =>
      match read_value fuel s with
      | Some (v, rest) =>
          match skip_ws rest with
          | String "," rest' => prod_map (cons v) id <$> read_elements fuel rest'
          | String "]" rest' => Some ([v], rest')
          | _ => None
          end
      | None => None
      end
  end
with read_members (fuel : nat) (acc : list (string * json)) (s : string)
    : option (list (string * json) * string) :=
  match fuel with
  | O => None
  | S fuel =>
      match skip_ws s with
      | String c rest =>
          if (nat_of_ascii c =? 34)%nat then
            match read_string EmptyString rest with
            | Some (key, rest) =>
                match skip_ws rest with
                | String ":" rest =>
                    match read_value fuel rest with
                    | Some (v, rest) =>
                        let acc := dict_set key v acc in
                        match skip_ws rest with
                        | String "," rest' => read_members fuel acc rest'
                        | String "}" rest' => Some (acc, rest')
                        | _ => None
                        end
                    | None => None
                    end
                | _ => None
                end
            | None => None
            end
          else None
      | EmptyString => None
      end
  end.

Definition loads (s : string) : result json :=
  match read_value (2 * String.length s + 2) s with
  | Some (v, rest) =>
      if String.eqb (skip_ws rest) EmptyString then Ok v
      else Raise (Exn JSONDecodeError "Extra data")
  | None => Raise (Exn JSONDecodeError "Expecting value")
  end.

End JsonText.

(** ** Shared pieces of the reply parsers *)

Module Reply.
Import Py Json.

Definition dquote : string := String (ascii_of_nat 34) EmptyString.

(** The fence selection every stage but [comply_node] starts its parse with:
<<
    if "```json" in result_text:
        result_text = result_text.split("```json")[1].split("```")[0]
    elif "```" in result_text:
        result_text = result_text.split("```")[1].split("```")[0]
>> *)
Definition unfence (result_text : string) : result string :=
  if contains "```json" result_text then
    after ← index (split "```json" result_text) 1;
    index (split "```" after) 0
  else if contains "```" result_text then
    after ← index (split "```" result_text) 1;
    index (split "```" after) 0
  else Ok result_text.

Definition catches_json_index (c : exn_class) : bool :=
  match c with
  | JSONDecodeError | IndexError => true
  | _ => false
  end.

Definition catches_json (c : exn_class) : bool :=
  match c with
  | JSONDecodeError => true
  | _ => false
  end.

Fixpoint rfind_char (c : ascii) (s : string) : option nat :=
  match s with
  | EmptyString => None
  | String d s' =>
      match rfind_char c s' with
      | Some j => Some (S j)
      | None => if Ascii.eqb c d then Some O else None
      end
  end.

(** [re.search(r'\{[\s\S]*MARKER[\s\S]*\}', s)] for a [marker] without braces:
    the match starts at the first opening brace, needs the marker between it and
    the last closing brace, and (both stars being greedy) ends at that last
    closing brace. [None] when nothing matches, else the matched text. *)
Definition search_object (marker s : string) : option string :=
  match String.index 0 "{" s, rfind_char "}" s with
  | Some i, Some j =>
      if (i <? j)%nat && contains marker (String.substring (S i) (j - S i) s)
      then Some (String.substring i (S j - i) s)
      else None
  | _, _ => None
  end.

End Reply.

(** ** LangGraph's [StateGraph], for graphs that are chains *)

Module LangGraph.
Import Py.

Section Graph.
Context {State Update : Type}.
(** How a node's partial update is merged into the state. *)
Variable merge : State -> Update -> State.

Definition END : string := "__end__".

Record StateGraph := {
  nodes : list (string * (State -> result Update));
  edges : list (string * string);
  entry_point : option string;
}.

Definition new_graph : StateGraph :=
  {| nodes := []; edges := []; entry_point := None |}.

Definition add_node (name : string) (action : State -> result Update)
    (g : StateGraph) : StateGraph :=
  {| nodes := nodes g ++ [(name, action)];
     edges := edges g;
     entry_point := entry_point g |}.

Definition add_edge (source target : string) (g : StateGraph) : StateGraph :=
  {| nodes := nodes g;
     edges := edges g ++ [(source, target)];
     entry_point := entry_point g |}.

Definition set_entry_point (name : string) (g : StateGraph) : StateGraph :=
  {| nodes := nodes g; edges := edges g; entry_point := Some name |}.

Definition lookup_by_name {B} (name : string) (l : list (string * B)) : option B :=
  snd <$> List.find (fun p => String.eqb (fst p) name) l.

(** LangGraph's default [recursion_limit]. *)
Definition recursion_limit : nat := 25.

(** Modelled from LangGraph's documented behaviour, for a graph in which every
    node has at most one outgoing edge: the node at [cur] runs on the current
    state, its update is yielded as the event [{cur: update}] and merged, and
    the run moves along the edge leaving [cur]; it stops at [END], and an
    exception raised by a node ends the stream after the events already
    yielded. The result is the events in order and the exception, if any. *)
Fixpoint stream_from (fuel : nat) (g : StateGraph) (cur : string) (state : State)
    : list (string * Update) * option exn :=
  if String.eqb cur END then ([], None)
  else
    match fuel with
    | O => ([], Some (Exn GraphRecursionError "Recursion limit reached"))
    | S fuel' =>
        match lookup_by_name cur (nodes g) with
        | None => ([], Some (Exn ValueError ("unknown node " +:+ cur)))
        | Some action =>
            match action state with
            | Raise e => ([], Some e)
            | Ok update =>
                let next := default END (lookup_by_name cur (edges g)) in
                let '(events, err) := stream_from fuel' g next (merge state update) in
                ((cur, update) :: events, err)
            end
        end
    end.

(** [graph.stream(initial_state)]. *)
Definition stream (g : StateGraph) (initial_state : State)
    : list (string * Update) * option exn :=
  match entry_point g with
  | Some start => stream_from recursion_limit g start initial_state
  | None => ([], Some (Exn ValueError "Graph must have an entrypoint"))
  end.

End Graph.

Arguments StateGraph : clear implicits.

End LangGraph.

(** ** [app/agents/monitoring.py] *)

Module Monitoring.
Import Py Json Reply.

(** [deal_data], the dict the driver builds from the [Deal] row. A field is
    [None] when the key is absent. *)
Record deal_data := {
  dd_title : option string;
  dd_client_name : option string;
  dd_health_score : option Z;
  dd_previous_health_score : option Z;
}.

Record communication := {
  c_type : option string;
  c_from : option string;
  c_subject : option string;
  c_date : option string;
  c_content : option string;
}.

(** One entry of ["scores"], of the shape the prompt asks for. *)
Record score_entry := {
  sc_index : option Z;
  sc_sentiment : option float;
  sc_signals : option (list string);
  sc_summary : option string;
}.

Record alert := {
  alert_type : string;
  severity : string;
  alert_title : string;
  description : string;
}.

(** [MonitoringState] with the field types the [TypedDict] declares; [None]
    is an absent key. *)
Record MonitoringState := {
  st_deal_data : option deal_data;
  st_recent_communications : option (list communication);
  st_sentiment_scores : option (list score_entry);
  st_overall_sentiment : option float;
  st_health_score : option Z;
  st_detected_alerts : option (list alert);
}.

(** *** [sentiment_node] *)

(** What the stage returns; the two values come out of the reply as they
    are. *)
Record sentiment_update := {
  su_sentiment_scores : json;
  su_overall_sentiment : json;
  su_current_step : string;
}.

Definition sentiment_default : sentiment_update :=
  {| su_sentiment_scores := JArr [];
     su_overall_sentiment := JFloat 0;
     su_current_step := "sentiment" |}.

Section WithJsonLoads.
Variable json_loads : string -> result json.

Definition sentiment_node (state : MonitoringState) (result_text : string)
    : result sentiment_update :=
  let communications := default [] (st_recent_communications state) in
  if bool_decide (communications = []) then Ok sentiment_default
  else
    try_except
      (result_text ← unfence result_text;
       result ← json_loads (strip result_text);
       sentiment_scores ← get result "scores" (JArr []);
       overall_sentiment ← get result "overall_sentiment" (JFloat 0);
       _ ← len sentiment_scores;
       Ok {| su_sentiment_scores := sentiment_scores;
             su_overall_sentiment := overall_sentiment;
             su_current_step := "sentiment" |})
      catches_json_index
      (fun _ => Ok sentiment_default).

End WithJsonLoads.

(** *** [health_node] *)

Inductive trend := up | down | stable.

Record health_update := {
  hu_health_score : Z;
  hu_trend : trend;
  hu_current_step : string;
}.

Definition empty_deal_data : deal_data :=
  {| dd_title := None; dd_client_name := None;
     dd_health_score := None; dd_previous_health_score := None |}.

Definition health_node (state : MonitoringState) : result health_update :=
  let deal_data := default empty_deal_data (st_deal_data state) in
  let sentiment := default 0%float (st_overall_sentiment state) in
  let base_score := default 70 (dd_health_score deal_data) in
  sentiment_adjustment ← int_of_float (sentiment * 15)%float;
  let health_score := Z.max 0 (Z.min 100 (base_score + sentiment_adjustment)) in
  let previous_score := default base_score (dd_previous_health_score deal_data) in
  let trend :=
    if previous_score + 5 <? health_score then up
    else if health_score <? previous_score - 5 then down
    else stable in
  Ok {| hu_health_score := health_score;
        hu_trend := trend;
        hu_current_step := "health" |}.

(** The health stage as the specification words it: the adjustment is the
    floor of the product. *)
Definition spec_health_score (base_score : Z) (sentiment : float) : result Z :=
  adjustment ← floor_of_float (sentiment * 15)%float;
  Ok (Z.max 0 (Z.min 100 (base_score + adjustment))).

(** *** [alert_node] *)

Record alert_update := {
  au_detected_alerts : list alert;
  au_current_step : string;
}.

Section WithFormat.
(** [f"{x:.2f}"], used only inside descriptions. *)
Variable format_2f : float -> string.

Definition mentions_competitor (signal : string) : bool :=
  contains "competitor" (lower signal).

Definition alert_node (state : MonitoringState) : alert_update :=
  let sentiment := default 0%float (st_overall_sentiment state) in
  let health_score := default 70 (st_health_score state) in
  let sentiment_scores := default [] (st_sentiment_scores state) in
  let deal_data := default empty_deal_data (st_deal_data state) in
  let client := default "client" (dd_client_name deal_data) in
  let alerts : list alert := [] in
  let alerts :=
    if (sentiment <? -0.3)%float then
      alerts ++ [ {| alert_type := "sentiment_drop";
                     severity := if (sentiment <? -0.6)%float then "critical" else "high";
                     alert_title := "Negative sentiment detected for " +:+ client;
                     description := "Overall sentiment score: " +:+ format_2f sentiment
                                    +:+ ". Immediate attention required." |} ]
    else alerts in
  let alerts :=
    if health_score <? 50 then
      alerts ++ [ {| alert_type := "deadline_risk";
                     severity := "high";
                     alert_title := "Deal health critical: " +:+ pretty health_score +:+ "%";
                     description := "Deal health has dropped to " +:+ pretty health_score
                                    +:+ "%. Review and take action." |} ]
    else alerts in
  let alerts :=
    foldl (fun alerts score =>
             match List.find mentions_competitor (default [] (sc_signals score)) with
             | Some signal =>
                 alerts ++ [ {| alert_type := "competitor_mention";
                                severity := "medium";
                                alert_title := "Competitor mentioned in communications";
                                description := signal |} ]
             | None => alerts
             end)
          alerts sentiment_scores in
  let alerts :=
    if bool_decide (alerts = []) && (0.2 <? sentiment)%float then
      let positive_signals :=
        concat (map (fun score => default [] (sc_signals score)) sentiment_scores) in
      alerts ++ [ {| alert_type := "positive_update";
                     severity := "info";
                     alert_title := "Positive sentiment from " +:+ client;
                     description :=
                       "Client communication is positive (sentiment: "
                       +:+ format_2f sentiment +:+ "). "
                       +:+ (if bool_decide (positive_signals = [])
                            then "Good relationship signals detected."
                            else String.concat "; " (take 3 positive_signals)) |} ]
    else alerts in
  {| au_detected_alerts := alerts; au_current_step := "alert" |}.

End WithFormat.

(** *** [recovery_node] *)

Record recovery_update := {
  ru_recovery_email : json;
  ru_recovery_actions : json;
  ru_current_step : string;
}.

Definition recovery_default : recovery_update :=
  {| ru_recovery_email := JStr EmptyString;
     ru_recovery_actions := JArr [];
     ru_current_step := "recovery" |}.

Section RecoveryWithJsonLoads.
Variable json_loads : string -> result json.

Definition recovery_node (state : MonitoringState) (result_text : string)
    : result recovery_update :=
  let alerts := default [] (st_detected_alerts state) in
  if bool_decide (alerts = []) then Ok recovery_default
  else
    try_except
      (result_text ← unfence result_text;
       result ← json_loads (strip result_text);
       recovery_actions ← get result "recovery_actions" (JArr []);
       _ ← len recovery_actions;
       recovery_email ← get result "recovery_email" (JStr EmptyString);
       recovery_actions ← get result "recovery_actions" (JArr []);
       Ok {| ru_recovery_email := recovery_email;
             ru_recovery_actions := recovery_actions;
             ru_current_step := "recovery" |})
      catches_json_index
      (fun _ => Ok recovery_default).

End RecoveryWithJsonLoads.

(** *** [build_monitoring_graph] *)

Section Build.
Import LangGraph.
Context {State Update : Type}.
Variables sentiment health alert recovery : State -> result Update.

Definition build_monitoring_graph : StateGraph State Update :=
  let workflow := new_graph in
  let workflow := add_node "sentiment" sentiment workflow in
  let workflow := add_node "health" health workflow in
  let workflow := add_node "alert" alert workflow in
  let workflow := add_node "recovery" recovery workflow in
  let workflow := set_entry_point "sentiment" workflow in
  let workflow := add_edge "sentiment" "health" workflow in
  let workflow := add_edge "health" "alert" workflow in
  let workflow := add_edge "alert" "recovery" workflow in
  let workflow := add_edge "recovery" END workflow in
  workflow.

End Build.

End Monitoring.

(** ** [app/agents/proposal.py] *)

Module Proposal.
Import Py Json Reply.

(** A requirement as the driver hands it over. *)
Record requirement := {
  req_category : option string;
  req_text : option string;
}.

Record ProposalState := {
  st_proposal_draft : option string;
  st_requirements : option (list requirement);
}.

(** What [comply_node] returns; [final_proposal] is absent on the early
    return. *)
Record comply_update := {
  cu_compliance_score : float;
  cu_compliance_issues : json;
  cu_final_proposal : option string;
  cu_current_step : string;
}.

Definition auto_check_issue (notes : string) : json :=
  JArr [ JObj [ ("requirement_index", JInt 0);
                ("requirement_text", JStr "Auto-check");
                ("status", JStr "partially_addressed");
                ("notes", JStr notes) ] ].

Section WithJsonLoads.
Variable json_loads : string -> result json.

(** [try: parsed = json.loads(s) except json.JSONDecodeError: pass], with
    [parsed] unchanged ([None]) when the text does not decode. *)
Definition loads_or_pass (s : string) : result json :=
  try_except (json_loads s) catches_json (fun _ => Ok JNull).

Definition compliance_marker : string := dquote +:+ "compliance_score" +:+ dquote.

(** The four extraction strategies of [comply_node], in order. *)
Definition extract_parsed (result_text : string) : result json :=
  let parsed := JNull in
  parsed ←
    (if contains "```json" result_text then
       after ← index (split "```json" result_text) 1;
       inner ← index (split "```" after) 0;
       loads_or_pass (strip inner)
     else Ok parsed);
  parsed ←
    (if is_none parsed && contains "```" result_text then
       after ← index (split "```" result_text) 1;
       inner ← index (split "```" after) 0;
       loads_or_pass (strip inner)
     else Ok parsed);
  parsed ←
    (if is_none parsed then
       match search_object compliance_marker result_text with
       | Some matched => loads_or_pass matched
       | None => Ok parsed
       end
     else Ok parsed);
  if is_none parsed then loads_or_pass (strip result_text) else Ok parsed.

Definition comply_node (state : ProposalState) (result_text : string)
    : result comply_update :=
  let draft := default EmptyString (st_proposal_draft state) in
  let requirements := default [] (st_requirements state) in
  if bool_decide (requirements = []) then
    Ok {| cu_compliance_score := 1;
          cu_compliance_issues := JArr [];
          cu_final_proposal := None;
          cu_current_step := "comply" |}
  else
    try_except
      (parsed ← extract_parsed result_text;
       if truthy parsed then
         score ← get parsed "compliance_score" (JFloat 0);
         score ←
           (if is_number score then
              x ← to_float score;
              Ok (fmax 0 (fmin 1 x))
            else Ok 0.85%float);
         issues ← get parsed "issues" (JArr []);
         _ ← len issues;
         issues ← get parsed "issues" (JArr []);
         Ok {| cu_compliance_score := score;
               cu_compliance_issues := issues;
               cu_final_proposal := Some draft;
               cu_current_step := "comply" |}
       else
         Ok {| cu_compliance_score := 0.85;
               cu_compliance_issues :=
                 auto_check_issue
                   "Compliance check could not fully parse — manual review recommended.";
               cu_final_proposal := Some draft;
               cu_current_step := "comply" |})
      Exception
      (fun e =>
         Ok {| cu_compliance_score := 0.85;
               cu_compliance_issues :=
                 auto_check_issue ("Compliance check error: " +:+ exn_msg e);
               cu_final_proposal := Some draft;
               cu_current_step := "comply" |}).

End WithJsonLoads.

(** *** [build_proposal_graph] *)

Section Build.
Import LangGraph.
Context {State Update : Type}.
Variables retrieve generate comply : State -> result Update.

Definition build_proposal_graph : StateGraph State Update :=
  let workflow := new_graph in
  let workflow := add_node "retrieve" retrieve workflow in
  let workflow := add_node "generate" generate workflow in
  let workflow := add_node "comply" comply workflow in
  let workflow := set_entry_point "retrieve" workflow in
  let workflow := add_edge "retrieve" "generate" workflow in
  let workflow := add_edge "generate" "comply" workflow in
  let workflow := add_edge "comply" END workflow in
  workflow.

End Build.

End Proposal.

(** ** [app/agents/qualification.py] *)

Module Qualification.
Import Py Json Reply.

(** What [decide_node] returns; the three lists are absent on the fallback
    path. *)
Record decide_update := {
  du_recommendation : json;
  du_confidence_score : json;
  du_positive_factors : option json;
  du_risk_factors : option json;
  du_conditions : option json;
  du_reasoning : json;
  du_current_step : string;
}.

(** What [extract_node] returns; [errors] is set on the fallback path only. *)
Record extract_update := {
  eu_extracted_requirements : json;
  eu_extracted_entities : json;
  eu_errors : option (list string);
  eu_current_step : string;
}.

(** What [analyze_node] returns. *)
Record analyze_update := {
  an_gap_analysis : json;
  an_current_step : string;
}.

Section WithJsonLoads.
Variable json_loads : string -> result json.

Definition extract_node (result_text : string) : result extract_update :=
  try_except
    (result_text ← unfence result_text;
     result ← json_loads (strip result_text);
     requirements ← get result "requirements" (JArr []);
     _ ← len requirements;
     requirements ← get result "requirements" (JArr []);
     entities ← get result "entities" (JObj []);
     Ok {| eu_extracted_requirements := requirements;
           eu_extracted_entities := entities;
           eu_errors := None;
           eu_current_step := "extract" |})
    catches_json_index
    (fun e =>
       Ok {| eu_extracted_requirements := JArr [];
             eu_extracted_entities := JObj [];
             eu_errors := Some ["Extraction parsing error: " +:+ exn_msg e];
             eu_current_step := "extract" |}).

Definition analyze_node (result_text : string) : result analyze_update :=
  try_except
    (result_text ← unfence result_text;
     gap_analysis ← json_loads (strip result_text);
     _ ← get gap_analysis "capability_match_percent" (JInt 0);
     Ok {| an_gap_analysis := gap_analysis;
           an_current_step := "analyze" |})
    catches_json_index
    (fun _ =>
       Ok {| an_gap_analysis := JObj [];
             an_current_step := "analyze" |}).

Definition decide_node (result_text : string) : result decide_update :=
  try_except
    (result_text ← unfence result_text;
     decision ← json_loads (strip result_text);
     recommendation ← get decision "recommendation" (JStr "no_go");
     confidence_score ← get decision "confidence_score" (JFloat 0.5);
     positive_factors ← get decision "positive_factors" (JArr []);
     risk_factors ← get decision "risk_factors" (JArr []);
     conditions ← get decision "conditions" (JArr []);
     reasoning ← get decision "reasoning" (JStr EmptyString);
     Ok {| du_recommendation := recommendation;
           du_confidence_score := confidence_score;
           du_positive_factors := Some positive_factors;
           du_risk_factors := Some risk_factors;
           du_conditions := Some conditions;
           du_reasoning := reasoning;
           du_current_step := "decide" |})
    catches_json_index
    (fun _ =>
       Ok {| du_recommendation := JStr "no_go";
             du_confidence_score := JFloat 0;
             du_positive_factors := None;
             du_risk_factors := None;
             du_conditions := None;
             du_reasoning := JStr "Failed to generate decision";
             du_current_step := "decide" |}).

End WithJsonLoads.

(** *** [build_qualification_graph] *)

Section Build.
Import LangGraph.
Context {State Update : Type}.
Variables ingest extract analyze match_ decide : State -> result Update.

Definition build_qualification_graph : StateGraph State Update :=
  let workflow := new_graph in
  let workflow := add_node "ingest" ingest workflow in
  let workflow := add_node "extract" extract workflow in
  let workflow := add_node "analyze" analyze workflow in
  let workflow := add_node "match" match_ workflow in
  let workflow := add_node "decide" decide workflow in
  let workflow := set_entry_point "ingest" workflow in
  let workflow := add_edge "ingest" "extract" workflow in
  let workflow := add_edge "extract" "analyze" workflow in
  let workflow := add_edge "analyze" "match" workflow in
  let workflow := add_edge "match" "decide" workflow in
  let workflow := add_edge "decide" END workflow in
  workflow.

End Build.

End Qualification.

(** ** [app/agents/orchestrator.py] *)

Module Orchestrator.
Import Py Json LangGraph.

(** *** Rows and dicts *)

Record Employee := {
  emp_id : string;
  emp_name : string;
  emp_role : string;
  emp_skills : option (list string);
  emp_availability_percent : Z;
  emp_hourly_rate : float;
}.

(** One entry of [extracted_requirements]. *)
Record extracted_requirement := {
  er_category : option string;
  er_text : option string;
}.

Record resource_estimate := {
  key_roles : option (list string);
}.

Record gap_analysis := {
  strong_areas : option (list string);
  gap_areas : option (list string);
  ga_resource_estimate : option resource_estimate;
}.

(** One entry of [matched_staff]. *)
Record staff_match := {
  sm_employee_id : string;
  sm_name : string;
  sm_role : string;
  sm_skills : list string;
  sm_matching_skills : list string;
  sm_match_score : Z;
  sm_availability_percent : Z;
  sm_hourly_rate : float;
}.

Record DealAssignment := {
  da_id : string;
  da_deal_id : string;
  da_employee_id : string;
  da_role_on_deal : option string;
  da_allocation_percent : Z;
  da_assigned_by : string;
  da_match_score : option Z;
}.

(** *** [list.sort(key=..., reverse=True)]

    Python's sort is stable, also with [reverse=True]: items with equal keys
    keep their order. The result of a stable sort is determined by its input,
    so insertion (each item placed before the first item whose key is not
    greater) computes it. *)

Section StableSort.
Context {A K : Type}.
Variable ltb : K -> K -> bool.
Variable key : A -> K.

Fixpoint insert_desc (x : A) (l : list A) : list A :=
  match l with
  | [] => [x]
  | y :: l' => if ltb (key x) (key y) then y :: insert_desc x l' else x :: l
  end.

Definition sort_desc (l : list A) : list A := foldr insert_desc [] l.

End StableSort.

(** *** Staff matching (the block after the graph in [run_qualification_flow]) *)

(** [for word in s.split(): if len(word) > 3]. *)
Definition long_words (s : string) : list string :=
  filter (λ word, (3 < String.length word)%nat) (split_ws s).

Definition required_keywords (requirements : list extracted_requirement)
    (gap : gap_analysis) (key_roles : list string) : gset string :=
  let from_requirements :=
    requirements ≫= (λ req,
      long_words (lower (default EmptyString (er_text req)))
      ++ [lower (default EmptyString (er_category req))]) in
  let areas := default [] (strong_areas gap) ++ default [] (gap_areas gap) in
  let from_areas := areas ≫= (λ area, long_words (lower area)) in
  let from_roles := key_roles ≫= (λ role, long_words (lower role)) in
  list_to_set (from_requirements ++ from_areas ++ from_roles).

(** The keyword set as the specification words it: requirement texts and
    categories only. *)
Definition spec_required_keywords (requirements : list extracted_requirement)
    : gset string :=
  list_to_set
    (requirements ≫= (λ req,
       long_words (lower (default EmptyString (er_text req)))
       ++ [lower (default EmptyString (er_category req))])).

Definition employee_terms (emp : Employee) : gset string :=
  let emp_skills : gset string :=
    list_to_set (lower <$> default [] (emp_skills emp)) in
  let emp_role_words : gset string :=
    list_to_set (lower <$> filter (λ w, (3 < String.length w)%nat)
                                  (split_ws (emp_role emp))) in
  emp_skills ∪ emp_role_words.

Definition score_employee (required : gset string) (emp : Employee)
    : option staff_match :=
  let overlap := employee_terms emp ∩ required in
  if bool_decide (overlap = ∅) then None
  else Some {| sm_employee_id := emp_id emp;
               sm_name := emp_name emp;
               sm_role := emp_role emp;
               sm_skills := default [] (emp_skills emp);
               sm_matching_skills := elements overlap;
               sm_match_score := Z.of_nat (size overlap);
               sm_availability_percent := emp_availability_percent emp;
               sm_hourly_rate := emp_hourly_rate emp |}.

Definition no_estimate : resource_estimate := {| key_roles := None |}.

Definition match_staff (all_employees : list Employee)
    (requirements : list extracted_requirement) (gap : gap_analysis)
    : list staff_match :=
  let key_roles :=
    default [] (key_roles (default no_estimate (ga_resource_estimate gap))) in
  if bool_decide (all_employees = []) then []
  else
    let required := required_keywords requirements gap key_roles in
    let matched_staff := omap (score_employee required) all_employees in
    sort_desc Z.ltb sm_match_score matched_staff.

(** The ranking as the specification words it. *)
Definition spec_match_staff (all_employees : list Employee)
    (requirements : list extracted_requirement) : list staff_match :=
  sort_desc Z.ltb sm_match_score
    (omap (score_employee (spec_required_keywords requirements)) all_employees).

(** *** Auto-assignment *)

Section AutoAssign.
(** [str(uuid.uuid4())] for the n-th row added. *)
Variable uuid4 : nat -> string.

Definition is_auto_of (deal_id : string) (a : DealAssignment) : Prop :=
  da_deal_id a = deal_id ∧ da_assigned_by a = "auto".

#[global] Instance is_auto_of_dec deal_id a : Decision (is_auto_of deal_id a).
Proof. unfold is_auto_of. apply _. Defined.

Definition new_assignment (deal_id : string) (n : nat) (staff : staff_match)
    : DealAssignment :=
  {| da_id := uuid4 n;
     da_deal_id := deal_id;
     da_employee_id := sm_employee_id staff;
     da_role_on_deal := Some (sm_role staff);
     da_allocation_percent := Z.min (sm_availability_percent staff) 100;
     da_assigned_by := "auto";
     da_match_score := Some (sm_match_score staff) |}.

(** The [deal_assignments] table before and after, and [auto_assigned]. *)
Definition auto_assign (table : list DealAssignment) (deal_id : string)
    (matched_staff : list staff_match) : list DealAssignment * Z :=
  if bool_decide (matched_staff = []) then (table, 0)
  else
    let table := filter (λ a, ¬ is_auto_of deal_id a) table in
    foldl (λ '(table, auto_assigned) staff,
             (table ++ [new_assignment deal_id (Z.to_nat auto_assigned) staff],
              auto_assigned + 1))
          (table, 0) (take 5 matched_staff).

End AutoAssign.

(** *** Progress records *)

(** What [send_update] and [_run_graph_sync] write to [task_store[task_id]]
    ([send_update] also pushes the record to the web socket). *)
Record task_update := {
  step : string;
  step_number : Z;
  total_steps : Z;
  status : string;
  message : string;
  data : list (string * json);
}.

(** The successive values of [task_store[task_id]]: the record
    [run_agent_flow] starts with has no step number and no total. *)
Inductive store_entry :=
  | Initializing (message : string)
  | Posted (u : task_update).

Definition send_update (step : string) (step_num total : Z)
    (status message : string) (data : list (string * json)) : task_update :=
  {| step := step; step_number := step_num; total_steps := total;
     status := status; message := message; data := data |}.

(** *** External collaborators *)

Record Deal := {
  deal_title : string;
  deal_client_name : option string;
  deal_health_score : option Z;
}.

Record Document := {
  doc_id : string;
  doc_extracted_text : option string;
  doc_category : option string;
  doc_meta_title : option string;
  doc_original_filename : option string;
  doc_filename : string;
}.

Record email := {
  e_date : option string;
  e_from : option string;
  e_subject : option string;
  e_preview : option string;
}.

Record gmail_client := {
  search_emails : string -> Z -> result (list email);
}.

Section Flows.
Context {State Update : Type}.
Variable merge : State -> Update -> State.

(** What a run finds outside: the answers of the database queries, Gmail, and
    the writes that follow the graph ([w_save_*] returns the payload of the
    final update, or raises when the session or a later step does). *)
Record world := {
  w_deal : option Deal;
  w_all_docs : list Document;
  w_find_document : string -> option Document;
  w_oauth : option string;
  w_get_gmail_client : string -> result (option gmail_client);
  w_after_filter : string;
  w_save_qualification : list (string * Update) -> result (list (string * json));
  w_save_proposal : list (string * Update) -> result (list (string * json));
  w_save_monitoring : list (string * Update) -> result (list (string * json));
}.

(** The stage functions and the initial state dicts. *)
Variables ingest_node extract_node analyze_node match_node decide_node
  : State -> result Update.
Variables retrieve_node generate_node comply_node : State -> result Update.
Variables sentiment_node health_node alert_node recovery_node
  : State -> result Update.
Variable qualification_state : string -> State.
Variable proposal_state : Deal -> State.
Variable monitoring_state : Deal -> list Monitoring.communication -> State.

Definition qualification_graph : StateGraph State Update :=
  Qualification.build_qualification_graph
    ingest_node extract_node analyze_node match_node decide_node.
Definition proposal_graph : StateGraph State Update :=
  Proposal.build_proposal_graph retrieve_node generate_node comply_node.
Definition monitoring_graph : StateGraph State Update :=
  Monitoring.build_monitoring_graph
    sentiment_node health_node alert_node recovery_node.

(** [steps.index(node_name) + 1 if node_name in steps else 0]. *)
Definition step_index (steps : list string) (node_name : string) : Z :=
  match list_find (λ s, s = node_name) steps with
  | Some (i, _) => Z.of_nat i + 1
  | None => 0
  end.

(** [_run_graph_sync]: the records written while the graph streams, and
    [accumulated] (here the node outputs in order, which determine the dict)
    or the exception that ended the stream. *)
Definition _run_graph_sync (graph : StateGraph State Update)
    (initial_state : State) (steps : list string)
    (step_messages : list (string * string)) (total_steps : Z)
    : list task_update * result (list (string * Update)) :=
  let '(events, err) := stream merge graph initial_state in
  let written :=
    map (λ '(node_name, _),
           {| step := node_name;
              step_number := step_index steps node_name;
              total_steps := total_steps;
              status := "processing";
              message := default ("Processing " +:+ node_name +:+ "...")
                                 (lookup_by_name node_name step_messages);
              data := [] |})
        events in
  (written, match err with None => Ok events | Some e => Raise e end).

(** The records of one run and the stages that ran, in order. *)
Record flow_run := {
  posted : list task_update;
  executed : list string;
}.

(** The part the three flows share after [_run_graph_sync]: [if result:] save
    and report completion; [except Exception] report the failure. Every stage
    returns a dict with a ["current_step"], so [result] is empty only when no
    event was yielded. *)
Definition finish (before : list task_update) (total : Z) (done_message : string)
    (save : list (string * Update) -> result (list (string * json)))
    (ran : list task_update * result (list (string * Update))) : flow_run :=
  let '(written, result) := ran in
  let failed e := send_update "error" 0 total "failed" ("Error: " +:+ exn_msg e) [] in
  {| posted :=
       before ++ written ++
       match result with
       | Raise e => [failed e]
       | Ok accumulated =>
           if bool_decide (accumulated = []) then []
           else match save accumulated with
                | Ok payload =>
                    [send_update "complete" total total "completed" done_message payload]
                | Raise e => [failed e]
                end
       end;
     executed := map step written |}.

Definition stopped (u : task_update) : flow_run :=
  {| posted := [u]; executed := [] |}.

Definition doc_part (doc : Document) : string :=
  let category_label := upper (str_or (doc_category doc) "general") in
  let source_title :=
    default (str_or (doc_original_filename doc) (doc_filename doc))
            (doc_meta_title doc) in
  "=== [" +:+ category_label +:+ "] " +:+ source_title +:+ " ===" +:+ nl
  +:+ default EmptyString (doc_extracted_text doc).

Definition has_text (doc : Document) : bool :=
  negb (String.eqb (default EmptyString (doc_extracted_text doc)) EmptyString).

(** [all_docs], with the requested document put first when it is missing
    from the processed ones and has text. *)
Definition gather_documents (w : world) (document_id : option string)
    : list Document :=
  let all_docs := w_all_docs w in
  match document_id with
  | Some id =>
      if negb (String.eqb id EmptyString)
         && negb (existsb (λ d, String.eqb (doc_id d) id) all_docs)
      then match w_find_document w id with
           | Some specific_doc =>
               if has_text specific_doc then specific_doc :: all_docs
               else all_docs
           | None => all_docs
           end
      else all_docs
  | None => all_docs
  end.

Definition document_text (all_docs : list Document) : string :=
  let doc_parts := map doc_part (List.filter has_text all_docs) in
  String.concat (nl +:+ nl) doc_parts.

Definition run_qualification_flow (w : world) (document_id : option string)
    : flow_run :=
  match w_deal w with
  | None => stopped (send_update "error" 0 5 "failed" "Deal not found" [])
  | Some deal =>
      let all_docs := gather_documents w document_id in
      if bool_decide (all_docs = []) then
        stopped (send_update "error" 0 5 "failed"
                   "No processed documents found for this deal" [])
      else
        let doc_text := document_text all_docs in
        if String.eqb (strip doc_text) EmptyString then
          stopped (send_update "error" 0 5 "failed"
                     "Documents found but no text could be extracted" [])
        else
          let first :=
            send_update "ingest" 1 5 "processing"
              ("Ingesting " +:+ pretty (Z.of_nat (length all_docs))
               +:+ " document(s)...") [] in
          let steps := ["ingest"; "extract"; "analyze"; "match"; "decide"] in
          let step_messages :=
            [ ("ingest", "Parsing document structure...");
              ("extract", "Extracting requirements and entities...");
              ("analyze", "Analyzing deal viability...");
              ("match", "Matching employee skills...");
              ("decide", "Generating GO/NO-GO recommendation...") ] in
          finish [first] 5 "Qualification complete" (w_save_qualification w)
            (_run_graph_sync qualification_graph (qualification_state doc_text)
               steps step_messages 5)
  end.

Definition run_proposal_flow (w : world) : flow_run :=
  match w_deal w with
  | None => stopped (send_update "error" 0 3 "failed" "Deal not found" [])
  | Some deal =>
      let first :=
        send_update "retrieve" 1 3 "processing"
          "Quinn is retrieving relevant proposal context..." [] in
      let steps := ["retrieve"; "generate"; "comply"] in
      let step_messages :=
        [ ("retrieve", "Searching knowledge base for relevant proposal sections...");
          ("generate", "Generating proposal draft...");
          ("comply", "Checking compliance against requirements...") ] in
      finish [first] 3 "Proposal generated" (w_save_proposal w)
        (_run_graph_sync proposal_graph (proposal_state deal) steps step_messages 3)
  end.

(** The Gmail block of [run_monitoring_flow]: [real_comms], newest first, and
    [no_emails_reason]. *)
Definition fetch_communications (w : world) (deal : Deal)
    : list Monitoring.communication * option string :=
  let fetched : result (list Monitoring.communication * option string) :=
    match w_oauth w with
    | None =>
        Ok ([], Some "Gmail not connected. Connect your Google account in Settings.")
    | Some user_id =>
        gmail ← w_get_gmail_client w user_id;
        match gmail with
        | None =>
            Ok ([], Some "Gmail token expired and could not be refreshed. Please reconnect in Settings.")
        | Some gmail =>
            let client_name := str_or (deal_client_name deal) EmptyString in
            let no_client := String.eqb client_name EmptyString in
            emails ←
              (if no_client then Ok []
               else search_emails gmail
                      (client_name +:+ " after:" +:+ w_after_filter w) 15);
            emails ←
              (if no_client || bool_decide (emails = [])
               then search_emails gmail "newer_than:3d" 5
               else Ok emails);
            let with_raw_date :=
              map (λ e,
                     ({| Monitoring.c_type := Some "email";
                         Monitoring.c_from := Some (default EmptyString (e_from e));
                         Monitoring.c_subject := Some (default EmptyString (e_subject e));
                         Monitoring.c_date :=
                           Some (String.substring 0 10 (default EmptyString (e_date e)));
                         Monitoring.c_content := Some (default EmptyString (e_preview e)) |},
                      default EmptyString (e_date e)))
                  emails in
            let real_comms := map fst (sort_desc String.ltb snd with_raw_date) in
            Ok (real_comms,
                if bool_decide (real_comms = []) then
                  Some ("No new emails found for '" +:+ client_name
                        +:+ "' since last monitoring run.")
                else None)
        end
    end in
  match fetched with
  | Ok found => found
  | Raise e => ([], Some ("Gmail fetch failed: " +:+ exn_msg e))
  end.

Definition run_monitoring_flow (w : world) : flow_run :=
  match w_deal w with
  | None => stopped (send_update "error" 0 4 "failed" "Deal not found" [])
  | Some deal =>
      let first :=
        send_update "sentiment" 1 4 "processing" "Fetching emails from Gmail..." [] in
      let '(real_comms, no_emails_reason) := fetch_communications w deal in
      if bool_decide (real_comms = []) then
        {| posted :=
             [ first;
               send_update "complete" 4 4 "completed"
                 "Monitoring complete — no relevant emails found"
                 [ ("health_score", JInt (int_or (deal_health_score deal) 70));
                   ("sentiment", JFloat 0);
                   ("alerts_generated", JInt 0);
                   ("no_emails_reason",
                    match no_emails_reason with
                    | Some reason => JStr reason
                    | None => JNull
                    end) ] ];
           executed := [] |}
      else
        let steps := ["sentiment"; "health"; "alert"; "recovery"] in
        let step_messages :=
          [ ("sentiment", "Analyzing communication sentiment...");
            ("health", "Calculating deal health score...");
            ("alert", "Detecting potential risks...");
            ("recovery", "Generating recovery strategy...") ] in
        finish [first] 4 "Monitoring complete" (w_save_monitoring w)
          (_run_graph_sync monitoring_graph (monitoring_state deal real_comms)
             steps step_messages 4)
  end.

(** What [run_agent_flow] leaves in [task_store[task_id]] over time, and the
    stages that ran. *)
Record agent_run := {
  store : list store_entry;
  stages : list string;
}.

Definition run_agent_flow (w : world) (flow_type : string)
    (document_id : option string) : agent_run :=
  let start := Initializing ("Starting " +:+ flow_type +:+ " flow...") in
  let r :=
    if String.eqb flow_type "qualification" then run_qualification_flow w document_id
    else if String.eqb flow_type "proposal" then run_proposal_flow w
    else if String.eqb flow_type "monitoring" then run_monitoring_flow w
    else stopped (send_update "error" 0 0 "failed"
                    ("Unknown flow type: " +:+ flow_type) []) in
  {| store := start :: map Posted (posted r); stages := executed r |}.

End Flows.

End Orchestrator.

(** * The code around the pipelines

    What the driver saves after a run, and the functions the stages and the
    driver call or are called from: the status endpoint
    ([app/routers/agents.py]), the connection manager
    ([app/websocket/manager.py]), the WhatsApp tools
    ([app/mcp/tools/whatsapp_tools.py]) and the reply cleaner of
    [app/services/llm.py]. The conventions are those of the pipelines; a call
    into a library or a service (the database session, Twilio, a web socket)
    is a parameter that returns or raises. *)

(** ** More string functions of Python *)

Module PyStr.

(** [s[n:]]. *)
Fixpoint slice_from (n : nat) (s : string) : string :=
  match n, s with
  | S n', String _ s' => slice_from n' s'
  | _, _ => s
  end.

(** [s.split(sep, 1)] for a non-empty [sep]; [cur] is the text before the
    separator, reversed. *)
Fixpoint split_once_go (sep cur s : string) : list string :=
  match s with
  | EmptyString => [String.rev cur]
  | String c s' =>
      if String.prefix sep s
      then [String.rev cur; slice_from (String.length sep) s]
      else split_once_go sep (String c cur) s'
  end.

Definition split_once (sep s : string) : list string :=
  split_once_go sep EmptyString s.

(** Text beyond ASCII is held as its UTF-8 encoding, one [ascii] for each
    byte; [utf8] writes a character by its bytes. *)
Definition utf8 (bytes : list Z) : string :=
  string_of_list_ascii (map (λ b, ascii_of_nat (Z.to_nat b)) bytes).

(** [s] behind its prefix [p], when it starts with [p]. *)
Fixpoint after_prefix (p s : string) : option string :=
  match p, s with
  | EmptyString, _ => Some s
  | String a p', String b s' => if Ascii.eqb a b then after_prefix p' s' else None
  | String _ _, EmptyString => None
  end.

(** [s] behind the first of [alternatives] it starts with. *)
Fixpoint match_any (alternatives : list string) (s : string) : option string :=
  match alternatives with
  | [] => None
  | a :: others =>
      match after_prefix a s with
      | Some rest => Some rest
      | None => match_any others s
      end
  end.

(** The characters above 127 that [str.isspace] holds for, as UTF-8: U+0085,
    U+00A0, U+1680, U+2000 to U+200A, U+2028, U+2029, U+202F, U+205F and
    U+3000. *)
Definition wide_space : list string :=
  [utf8 [194; 133]; utf8 [194; 160]; utf8 [225; 154; 128]]
  ++ map (λ b, utf8 [226; 128; Z.of_nat b]) (seq 128 11)
  ++ [utf8 [226; 128; 168]; utf8 [226; 128; 169]; utf8 [226; 128; 175];
      utf8 [226; 129; 159]; utf8 [227; 128; 128]].

(** Leading white space dropped, where white space is an ASCII space
    character or one of [spaces]; [skip] counts the bytes of a character
    still to be dropped. *)
Fixpoint lstrip_go (spaces : list string) (skip : nat) (s : string) : string :=
  match s with
  | EmptyString => EmptyString
  | String c s' =>
      match skip with
      | S k => lstrip_go spaces k s'
      | O =>
          if Py.isspace c then lstrip_go spaces 0 s'
          else
            match match_any spaces s with
            | Some rest =>
                lstrip_go spaces (String.length s - String.length rest - 1) s'
            | None => s
            end
      end
  end.

(** [s.strip()] on any text, the white space above 127 included. *)
Definition lstrip_unicode (s : string) : string := lstrip_go wide_space 0 s.

Definition rstrip_unicode (s : string) : string :=
  String.rev (lstrip_go (String.rev <$> wide_space) 0 (String.rev s)).

Definition strip_unicode (s : string) : string :=
  rstrip_unicode (lstrip_unicode s).

End PyStr.

(** ** [app/agents/qualification.py]: [ingest_node] *)

Module Ingest.
Import Py Json.

(** The two keys of [QualificationState] the stage reads; [None] is an absent
    key. The metadata dict is the one the driver builds ([document_count],
    [documents]). *)
Record QualificationState := {
  st_document_text : option string;
  st_document_metadata : option (list (string * json));
}.

(** What the stage returns: [errors] on an empty text, else the metadata
    with the two counts set. *)
Record ingest_update := {
  iu_errors : option (list string);
  iu_document_metadata : option (list (string * json));
  iu_current_step : string;
}.

Definition ingest_node (state : QualificationState) : ingest_update :=
  let text := default EmptyString (st_document_text state) in
  if String.eqb text EmptyString then
    {| iu_errors := Some ["No document text provided"];
       iu_document_metadata := None;
       iu_current_step := "ingest" |}
  else
    let metadata := default [] (st_document_metadata state) in
    let metadata :=
      JsonText.dict_set "word_count"
        (JInt (Z.of_nat (length (split_ws text)))) metadata in
    let metadata :=
      JsonText.dict_set "char_count"
        (JInt (Z.of_nat (String.length text))) metadata in
    {| iu_errors := None;
       iu_document_metadata := Some metadata;
       iu_current_step := "ingest" |}.

End Ingest.

(** ** [app/routers/agents.py] *)

Module AgentsRouter.
Import Py Json Orchestrator.

(** An entry of [agent_tasks]. *)
Record agent_task := {
  at_task_id : string;
  at_deal_id : string;
  at_flow_type : string;
  at_status : string;
  at_step : option string;
  at_step_number : Z;
  at_total_steps : Z;
  at_result : option string;
  at_error : option string;
  at_created_at : string;
  at_updated_at : string;
}.

(** The entry [run_agent_task] creates; [now] is [datetime.utcnow().isoformat()]. *)
Definition queued_task (task_id deal_id flow_type now : string) : agent_task :=
  {| at_task_id := task_id;
     at_deal_id := deal_id;
     at_flow_type := flow_type;
     at_status := "queued";
     at_step := Some "initializing";
     at_step_number := 0;
     at_total_steps := 0;
     at_result := None;
     at_error := None;
     at_created_at := now;
     at_updated_at := now |}.

Definition with_status (status : string) (error : option string) (now : string)
    (task : agent_task) : agent_task :=
  {| at_task_id := at_task_id task;
     at_deal_id := at_deal_id task;
     at_flow_type := at_flow_type task;
     at_status := status;
     at_step := at_step task;
     at_step_number := at_step_number task;
     at_total_steps := at_total_steps task;
     at_result := at_result task;
     at_error := error;
     at_created_at := at_created_at task;
     at_updated_at := now |}.

(** [run_agent_task_async] on the entry of the task: [flow] is what
    [run_agent_flow] did (its records, or the exception that escaped it),
    [started] and [ended] are the two readings of the clock. *)
Definition run_agent_task_async (task : agent_task) (flow : result agent_run)
    (started ended : string) : agent_task :=
  let task := with_status "running" (at_error task) started task in
  match flow with
  | Ok _ => with_status "completed" (at_error task) ended task
  | Raise e => with_status "failed" (Some (exn_msg e)) ended task
  end.

(** The response model [AgentTaskStatus]. *)
Record AgentTaskStatus := {
  ts_task_id : string;
  ts_status : string;
  ts_step : option string;
  ts_step_number : Z;
  ts_total_steps : Z;
  ts_result : option string;
  ts_error : option string;
  ts_created_at : string;
  ts_updated_at : string;
}.

Inductive response (A : Type) :=
  | Returned (a : A)
  | HTTPException (status_code : Z) (detail : string).
Arguments Returned {A} a.
Arguments HTTPException {A} status_code detail.

(** The keys of an entry of [task_store], as [dict.get] sees them: the
    initial record has neither numbers nor data. *)
Definition orch_status_of (e : store_entry) : string :=
  match e with
  | Initializing _ => "processing"
  | Posted u => status u
  end.

Definition orch_step_of (e : store_entry) : string :=
  match e with
  | Initializing _ => "initializing"
  | Posted u => step u
  end.

Definition orch_message_of (e : store_entry) : string :=
  match e with
  | Initializing message => message
  | Posted u => message u
  end.

Definition orch_numbers_of (e : store_entry) : option (Z * Z) :=
  match e with
  | Initializing _ => None
  | Posted u => Some (step_number u, total_steps u)
  end.

Definition orch_data_of (e : store_entry) : list (string * json) :=
  match e with
  | Initializing _ => []
  | Posted u => data u
  end.

(** [a or b] on two optional strings. *)
Definition or_else (a b : option string) : option string :=
  match a with
  | Some (String c s) => Some (String c s)
  | _ => b
  end.

Section Status.
(** [json.dumps] and [str] on the payload of a record. *)
Variable json_dumps : list (string * json) → result string.
Variable str : list (string * json) → string.

Definition get_agent_task_status (agent_tasks : gmap string agent_task)
    (task_store : gmap string store_entry) (task_id : string)
    : response AgentTaskStatus :=
  match agent_tasks !! task_id with
  | None => HTTPException 404 "Task not found"
  | Some task =>
      let orch_status := task_store !! task_id in
      let orch_data := default [] (orch_data_of <$> orch_status) in
      let result_str :=
        if bool_decide (orch_data = []) then None
        else match json_dumps orch_data with
             | Ok s => Some s
             | Raise _ => Some (str orch_data)
             end in
      Returned
        {| ts_task_id := at_task_id task;
           ts_status := default (at_status task) (orch_status_of <$> orch_status);
           ts_step := match orch_status with
                      | Some e => Some (orch_step_of e)
                      | None => at_step task
                      end;
           ts_step_number :=
             default (at_step_number task)
                     (fst <$> (orch_status ≫= orch_numbers_of));
           ts_total_steps :=
             default (at_total_steps task)
                     (snd <$> (orch_status ≫= orch_numbers_of));
           ts_result := or_else result_str (at_result task);
           ts_error :=
             if bool_decide (orch_status_of <$> orch_status = Some "failed")
             then or_else (at_error task) (orch_message_of <$> orch_status)
             else at_error task;
           ts_created_at := at_created_at task;
           ts_updated_at := at_updated_at task |}
  end.

End Status.

End AgentsRouter.

(** ** [app/mcp/tools/whatsapp_tools.py] *)

Module WhatsApp.
Import Py Json.

(** The four settings the module reads; each is a [str], empty by default. *)
Record Settings := {
  TWILIO_ACCOUNT_SID : string;
  TWILIO_AUTH_TOKEN : string;
  TWILIO_WHATSAPP_FROM : string;
  ADMIN_WHATSAPP_NUMBER : string;
}.

(** A Twilio client: [messages.create(body, from_, to)] returns the SID of
    the message or raises. *)
Record Client := {
  messages_create : string → string → string → result string;
}.

(** A message handed to Twilio. *)
Record outgoing := {
  og_body : string;
  og_from : string;
  og_to : string;
}.

(** The dict the two functions return: [{"status": "ok", "message_sid", "to",
    "message"}] or [{"status": "error", "error"}]. *)
Inductive wa_result :=
  | WaOk (message_sid to message : string)
  | WaError (error : string).

Section WithTwilio.
Variable settings : Settings.
(** [twilio.rest.Client(sid, token)]; a missing package is an exception of
    the import. *)
Variable new_client : string → string → result Client.

Definition _get_twilio_client : option Client :=
  if String.eqb (TWILIO_ACCOUNT_SID settings) EmptyString
     || String.eqb (TWILIO_AUTH_TOKEN settings) EmptyString
  then None
  else match new_client (TWILIO_ACCOUNT_SID settings) (TWILIO_AUTH_TOKEN settings) with
       | Ok client => Some client
       | Raise _ => None
       end.

(** [send_whatsapp_alert]: the dict returned and the messages handed to
    Twilio on the way. *)
Definition send_whatsapp_alert (message : string) (to_number : option string)
    : wa_result * list outgoing :=
  let recipient := str_or to_number (ADMIN_WHATSAPP_NUMBER settings) in
  if String.eqb recipient EmptyString then
    (WaError "No recipient WhatsApp number configured. Set ADMIN_WHATSAPP_NUMBER in .env",
     [])
  else
    match _get_twilio_client with
    | None =>
        (WaError "Twilio not configured. Set TWILIO_ACCOUNT_SID and TWILIO_AUTH_TOKEN in .env",
         [])
    | Some client =>
        let from_number := TWILIO_WHATSAPP_FROM settings in
        if String.eqb from_number EmptyString then
          (WaError "TWILIO_WHATSAPP_FROM not configured in .env", [])
        else
          let from_number :=
            if String.prefix "whatsapp:" from_number then from_number
            else "whatsapp:" +:+ from_number in
          let recipient :=
            if String.prefix "whatsapp:" recipient then recipient
            else "whatsapp:" +:+ recipient in
          let handed :=
            [ {| og_body := message; og_from := from_number; og_to := recipient |} ] in
          match messages_create client message from_number recipient with
          | Ok sid =>
              (WaOk sid recipient "WhatsApp alert sent successfully", handed)
          | Raise e => (WaError (exn_msg e), handed)
          end
    end.

(** [f"{value:.2f}"] on a value of the reply: numbers only. [format_2f] is
    the formatting of a float. *)
Variable format_2f : float → string.

Definition format_2f_value (value : json) : result string :=
  match value with
  | JFloat f => Ok (format_2f f)
  | JInt z => f ← float_of_int z; Ok (format_2f f)
  | JBool b => Ok (format_2f (if b then 1 else 0)%float)
  | JStr _ =>
      Raise (Exn ValueError "Unknown format code 'f' for object of type 'str'")
  | _ =>
      Raise (Exn TypeError
               ("unsupported format string passed to " +:+ type_name value
                +:+ ".__format__"))
  end.

Definition severity_label (severity : string) : string :=
  if String.eqb severity "critical" then "🚨 CRITICAL"
  else if String.eqb severity "high" then "⚠️ HIGH"
  else if String.eqb severity "medium" then "📋 MEDIUM"
  else if String.eqb severity "info" then "ℹ️ INFO"
  else "🔔 " +:+ upper severity.

Definition type_label (alert_type : string) : string :=
  if String.eqb alert_type "sentiment_drop" then "Negative Sentiment"
  else if String.eqb alert_type "deadline_risk" then "Health Score Critical"
  else if String.eqb alert_type "competitor_mention" then "Competitor Mentioned"
  else if String.eqb alert_type "positive_update" then "Positive Update"
  else alert_type.

Definition rule : string := "━━━━━━━━━━━━━━━━━━━━".

Definition send_deal_risk_alert (deal_title client_name alert_type severity : string)
    (health_score : Z) (sentiment_score : json) (description : string)
    (to_number : option string) : result (wa_result * list outgoing) :=
  sentiment ← format_2f_value sentiment_score;
  let message :=
    severity_label severity +:+ nl
    +:+ rule +:+ nl
    +:+ "*DealMind Alert*" +:+ nl +:+ nl
    +:+ "*Deal:* " +:+ deal_title +:+ nl
    +:+ "*Client:* " +:+ client_name +:+ nl
    +:+ "*Type:* " +:+ type_label alert_type +:+ nl
    +:+ "*Health Score:* " +:+ pretty health_score +:+ "%" +:+ nl
    +:+ "*Sentiment:* " +:+ sentiment +:+ nl +:+ nl
    +:+ "*Details:*" +:+ nl +:+ description +:+ nl +:+ nl
    +:+ rule +:+ nl
    +:+ "_Open DealMind dashboard to review and take action._" in
  Ok (send_whatsapp_alert message to_number).

End WithTwilio.

End WhatsApp.

(** ** [app/agents/orchestrator.py]: what [run_monitoring_flow] saves

    The block after the graph ([if result:]). The accumulated result holds
    the outputs of the four stages, so it is given here as the four updates
    the stages returned. *)

Module MonitoringSave.
Import Py PyStr Json Monitoring Orchestrator.

(** The recovery email split into subject and body. The email is the value
    of the reply; only a [str] has [strip]. *)
Definition parse_recovery_email (deal_title : string) (raw_email : json)
    : result (string * json) :=
  let email_subject := EmptyString in
  let email_body := raw_email in
  if truthy raw_email then
    match raw_email with
    | JStr raw =>
        let lines := split_once nl (strip raw) in
        first_line ← index lines 0;
        let first_line := strip first_line in
        if String.prefix "subject:" (lower first_line) then
          let email_subject := strip (slice_from (String.length "subject:") first_line) in
          email_body ←
            (if (1 <? length lines)%nat then
               rest ← index lines 1; Ok (strip rest)
             else Ok EmptyString);
          Ok (email_subject, JStr email_body)
        else Ok ("Re: " +:+ deal_title, raw_email)
    | _ =>
        Raise (Exn AttributeError
                 ("'" +:+ type_name raw_email +:+ "' object has no attribute 'strip'"))
    end
  else Ok (email_subject, email_body).

(** Rows of the tables [alerts] and [recovery_actions]. *)
Record Alert := {
  al_id : string;
  al_deal_id : string;
  al_alert_type : string;
  al_severity : string;
  al_title : string;
  al_description : string;
  al_sentiment_score : json;
  al_source_context : option string;
  al_email_subject : string;
  al_email_body : json;
}.

Record RecoveryAction := {
  ra_id : string;
  ra_alert_id : string;
  ra_action_text : json;
  ra_priority : Z;
}.

(** The items a [for] loop draws from a value of the reply. *)
Definition iterate (v : json) : result (list json) :=
  match v with
  | JArr l => Ok l
  | JStr s => Ok ((λ c, JStr (String c EmptyString)) <$> list_ascii_of_string s)
  | JObj kv => Ok ((λ p, JStr (fst p)) <$> kv)
  | _ => Raise (Exn TypeError ("'" +:+ type_name v +:+ "' object is not iterable"))
  end.

(** The arguments of one call of [send_deal_risk_alert]. *)
Record risk_call := {
  rc_deal_title : string;
  rc_client_name : string;
  rc_alert_type : string;
  rc_severity : string;
  rc_health_score : Z;
  rc_sentiment_score : json;
  rc_description : string;
}.

(** What the block leaves behind: the rows added, the new health score and
    status of the deal ([None]: status untouched), the WhatsApp calls made,
    and the payload of the final record. *)
Record saved := {
  sv_alerts : list Alert;
  sv_actions : list RecoveryAction;
  sv_health_score : Z;
  sv_status : option string;
  sv_whatsapp_calls : list risk_call;
  sv_payload : list (string * json);
}.

Definition is_risk (a : alert) : Prop :=
  severity a = "critical" ∨ severity a = "high".

#[global] Instance is_risk_dec a : Decision (is_risk a).
Proof. unfold is_risk. apply _. Defined.

Section Save.
(** [str(uuid.uuid4())] for the n-th row added. *)
Variable uuid4 : nat → string.
(** [json.dumps] on the communications. *)
Variable json_dumps : list communication → string.
(** [db.commit()] on the rows added. *)
Variable db_commit : list Alert → list RecoveryAction → result unit.
(** [send_deal_risk_alert], imported from the WhatsApp tools. *)
Variable send_deal_risk_alert : risk_call → result WhatsApp.wa_result.

Section Rows.
Variables (deal_id : string) (recovery_actions sentiment : json).
Variables (source_emails_json : option string).
Variables (email_subject : string) (email_body : json).

(** The two nested loops: one [Alert] per detected alert and, for each, one
    [RecoveryAction] per recovery action. [n] rows were added before. *)
Fixpoint alert_rows (n : nat) (detected_alerts : list alert)
    : result (list Alert * list RecoveryAction) :=
  match detected_alerts with
  | [] => Ok ([], [])
  | alert_data :: rest =>
      let alert :=
        {| al_id := uuid4 n;
           al_deal_id := deal_id;
           al_alert_type := alert_type alert_data;
           al_severity := severity alert_data;
           al_title := alert_title alert_data;
           al_description := description alert_data;
           al_sentiment_score := sentiment;
           al_source_context := source_emails_json;
           al_email_subject := email_subject;
           al_email_body := email_body |} in
      actions ← iterate recovery_actions;
      let added :=
        imap (λ i action_text,
                {| ra_id := uuid4 (n + 1 + i);
                   ra_alert_id := al_id alert;
                   ra_action_text := action_text;
                   ra_priority := Z.of_nat i + 1 |})
             actions in
      '(alerts, actions) ← alert_rows (n + 1 + length actions) rest;
      Ok (alert :: alerts, added ++ actions)
  end.

End Rows.

(** The WhatsApp loop, inside its [try]: an exception ends it. *)
Fixpoint notify (calls : list risk_call) : list risk_call :=
  match calls with
  | [] => []
  | call :: rest =>
      match send_deal_risk_alert call with
      | Ok _ => call :: notify rest
      | Raise _ => [call]
      end
  end.

Definition save_monitoring (deal_id : string) (deal : Deal)
    (real_comms : list communication)
    (sentiment : sentiment_update) (health : health_update)
    (alert : alert_update) (recovery : recovery_update) : result saved :=
  let health_score := hu_health_score health in
  let detected_alerts := au_detected_alerts alert in
  let alerts_count := Z.of_nat (length detected_alerts) in
  '(email_subject, email_body) ←
    parse_recovery_email (deal_title deal) (ru_recovery_email recovery);
  let source_emails_json :=
    if bool_decide (real_comms = []) then None else Some (json_dumps real_comms) in
  '(alerts, actions) ←
    alert_rows deal_id (ru_recovery_actions recovery)
      (su_overall_sentiment sentiment) source_emails_json email_subject email_body
      0 detected_alerts;
  let status :=
    if bool_decide (detected_alerts = []) then None else Some "at_risk" in
  _ ← db_commit alerts actions;
  let risk_alerts := filter is_risk detected_alerts in
  let calls :=
    notify
      ((λ alert_data,
          {| rc_deal_title := deal_title deal;
             rc_client_name := str_or (deal_client_name deal) "Unknown";
             rc_alert_type := alert_type alert_data;
             rc_severity := severity alert_data;
             rc_health_score := health_score;
             rc_sentiment_score := su_overall_sentiment sentiment;
             rc_description := description alert_data |})
       <$> risk_alerts) in
  Ok {| sv_alerts := alerts;
        sv_actions := actions;
        sv_health_score := health_score;
        sv_status := status;
        sv_whatsapp_calls := calls;
        sv_payload :=
          [ ("health_score", JInt health_score);
            ("sentiment", su_overall_sentiment sentiment);
            ("alerts_generated", JInt alerts_count);
            ("whatsapp_notified", JBool (0 <? length risk_alerts)%nat) ] |}.

End Save.

End MonitoringSave.

(** ** [app/websocket/manager.py]

    A web socket is known by its identity ([ws != websocket] compares
    objects), here a value of a type with decidable equality. Each method is
    modelled as it runs when no other coroutine touches the manager while it
    is suspended in an [await]. *)

Module WsManager.
Import Py.

Section Manager.
Context {WebSocket : Type} `{EqDecision WebSocket}.

Record ConnectionManager := {
  active_connections : gmap string (list WebSocket);
  user_connections : gmap string (list WebSocket);
}.

(** [ConnectionManager()]. *)
Definition new_manager : ConnectionManager :=
  {| active_connections := ∅; user_connections := ∅ |}.

(** [if key:] on an optional string. *)
Definition given (key : option string) : option string :=
  match key with
  | Some (String c s) => Some (String c s)
  | _ => None
  end.

(** [connect]; [accepted] is what [await websocket.accept()] did. *)
Definition connect (accepted : result unit) (websocket : WebSocket)
    (task_id user_id : option string) (self : ConnectionManager)
    : result ConnectionManager :=
  _ ← accepted;
  let active :=
    match given task_id with
    | Some task_id =>
        let active :=
          if bool_decide (is_Some (active_connections self !! task_id))
          then active_connections self
          else <[task_id := []]> (active_connections self) in
        <[task_id := default [] (active !! task_id) ++ [websocket]]> active
    | None => active_connections self
    end in
  let users :=
    match given user_id with
    | Some user_id =>
        let users :=
          if bool_decide (is_Some (user_connections self !! user_id))
          then user_connections self
          else <[user_id := []]> (user_connections self) in
        <[user_id := default [] (users !! user_id) ++ [websocket]]> users
    | None => user_connections self
    end in
  Ok {| active_connections := active; user_connections := users |}.

Definition disconnect (websocket : WebSocket) (task_id user_id : option string)
    (self : ConnectionManager) : ConnectionManager :=
  let active :=
    match given task_id with
    | Some task_id =>
        match active_connections self !! task_id with
        | Some connections =>
            let kept := filter (λ ws, ws ≠ websocket) connections in
            if bool_decide (kept = [])
            then delete task_id (active_connections self)
            else <[task_id := kept]> (active_connections self)
        | None => active_connections self
        end
    | None => active_connections self
    end in
  let users :=
    match given user_id with
    | Some user_id =>
        match user_connections self !! user_id with
        | Some connections =>
            let kept := filter (λ ws, ws ≠ websocket) connections in
            if bool_decide (kept = [])
            then delete user_id (user_connections self)
            else <[user_id := kept]> (user_connections self)
        | None => user_connections self
        end
    | None => user_connections self
    end in
  {| active_connections := active; user_connections := users |}.

(** [l.remove(x)]: the first item equal to [x] goes; [ValueError] when there
    is none. *)
Fixpoint remove (x : WebSocket) (l : list WebSocket) : result (list WebSocket) :=
  match l with
  | [] => Raise (Exn ValueError "list.remove(x): x not in list")
  | y :: l' =>
      if decide (y = x) then Ok l'
      else l'' ← remove x l'; Ok (y :: l'')
  end.

Section Send.
Context {Data : Type}.
(** [json.dumps] on the record sent. *)
Variable json_dumps : Data → string.
(** What the i-th [await ws.send_text(message)] of the loop does. *)
Variable send_text : nat → WebSocket → string → result unit.

(** [send_task_update]: the manager afterwards and the sockets the message
    went out on, in order. *)
Definition send_task_update (task_id : string) (data : Data)
    (self : ConnectionManager) : result (ConnectionManager * list WebSocket) :=
  match active_connections self !! task_id with
  | Some connections =>
      let message := json_dumps data in
      let outcomes :=
        imap (λ i ws, (ws, is_ok (send_text i ws message))) connections in
      let dead_connections := fst <$> filter (λ o, snd o = false) outcomes in
      let delivered := fst <$> filter (λ o, snd o = true) outcomes in
      connections ←
        foldl (λ connections ws, l ← connections; remove ws l)
              (Ok connections) dead_connections;
      Ok ({| active_connections :=
               <[task_id := connections]> (active_connections self);
             user_connections := user_connections self |},
          delivered)
  | None => Ok (self, [])
  end.

End Send.

End Manager.

Arguments ConnectionManager : clear implicits.

End WsManager.

(** ** [app/agents/proposal.py]: the sections of a draft

    The block of [generate_node] that follows [call_llm] ("Parse
    sections"); [draft] is the reply. *)

Module Draft.
Import Py.

(** A section, [{"title": ..., "content": ...}]. *)
Record section := {
  title : string;
  content : string;
}.

(** [line.lstrip("#")]. *)
Fixpoint lstrip_hash (s : string) : string :=
  match s with
  | String c s' => if Ascii.eqb c "#" then lstrip_hash s' else s
  | EmptyString => EmptyString
  end.

(** [line.startswith("## ") or line.startswith("# ")]. *)
Definition is_heading (line : string) : bool :=
  String.prefix "## " line || String.prefix "# " line.

Definition parse_sections (draft : string) : list section :=
  let '(sections, current_section) :=
    foldl (λ '(sections, current_section) line,
             if is_heading line then
               (if String.eqb (strip (content current_section)) EmptyString
                then sections
                else sections ++ [current_section],
                {| title := strip (lstrip_hash line); content := EmptyString |})
             else
               (sections,
                {| title := title current_section;
                   content := content current_section +:+ line +:+ nl |}))
          ([], {| title := "Introduction"; content := EmptyString |})
          (split nl draft) in
  if String.eqb (strip (content current_section)) EmptyString
  then sections
  else sections ++ [current_section].

(** What [generate_node] returns on the reply [draft]. *)
Record generate_update := {
  gu_proposal_draft : string;
  gu_proposal_sections : list section;
  gu_current_step : string;
}.

Definition generate_node (draft : string) : generate_update :=
  {| gu_proposal_draft := draft;
     gu_proposal_sections := parse_sections draft;
     gu_current_step := "generate" |}.

End Draft.

(** ** [app/agents/orchestrator.py]: what [run_proposal_flow] saves

    The block after the graph ([if result:]), on the outputs of
    [generate_node] and [comply_node]. *)

Module ProposalSave.
Import Py Json Orchestrator.

(** A row of the table [proposals]. *)
Record ProposalRow := {
  pr_id : string;
  pr_deal_id : string;
  pr_title : string;
  pr_content : string;
  pr_compliance_score : float;
  pr_compliance_notes : json;
  pr_generated_by : string;
  pr_status : string;
}.

(** [f"{x}"] on a string that may be [None]. *)
Definition format_optional (x : option string) : string :=
  default "None" x.

Section Save.
(** [str(uuid.uuid4())]. *)
Variable uuid4 : string.
(** [db.commit()] on the row added. *)
Variable db_commit : ProposalRow → result unit.

(** The row added and the payload of the final record. *)
Definition save_proposal (deal_id : string) (deal : Deal)
    (generate : Draft.generate_update) (comply : Proposal.comply_update)
    : result (ProposalRow * list (string * json)) :=
  let compliance_score := Proposal.cu_compliance_score comply in
  let proposal :=
    {| pr_id := uuid4;
       pr_deal_id := deal_id;
       pr_title := "Proposal - " +:+ format_optional (deal_client_name deal)
                   +:+ " - " +:+ deal_title deal;
       pr_content :=
         match Proposal.cu_final_proposal comply with
         | Some (String c s) => String c s
         | _ => Draft.gu_proposal_draft generate
         end;
       pr_compliance_score := compliance_score;
       pr_compliance_notes := Proposal.cu_compliance_issues comply;
       pr_generated_by := "esshva";
       pr_status := "draft" |} in
  _ ← db_commit proposal;
  Ok (proposal,
      [ ("proposal_id", JStr (pr_id proposal));
        ("compliance_score", JFloat compliance_score) ]).

End Save.

End ProposalSave.

(** ** [app/services/llm.py]: [_strip_think_tags]

    [_THINK_RE] is [<think>[\s\S]*?</think>] with [re.IGNORECASE]; on ASCII
    text a letter matches itself in either case. *)

Module Llm.
Import Py PyStr.

(** What one character of the pattern matches under [re.IGNORECASE]: a
    letter matches both its ASCII cases, and Python's [re] lets "i" also
    match U+0130 and U+0131 (the dotted capital and the dotless small i) and
    "k" the Kelvin sign U+212A; "<", "/" and ">" match themselves only. *)
Definition letter_t : list string := ["t"; "T"].
Definition letter_h : list string := ["h"; "H"].
Definition letter_i : list string := ["i"; "I"; utf8 [196; 176]; utf8 [196; 177]].
Definition letter_n : list string := ["n"; "N"].
Definition letter_k : list string := ["k"; "K"; utf8 [226; 132; 170]].

(** The two ends of [_THINK_RE], [<think>] and [</think>]. *)
Definition opening_tag : list (list string) :=
  [["<"]; letter_t; letter_h; letter_i; letter_n; letter_k; [">"]].

Definition closing_tag : list (list string) :=
  [["<"]; ["/"]; letter_t; letter_h; letter_i; letter_n; letter_k; [">"]].

(** [s] behind a tag it starts with. *)
Fixpoint match_tag (tag : list (list string)) (s : string) : option string :=
  match tag with
  | [] => Some s
  | alternatives :: tag' =>
      match match_any alternatives s with
      | Some rest => match_tag tag' rest
      | None => None
      end
  end.

(** [s] behind the first closing tag in it: where the lazy [[\s\S]*?] of the
    pattern stops. *)
Fixpoint after_closing (s : string) : option string :=
  match match_tag closing_tag s with
  | Some rest => Some rest
  | None =>
      match s with
      | EmptyString => None
      | String _ s' => after_closing s'
      end
  end.

(** [_THINK_RE.sub("", s)]: the text is read from the left; where an opening
    tag is followed, anywhere later, by a closing tag, everything up to the
    end of the first such closing tag is dropped and reading resumes behind
    it. [skip] counts the bytes of a match still to be dropped. *)
Fixpoint sub_think (skip : nat) (s : string) : string :=
  match s with
  | EmptyString => EmptyString
  | String c s' =>
      match skip with
      | S k => sub_think k s'
      | O =>
          match match_tag opening_tag s with
          | Some body =>
              match after_closing body with
              | Some rest =>
                  sub_think (String.length s - String.length rest - 1) s'
              | None => String c (sub_think 0 s')
              end
          | None => String c (sub_think 0 s')
          end
      end
  end.

Definition _strip_think_tags (text : string) : string :=
  strip_unicode (sub_think 0 text).

End Llm.


(** * Vocabulary of the properties and data of the examples *)

Section MonitoringVocabulary.
Import Py Monitoring.

(** A state with the given base score, previous score and sentiment. *)
Definition state_with (base : option Z) (previous : option Z) (sentiment : float)
    : MonitoringState :=
  {| st_deal_data :=
       Some {| dd_title := None; dd_client_name := None;
               dd_health_score := base; dd_previous_health_score := previous |};
     st_recent_communications := None;
     st_sentiment_scores := None;
     st_overall_sentiment := Some sentiment;
     st_health_score := None;
     st_detected_alerts := None |}.

Definition has_type (t : string) (a : alert) : Prop := alert_type a = t.

#[global] Instance has_type_dec t a : Decision (has_type t a).
Proof. unfold has_type. apply _. Defined.

(** How many alerts of type [t] a list holds. *)
Definition count_type (t : string) (alerts : list alert) : nat :=
  length (filter (has_type t) alerts).

(** A score entry one of whose signals mentions a competitor. *)
Definition flagged (score : score_entry) : Prop :=
  existsb mentions_competitor (default [] (sc_signals score)) = true.

(** The competitor rule in the specification's words: the signal contains
    the substring "competitor", the case of each letter ignored. A character
    stands for the lower-case letter [l] when it is [l] itself or its
    upper-case form, 32 code points below. *)
Definition same_letter (c l : ascii) : Prop :=
  c = l ∨ (nat_of_ascii c + 32)%nat = nat_of_ascii l.

Definition spells (word text : string) : Prop :=
  Forall2 same_letter (list_ascii_of_string text) (list_ascii_of_string word).

Definition names_competitor (signal : string) : Prop :=
  ∃ before word after,
    signal = before +:+ word +:+ after ∧ spells "competitor" word.

Definition competitor_alert (score : score_entry) : option alert :=
  (λ signal, {| alert_type := "competitor_mention";
                severity := "medium";
                alert_title := "Competitor mentioned in communications";
                description := signal |})
  <$> List.find mentions_competitor (default [] (sc_signals score)).

Definition calm_state : MonitoringState := state_with None None 0.5.

Definition calm_alert : alert :=
  {| alert_type := "positive_update";
     severity := "info";
     alert_title := "Positive sentiment from client";
     description :=
       "Client communication is positive (sentiment: 0.50). Good relationship signals detected." |}.

(** A calm state in which one score entry holds two signals that name a
    competitor and another entry holds none. *)
Definition rival_state : MonitoringState :=
  {| st_deal_data := None;
     st_recent_communications := None;
     st_sentiment_scores :=
       Some [ {| sc_index := Some 0; sc_sentiment := None;
                 sc_signals := Some [ "asks about delivery dates";
                                      "A COMPETITOR quoted less";
                                      "names the competitor twice" ];
                 sc_summary := None |};
              {| sc_index := Some 1; sc_sentiment := None;
                 sc_signals := Some ["thanks the team"];
                 sc_summary := None |} ];
     st_overall_sentiment := Some 0.5%float;
     st_health_score := Some 70;
     st_detected_alerts := None |}.

Definition one_email : communication :=
  {| c_type := Some "email";
     c_from := Some "cfo@client.example";
     c_subject := Some "Timeline";
     c_date := Some "2026-01-15";
     c_content := Some "We are reconsidering the timeline." |}.

Definition state_with_email : MonitoringState :=
  {| st_deal_data := None;
     st_recent_communications := Some [one_email];
     st_sentiment_scores := None;
     st_overall_sentiment := None;
     st_health_score := None;
     st_detected_alerts := None |}.

(** The reply [{"confidence_score": 7}]. *)
Definition reply_confidence_7 : string :=
  "{" +:+ Reply.dquote +:+ "confidence_score" +:+ Reply.dquote +:+ ": 7}".

End MonitoringVocabulary.

Section MatchingVocabulary.
Import Py Orchestrator.

(** Non-increasing keys. *)
Definition descending {A : Type} (key : A → Z) (l : list A) : Prop :=
  StronglySorted (λ a b, key b ≤ key a) l.

Definition roster_example : list Employee :=
  [ {| emp_id := "e1"; emp_name := "Asha"; emp_role := "Backend Engineer";
       emp_skills := Some ["Python"; "SQL"]; emp_availability_percent := 80;
       emp_hourly_rate := 50 |};
    {| emp_id := "e2"; emp_name := "Ben"; emp_role := "Designer";
       emp_skills := Some ["Figma"]; emp_availability_percent := 120;
       emp_hourly_rate := 40 |} ].

Definition gap_example : gap_analysis :=
  {| strong_areas := Some ["Python services"];
     gap_areas := None;
     ga_resource_estimate := Some {| key_roles := Some ["Lead designer"] |} |}.

(** What a created row owes to the ranked record it comes from. *)
Definition assigned_from (deal_id : string) (a : DealAssignment)
    (staff : staff_match) : Prop :=
  da_deal_id a = deal_id
  ∧ da_assigned_by a = "auto"
  ∧ da_employee_id a = sm_employee_id staff
  ∧ da_allocation_percent a = Z.min (sm_availability_percent staff) 100
  ∧ da_match_score a = Some (sm_match_score staff).

Definition table_example : list DealAssignment :=
  [ {| da_id := "a1"; da_deal_id := "deal-1";
       da_employee_id := "e9";
       da_role_on_deal := Some "Architect";
       da_allocation_percent := 50;
       da_assigned_by := "manual";
       da_match_score := None |};
    {| da_id := "a2"; da_deal_id := "deal-1";
       da_employee_id := "e7";
       da_role_on_deal := Some "Tester";
       da_allocation_percent := 100;
       da_assigned_by := "auto";
       da_match_score := Some 2 |} ].

End MatchingVocabulary.

(** ** Flows *)

Inductive flow := QualificationFlow | ProposalFlow | MonitoringFlow.

Definition flow_name (f : flow) : string :=
  match f with
  | QualificationFlow => "qualification"
  | ProposalFlow => "proposal"
  | MonitoringFlow => "monitoring"
  end.

(** The fixed stage list of each flow type. *)
Definition flow_steps (f : flow) : list string :=
  match f with
  | QualificationFlow => ["ingest"; "extract"; "analyze"; "match"; "decide"]
  | ProposalFlow => ["retrieve"; "generate"; "comply"]
  | MonitoringFlow => ["sentiment"; "health"; "alert"; "recovery"]
  end.

Definition stage_count (f : flow) : Z := Z.of_nat (length (flow_steps f)).

(** The records of a run that carry a stage index and a total. *)
Definition updates_of (store : list Orchestrator.store_entry)
    : list Orchestrator.task_update :=
  omap (λ e, match e with
             | Orchestrator.Posted u => Some u
             | Orchestrator.Initializing _ => None
             end) store.

Section FlowVocabulary.
Import Py Json LangGraph Orchestrator.
Context {State Update : Type}.
Variable merge : State → Update → State.
Variables ingest_node extract_node analyze_node match_node decide_node
  : State → result Update.
Variables retrieve_node generate_node comply_node : State → result Update.
Variables sentiment_node health_node alert_node recovery_node
  : State → result Update.
Variable qualification_state : string → State.
Variable proposal_state : Deal → State.
Variable monitoring_state : Deal → list Monitoring.communication → State.

(** The stage functions of each flow type, in the order of its fixed list. *)
Definition flow_stages (f : flow) : list (State → result Update) :=
  match f with
  | QualificationFlow =>
      [ingest_node; extract_node; analyze_node; match_node; decide_node]
  | ProposalFlow => [retrieve_node; generate_node; comply_node]
  | MonitoringFlow => [sentiment_node; health_node; alert_node; recovery_node]
  end.

(** How many stages of a chain return before one raises, when each stage
    receives the state its predecessors left: the initial state with their
    updates merged in. *)
Fixpoint stages_returning (chain : list (State → result Update)) (state : State)
    : nat :=
  match chain with
  | [] => 0
  | stage :: rest =>
      match stage state with
      | Ok update => S (stages_returning rest (merge state update))
      | Raise _ => 0
      end
  end.

(** What [_run_graph_sync] leaves behind on a chain of [steps]: one record per
    stage that returned, numbered from 1 in stage order, and either the
    outputs of all stages or the exception of the first stage that raised. *)
Definition sync_shape (steps : list string) (total : Z)
    (ran : list task_update * result (list (string * Update))) : Prop :=
  ∃ k : nat,
    map step ran.1 = take k steps
    ∧ map step_number ran.1 = Z.of_nat <$> seq 1 k
    ∧ Forall (λ u, total_steps u = total ∧ status u = "processing") ran.1
    ∧ match ran.2 with
      | Ok accumulated => k = length steps ∧ accumulated ≠ []
      | Raise _ => (k < length steps)%nat
      end.

#[local] Abbreviation run_qualification :=
  (run_qualification_flow merge ingest_node extract_node analyze_node match_node
     decide_node qualification_state).
#[local] Abbreviation run_proposal :=
  (run_proposal_flow merge retrieve_node generate_node comply_node proposal_state).
#[local] Abbreviation run_monitoring :=
  (run_monitoring_flow merge sentiment_node health_node alert_node recovery_node
     monitoring_state).
#[local] Abbreviation run_agent :=
  (run_agent_flow merge ingest_node extract_node analyze_node match_node decide_node
     retrieve_node generate_node comply_node
     sentiment_node health_node alert_node recovery_node
     qualification_state proposal_state monitoring_state).

(** Whether the run gets as far as its graph: the deal exists and, for
    qualification, documents are found and their combined text is not blank;
    for monitoring, some communication was fetched. *)
Definition prerequisites_met (f : flow) (w : @world Update)
    (document_id : option string) : bool :=
  match w_deal w with
  | None => false
  | Some deal =>
      match f with
      | QualificationFlow =>
          let all_docs := gather_documents w document_id in
          negb (bool_decide (all_docs = []))
          && negb (String.eqb (strip (document_text all_docs)) EmptyString)
      | ProposalFlow => true
      | MonitoringFlow =>
          negb (bool_decide ((fetch_communications w deal).1 = []))
      end
  end.

Definition flow_run_of (f : flow) (w : @world Update) (document_id : option string)
    : flow_run :=
  match f with
  | QualificationFlow => run_qualification w document_id
  | ProposalFlow => run_proposal w
  | MonitoringFlow => run_monitoring w
  end.

(** The state a run hands to its graph, when it gets that far. *)
Definition graph_input (f : flow) (w : @world Update) (document_id : option string)
    : option State :=
  match w_deal w with
  | None => None
  | Some deal =>
      match f with
      | QualificationFlow =>
          let all_docs := gather_documents w document_id in
          if bool_decide (all_docs = []) then None
          else
            let doc_text := document_text all_docs in
            if String.eqb (strip doc_text) EmptyString then None
            else Some (qualification_state doc_text)
      | ProposalFlow => Some (proposal_state deal)
      | MonitoringFlow =>
          let real_comms := (fetch_communications w deal).1 in
          if bool_decide (real_comms = []) then None
          else Some (monitoring_state deal real_comms)
      end
  end.

(** No stage of the run raises: if the run gets as far as its graph, each
    stage of the flow returns on the state it receives in this run. Nothing
    is asked of the stages of the other flows, nor of a stage on states the
    run does not pass to it. *)
Definition no_stage_raises (f : flow) (w : @world Update)
    (document_id : option string) : Prop :=
  ∀ initial_state,
    graph_input f w document_id = Some initial_state →
    stages_returning (flow_stages f) initial_state = length (flow_stages f).

(** What holds of the records and stages of every run. *)
Definition run_facts (f : flow) (w : @world Update) (document_id : option string)
    (r : flow_run) : Prop :=
  Forall (λ u, total_steps u = stage_count f) (posted r)
  ∧ (∀ u, last (posted r) = Some u → status u = "completed" →
       step_number u = stage_count f
       ∧ Sorted Z.le (map step_number (posted r)))
  ∧ executed r
    = match graph_input f w document_id with
      | Some initial_state =>
          take (stages_returning (flow_stages f) initial_state) (flow_steps f)
      | None => []
      end.

End FlowVocabulary.

(** ** Concrete runs *)

Section Demo.
Import Py Json Orchestrator.

(** A stage that records its name, as every stage sets ["current_step"]. *)
Definition named_stage (name : string) : list string → result string :=
  λ _, Ok name.


(** A stage that returns on the state a run starts from and raises on every
    other state. *)
Definition picky_stage (name : string) : list string → result string :=
  λ state,
    if bool_decide (state = []) then Ok name
    else Raise (Exn TypeError "'NoneType' object is not iterable").

Definition demo_deal : Deal :=
  {| deal_title := "Data platform";
     deal_client_name := Some "Northwind";
     deal_health_score := Some 70 |}.

Definition demo_document : Document :=
  {| doc_id := "d1";
     doc_extracted_text := Some "The vendor must provide a Python API.";
     doc_category := Some "rfp";
     doc_meta_title := None;
     doc_original_filename := Some "rfp.pdf";
     doc_filename := "1-rfp.pdf" |}.

Definition demo_mailbox : gmail_client :=
  {| search_emails := λ _ _,
       Ok [ {| e_date := Some "2026-01-15T09:30:00";
               e_from := Some "cfo@northwind.example";
               e_subject := Some "Timeline";
               e_preview := Some "We are reconsidering the timeline." |} ] |}.

(** A deal with a document and a mailbox that answers. *)
Definition world_ready : @world string :=
  {| w_deal := Some demo_deal;
     w_all_docs := [demo_document];
     w_find_document := λ _, None;
     w_oauth := Some "user-1";
     w_get_gmail_client := λ _, Ok (Some demo_mailbox);
     w_after_filter := "2026/01/08";
     w_save_qualification := λ _, Ok [];
     w_save_proposal := λ _, Ok [];
     w_save_monitoring := λ _, Ok [] |}.

(** The same deal with no Google account connected. *)
Definition world_no_mail : @world string :=
  {| w_deal := Some demo_deal;
     w_all_docs := [demo_document];
     w_find_document := λ _, None;
     w_oauth := None;
     w_get_gmail_client := λ _, Ok None;
     w_after_filter := "2026/01/08";
     w_save_qualification := λ _, Ok [];
     w_save_proposal := λ _, Ok [];
     w_save_monitoring := λ _, Ok [] |}.

Definition demo_run (sentiment : list string → result string)
    (w : @world string) (flow_type : string) : agent_run :=
  run_agent_flow (λ state update, state ++ [update])
    (named_stage "ingest") (named_stage "extract") (named_stage "analyze")
    (named_stage "match") (named_stage "decide")
    (named_stage "retrieve") (named_stage "generate") (named_stage "comply")
    sentiment (named_stage "health") (named_stage "alert")
    (named_stage "recovery")
    (λ _, []) (λ _, []) (λ _ _, [])
    w flow_type None.

End Demo.

(** ** Vocabulary of the further properties *)

(** A string made of white space only. *)
Fixpoint all_space (s : string) : bool :=
  match s with
  | EmptyString => true
  | String c s' => Py.isspace c && all_space s'
  end.

(** The final record of a run: completed with the total as stage index, or
    failed with stage index 0. *)
Definition terminal (u : Orchestrator.task_update) : Prop :=
  (Orchestrator.status u = "completed"
   ∧ Orchestrator.step u = "complete"
   ∧ Orchestrator.step_number u = Orchestrator.total_steps u
   ∧ 1 ≤ Orchestrator.total_steps u)
  ∨ (Orchestrator.status u = "failed"
     ∧ Orchestrator.step u = "error"
     ∧ Orchestrator.step_number u = 0
     ∧ 0 ≤ Orchestrator.total_steps u).

(** A record written while the stages run. *)
Definition in_progress (u : Orchestrator.task_update) : Prop :=
  Orchestrator.status u = "processing"
  ∧ 1 ≤ Orchestrator.step_number u ≤ Orchestrator.total_steps u.

(** A run ends in a terminal record, all records before it being in
    progress. *)
Definition ends_terminal (r : Orchestrator.flow_run) : Prop :=
  ∃ before final,
    Orchestrator.posted r = before ++ [final]
    ∧ Forall in_progress before ∧ terminal final.

(** The task entry and the task store after a proposal run of the demo
    world. *)
Definition demo_tasks : gmap string AgentsRouter.agent_task :=
  {[ "t1" :=
       AgentsRouter.run_agent_task_async
         (AgentsRouter.queued_task "t1" "deal-1" "proposal" "2026-01-15T09:00:00")
         (Py.Ok (demo_run (named_stage "sentiment") world_ready "proposal"))
         "2026-01-15T09:00:01" "2026-01-15T09:00:09" ]}.

Definition demo_store : gmap string Orchestrator.store_entry :=
  match last (Orchestrator.store
                (demo_run (named_stage "sentiment") world_ready "proposal")) with
  | Some entry => {[ "t1" := entry ]}
  | None => ∅
  end.

(** A string with a white-space character in it. *)
Fixpoint has_space (s : string) : bool :=
  match s with
  | EmptyString => false
  | String c s' => Py.isspace c || has_space s'
  end.

(** A roster with a three-letter skill and a two-word skill, and requirements
    whose categories name them. *)
Definition roster_short : list Orchestrator.Employee :=
  [ {| Orchestrator.emp_id := "e1"; Orchestrator.emp_name := "Asha";
       Orchestrator.emp_role := "Engineer";
       Orchestrator.emp_skills := Some ["SQL"; "Machine Learning"];
       Orchestrator.emp_availability_percent := 80;
       Orchestrator.emp_hourly_rate := 50 |} ].

Definition requirements_short : list Orchestrator.extracted_requirement :=
  [ {| Orchestrator.er_category := Some "SQL";
       Orchestrator.er_text := Some "Reports need SQL and machine learning" |} ].

Definition no_gap : Orchestrator.gap_analysis :=
  {| Orchestrator.strong_areas := None;
     Orchestrator.gap_areas := None;
     Orchestrator.ga_resource_estimate := None |}.

(** The outputs of a monitoring run on one worried email: sentiment -0.5,
    health 62, and a recovery email with a subject line. *)
Definition worried_state : Monitoring.MonitoringState :=
  {| Monitoring.st_deal_data :=
       Some {| Monitoring.dd_title := Some "Data platform";
               Monitoring.dd_client_name := Some "Northwind";
               Monitoring.dd_health_score := Some 70;
               Monitoring.dd_previous_health_score := None |};
     Monitoring.st_recent_communications := Some [one_email];
     Monitoring.st_sentiment_scores := Some [];
     Monitoring.st_overall_sentiment := Some (-0.5)%float;
     Monitoring.st_health_score := Some 62;
     Monitoring.st_detected_alerts := None |}.

Definition worried_sentiment : Monitoring.sentiment_update :=
  {| Monitoring.su_sentiment_scores := Json.JArr [];
     Monitoring.su_overall_sentiment := Json.JFloat (-0.5);
     Monitoring.su_current_step := "sentiment" |}.

Definition worried_health : Monitoring.health_update :=
  {| Monitoring.hu_health_score := 62;
     Monitoring.hu_trend := Monitoring.down;
     Monitoring.hu_current_step := "health" |}.

Definition worried_recovery : Monitoring.recovery_update :=
  {| Monitoring.ru_recovery_email :=
       Json.JStr ("Subject: Re: Timeline" +:+ Py.nl +:+ Py.nl
                  +:+ "Dear Sam," +:+ Py.nl +:+ "we hear you.");
     Monitoring.ru_recovery_actions :=
       Json.JArr [Json.JStr "Call the client"; Json.JStr "Review the plan"];
     Monitoring.ru_current_step := "recovery" |}.

(** The block of a monitoring run with a database that commits and a
    WhatsApp sender that is not configured. *)
Definition demo_save (alert : Monitoring.alert_update)
    : Py.result MonitoringSave.saved :=
  MonitoringSave.save_monitoring (λ n, "row-" +:+ pretty n) (λ _, "[...]")
    (λ _ _, Py.Ok ())
    (λ _, Py.Ok (WhatsApp.WaError "TWILIO_WHATSAPP_FROM not configured in .env"))
    "deal-1" demo_deal [one_email]
    worried_sentiment worried_health alert worried_recovery.

(** A string with the character [c] in it. *)
Fixpoint has_char (c : ascii) (s : string) : bool :=
  match s with
  | EmptyString => false
  | String d s' => Ascii.eqb c d || has_char c s'
  end.

(** The line feed. *)
Definition newline : ascii := ascii_of_nat 10.

(** The raw date of a fetched email, and the communication made of it. *)
Definition raw_date (e : Orchestrator.email) : string :=
  default EmptyString (Orchestrator.e_date e).

Definition communication_of (e : Orchestrator.email) : Monitoring.communication :=
  {| Monitoring.c_type := Some "email";
     Monitoring.c_from := Some (default EmptyString (Orchestrator.e_from e));
     Monitoring.c_subject := Some (default EmptyString (Orchestrator.e_subject e));
     Monitoring.c_date := Some (String.substring 0 10 (raw_date e));
     Monitoring.c_content := Some (default EmptyString (Orchestrator.e_preview e)) |}.

(** The backtick. *)
Definition backtick : ascii := "`"%char.

(** A text in which the tag occurs, in any of the forms the pattern
    matches. *)
Fixpoint has_tag (tag : list (list string)) (s : string) : bool :=
  match Llm.match_tag tag s with
  | Some _ => true
  | None =>
      match s with
      | EmptyString => false
      | String _ s' => has_tag tag s'
      end
  end.

(** Alternatives none of which is the beginning of another. *)
Definition distinct_starts (alternatives : list string) : bool :=
  forallb (λ a, forallb (λ b, String.eqb a b || negb (String.prefix a b))
                        alternatives)
          alternatives.

(** The opening tag written with the dotless i, the closing tag with the
    Kelvin sign. *)
Definition opening_dotless : string := "<Th" +:+ PyStr.utf8 [196; 177] +:+ "nk>".
Definition closing_kelvin : string := "</THIN" +:+ PyStr.utf8 [226; 132; 170] +:+ ">".


(** * Properties *)

(** ** Sanity checks of the Python primitives *)

Example split_on_fence :
  Py.split "```" "a```b```" = ["a"; "b"; EmptyString].
Proof. reflexivity. Qed.

Example split_ws_runs :
  Py.split_ws "  Senior  Data Engineer " = ["Senior"; "Data"; "Engineer"].
Proof. reflexivity. Qed.

Example strip_both_ends : Py.strip "  [ ] " = "[ ]".
Proof. reflexivity. Qed.

Example int_truncates :
  Py.int_of_float (0.4 * 15)%float = Py.Ok 6 ∧
  Py.int_of_float (-0.5 * 15)%float = Py.Ok (-7) ∧
  Py.floor_of_float (-0.5 * 15)%float = Py.Ok (-8) ∧
  Py.float_of_int 7 = Py.Ok 7%float.
Proof. repeat split; reflexivity. Qed.

Example search_object_greedy :
  Reply.search_object "abc" "xx { abc } }yy" = Some "{ abc } }" ∧
  Reply.search_object "abc" "xx { ab } }yy abc" = None.
Proof. split; reflexivity. Qed.

Example loads_fragment :
  JsonText.loads " [1, -2 , [ ], {}] "
  = Py.Ok (Json.JArr [Json.JInt 1; Json.JInt (-2); Json.JArr []; Json.JObj []]) ∧
  Py.is_ok (JsonText.loads "Sure, here is the analysis") = false.
Proof. split; reflexivity. Qed.

(** ** Floats *)

Section FloatFacts.
Import Py.

Lemma zero_is_zero : Prim2SF 0%float = S754_zero false.
Proof. reflexivity. Qed.

(** [int] truncates toward zero: it is the floor of a product that is not
    negative and the ceiling (minus the floor of the opposite) of a negative
    one. *)
Lemma int_of_float_trunc (f : float) :
  int_of_float f =
  if (f <? 0)%float
  then z ← floor_of_float (- f)%float; Ok (- z)
  else floor_of_float f.
Proof.
  unfold int_of_float, floor_of_float.
  rewrite ltb_spec, opp_spec, zero_is_zero.
  destruct (Prim2SF f) as [s|s| |s m e]; simpl.
  - reflexivity.
  - destruct s; reflexivity.
  - reflexivity.
  - destruct s; simpl.
    + destruct e as [|p|p]; cbn [Z.opp]; f_equal.
      * rewrite Z.shiftl_mul_pow2 by lia. lia.
      * rewrite Z.shiftl_mul_pow2 by lia. lia.
      * rewrite Z.shiftr_div_pow2 by lia. reflexivity.
    + destruct e as [|p|p]; f_equal.
      * rewrite Z.shiftl_mul_pow2 by lia. reflexivity.
      * rewrite Z.shiftl_mul_pow2 by lia. reflexivity.
      * rewrite Z.shiftr_div_pow2 by lia. reflexivity.
Qed.

Lemma ltb_leb (x y : float) : (x <? y)%float = true → (x <=? y)%float = true.
Proof.
  rewrite ltb_spec, leb_spec. unfold SFltb, SFleb.
  destruct (SFcompare _ _) as [[]|]; congruence.
Qed.

(** [max(0.0, min(1.0, x))] lies in [0, 1] for every float, NaN included. *)
Lemma clamp_unit (x : float) :
  (0 <=? fmax 0 (fmin 1 x))%float = true ∧ (fmax 0 (fmin 1 x) <=? 1)%float = true.
Proof.
  unfold fmax, fmin.
  destruct (x <? 1)%float eqn:Hx.
  - destruct (0 <? x)%float eqn:H0.
    + split; [by apply ltb_leb | by apply ltb_leb].
    + split; reflexivity.
  - split; reflexivity.
Qed.

End FloatFacts.

(** ** The health stage *)

Section HealthStage.
Import Py Monitoring.

(** C3, as stated, fails: with base score 70 and sentiment -0.5 the product
    is -7.5, whose floor is -8 (health 62), while [health_node] adds
    [int(-7.5) = -7] and returns 63. *)
Lemma health_floor_counterexample :
  health_node (state_with (Some 70) None (-0.5))
  = Ok {| hu_health_score := 63; hu_trend := down; hu_current_step := "health" |}
  ∧ spec_health_score 70 (-0.5) = Ok 62.
Proof. split; reflexivity. Qed.

(** C3, amended: the new health score is the base score plus the product
    sentiment*15 truncated toward zero (its floor when the product is not
    negative, its ceiling when it is), clamped into [0,100]; the stage raises
    exactly when the product is NaN or infinite. The trend is up exactly when
    the new score exceeds the previous one by more than 5, down exactly when
    it is more than 5 below, stable otherwise. Base score 70 with sentiment
    0.4 gives adjustment 6, health 76 and trend up. *)
Theorem health_node_truncates_and_classifies (state : MonitoringState) :
  let deal := default empty_deal_data (st_deal_data state) in
  let base := default 70 (dd_health_score deal) in
  let previous := default base (dd_previous_health_score deal) in
  let product := (default 0 (st_overall_sentiment state) * 15)%float in
  let adjustment :=
    if (product <? 0)%float
    then z ← floor_of_float (- product)%float; Ok (- z)
    else floor_of_float product in
  match adjustment with
  | Raise e => health_node state = Raise e
  | Ok adj =>
      ∃ u, health_node state = Ok u
        ∧ hu_health_score u = Z.max 0 (Z.min 100 (base + adj))
        ∧ 0 ≤ hu_health_score u ≤ 100
        ∧ (hu_trend u = up ↔ previous + 5 < hu_health_score u)
        ∧ (hu_trend u = down ↔ hu_health_score u < previous - 5)
        ∧ (hu_trend u = stable ↔
             previous - 5 ≤ hu_health_score u ≤ previous + 5)
        ∧ hu_current_step u = "health"
  end
  ∧ int_of_float (0.4 * 15)%float = Ok 6
  ∧ health_node (state_with (Some 70) None 0.4)
    = Ok {| hu_health_score := 76; hu_trend := up; hu_current_step := "health" |}.
Proof.
  intros deal base previous product adjustment.
  split; [|split; reflexivity].
  pose proof (int_of_float_trunc product) as Htrunc.
  fold adjustment in Htrunc.
  unfold health_node. fold deal base product. rewrite Htrunc.
  destruct adjustment as [adj|e]; simpl; [|reflexivity].
  fold previous.
  set (h := Z.max 0 (Z.min 100 (base + adj))).
  eexists. split; [reflexivity|]. simpl.
  assert (0 ≤ h ≤ 100) by (unfold h; lia).
  split; [reflexivity|]. split; [assumption|].
  destruct (previous + 5 <? h) eqn:Hup;
    [apply Z.ltb_lt in Hup | apply Z.ltb_ge in Hup].
  - repeat split; intros; try done; lia.
  - destruct (h <? previous - 5) eqn:Hdown;
      [apply Z.ltb_lt in Hdown | apply Z.ltb_ge in Hdown].
    + repeat split; intros; try done; lia.
    + repeat split; intros; try done; lia.
Qed.

End HealthStage.

(** ** The alert stage *)

(** The competitor test of the stage against the words of the rule. *)

Section CompetitorTest.
Import Py Monitoring.
#[local] Arguments append _ _ : simpl nomatch.

Lemma prefix_iff_append (sub s : string) :
  String.prefix sub s = true ↔ ∃ rest, s = sub +:+ rest.
Proof.
  revert s. induction sub as [|c sub IH]; intros s.
  - split; [intros _; by exists s | by destruct s].
  - destruct s as [|d s]; cbn [String.prefix].
    + split; [done | by intros [? ?]].
    + destruct (ascii_dec c d) as [->|Hne].
      * rewrite IH. split; intros [rest Hrest]; exists rest.
        -- change (String d sub +:+ rest) with (String d (sub +:+ rest)). by rewrite Hrest.
        -- change (String d sub +:+ rest) with (String d (sub +:+ rest)) in Hrest.
           congruence.
      * split; [done|]. intros [rest Hrest].
        change (String c sub +:+ rest) with (String c (sub +:+ rest)) in Hrest.
        congruence.
Qed.

Lemma contains_iff_append (sub s : string) :
  contains sub s = true ↔ ∃ before rest, s = before +:+ sub +:+ rest.
Proof.
  induction s as [|d s IH]; cbn [contains].
  - rewrite orb_false_r, prefix_iff_append. split.
    + intros [rest Hrest]. by exists EmptyString, rest.
    + intros (before & rest & Hs). destruct before; [by exists rest|discriminate].
  - rewrite orb_true_iff, prefix_iff_append, IH. split.
    + intros [[rest Hrest]|(before & rest & Hs)].
      * by exists EmptyString, rest.
      * exists (String d before), rest.
        change (String d before +:+ sub +:+ rest)
          with (String d (before +:+ sub +:+ rest)). by rewrite Hs.
    + intros (before & rest & Hs). destruct before as [|b before].
      * left. by exists rest.
      * right. exists before, rest.
        change (String b before +:+ sub +:+ rest)
          with (String b (before +:+ sub +:+ rest)) in Hs. congruence.
Qed.

Lemma lower_of_append (s t : string) : lower (s +:+ t) = lower s +:+ lower t.
Proof.
  induction s as [|c s IH]; [done|].
  change (String c s +:+ t) with (String c (s +:+ t)). cbn [lower].
  rewrite IH. reflexivity.
Qed.

Lemma lower_append_inv (s a b : string) :
  lower s = a +:+ b → ∃ x y, s = x +:+ y ∧ lower x = a ∧ lower y = b.
Proof.
  revert s. induction a as [|c a IH]; intros s Hs.
  - by exists EmptyString, s.
  - destruct s as [|d s]; [discriminate|].
    change (String c a +:+ b) with (String c (a +:+ b)) in Hs.
    cbn [lower] in Hs. injection Hs as Hc Hs.
    destruct (IH s Hs) as (x & y & -> & Hx & Hy).
    exists (String d x), y. cbn [lower]. by rewrite Hc, Hx.
Qed.

(** [lower_char] sends to a lower-case letter that letter and its upper-case
    form, nothing else. *)
Lemma lower_char_letter (c l : ascii) :
  (97 ≤ nat_of_ascii l ≤ 122)%nat →
  lower_char c = l ↔ same_letter c l.
Proof.
  intros Hl. unfold lower_char, same_letter.
  pose proof (nat_ascii_bounded c) as Hc.
  destruct ((65 <=? nat_of_ascii c) && (nat_of_ascii c <=? 90))%nat eqn:Hup.
  - apply andb_true_iff in Hup as [H1%Nat.leb_le H2%Nat.leb_le].
    split.
    + intros <-. right. rewrite nat_ascii_embedding; lia.
    + intros [->|Heq]; [lia|].
      rewrite Heq. apply ascii_nat_embedding.
  - split; [by left|]. intros [Heq|Heq]; [done|].
    apply andb_false_iff in Hup as [H%Nat.leb_gt|H%Nat.leb_gt]; lia.
Qed.

Lemma lower_spells (word text : string) :
  Forall (λ l, 97 ≤ nat_of_ascii l ≤ 122)%nat (list_ascii_of_string word) →
  lower text = word ↔ spells word text.
Proof.
  unfold spells. revert text. induction word as [|l word IH]; intros text Hword.
  - destruct text; simpl; split; try done; inversion 1.
  - simpl in Hword. apply Forall_cons in Hword as [Hl Hword].
    destruct text as [|c text]; simpl.
    + split; [done | inversion 1].
    + split.
      * intros [= Hc Ht]. constructor; [by apply lower_char_letter | by apply IH].
      * inversion 1 as [|? ? ? ? Hc Ht]; subst.
        f_equal; [by apply lower_char_letter | by apply IH].
Qed.

(** The test of the stage is the specification's: the signal contains
    "competitor" with the case of each letter ignored. *)
Lemma mentions_iff_names (signal : string) :
  mentions_competitor signal = true ↔ names_competitor signal.
Proof.
  assert (Hword : Forall (λ l, 97 ≤ nat_of_ascii l ≤ 122)%nat
                    (list_ascii_of_string "competitor"))
    by (repeat constructor; vm_compute; lia).
  unfold mentions_competitor, names_competitor.
  rewrite contains_iff_append. split.
  - intros (before & rest & Hs).
    apply lower_append_inv in Hs as (x & y & -> & Hx & Hy).
    apply lower_append_inv in Hy as (word & after & -> & Hw & _).
    exists x, word, after. split; [done|]. by apply lower_spells.
  - intros (before & word & after & -> & Hw).
    apply lower_spells in Hw; [|exact Hword].
    exists (lower before), (lower after).
    by rewrite !lower_of_append, Hw.
Qed.
End CompetitorTest.

Section AlertStage.
Import Py Monitoring.
Variable format_2f : float -> string.

Lemma foldl_competitor (init : list alert) (scores : list score_entry) :
  foldl (λ alerts score,
           match List.find mentions_competitor (default [] (sc_signals score)) with
           | Some signal =>
               alerts ++ [ {| alert_type := "competitor_mention";
                              severity := "medium";
                              alert_title := "Competitor mentioned in communications";
                              description := signal |} ]
           | None => alerts
           end) init scores
  = init ++ omap competitor_alert scores.
Proof.
  revert init. induction scores as [|score scores IH]; intros init; simpl.
  - by rewrite app_nil_r.
  - rewrite IH. unfold competitor_alert at 2.
    destruct (List.find _ _); simpl; [by rewrite <- app_assoc | done].
Qed.

Lemma find_existsb {A} (p : A → bool) (l : list A) :
  is_Some (List.find p l) ↔ existsb p l = true.
Proof.
  induction l as [|x l IH]; simpl.
  - split; [intros [? ?]; done | done].
  - destruct (p x); simpl; [split; eauto | exact IH].
Qed.

Lemma competitor_alerts_length (scores : list score_entry) :
  length (omap competitor_alert scores) = length (filter flagged scores).
Proof.
  induction scores as [|score scores IH]; [done|].
  rewrite filter_cons. cbn [omap list_omap].
  pose proof (find_existsb mentions_competitor (default [] (sc_signals score))) as Hf.
  unfold competitor_alert at 1, flagged at 1.
  destruct (List.find mentions_competitor (default [] (sc_signals score))) as [signal|].
  - rewrite decide_True by (apply Hf; eauto). simpl. by rewrite IH.
  - rewrite decide_False; [exact IH|].
    intros Hex. apply Hf in Hex. by destruct Hex.
Qed.

Lemma competitor_alerts_shape (scores : list score_entry) :
  Forall (λ a, alert_type a = "competitor_mention" ∧ severity a = "medium")
         (omap competitor_alert scores).
Proof.
  induction scores as [|score scores IH]; [constructor|].
  cbn [omap list_omap]. unfold competitor_alert at 1.
  destruct (List.find mentions_competitor (default [] (sc_signals score)));
    simpl; [constructor; [done | exact IH] | exact IH].
Qed.

Lemma count_all (t : string) (l : list alert) :
  Forall (has_type t) l → count_type t l = length l.
Proof.
  unfold count_type. induction 1 as [|a l Ha _ IH]; [done|].
  rewrite filter_cons, decide_True by done. simpl. by rewrite IH.
Qed.

Lemma count_none (t t' : string) (l : list alert) :
  t ≠ t' → Forall (has_type t') l → count_type t l = 0%nat.
Proof.
  intros Hne. unfold count_type. induction 1 as [|a l Ha _ IH]; [done|].
  rewrite filter_cons, decide_False; [exact IH|].
  unfold has_type in *. congruence.
Qed.

Lemma count_one_eq (t : string) (a : alert) :
  alert_type a = t → count_type t [a] = 1%nat.
Proof.
  intros H. unfold count_type. by rewrite filter_cons, decide_True.
Qed.

Lemma count_one_ne (t : string) (a : alert) :
  alert_type a ≠ t → count_type t [a] = 0%nat.
Proof.
  intros H. unfold count_type. by rewrite filter_cons, decide_False.
Qed.

Lemma count_nil (t : string) : count_type t [] = 0%nat.
Proof. reflexivity. Qed.

Lemma count_app (t : string) (l k : list alert) :
  count_type t (l ++ k) = (count_type t l + count_type t k)%nat.
Proof. unfold count_type. by rewrite filter_app, length_app. Qed.

(** The alerts of the stage, in the order they are appended. *)
Lemma alert_node_parts (state : MonitoringState) :
  let sentiment := default 0%float (st_overall_sentiment state) in
  let health := default 70 (st_health_score state) in
  let scores := default [] (st_sentiment_scores state) in
  ∃ drop risk positive,
    au_detected_alerts (alert_node format_2f state)
    = drop ++ risk ++ omap competitor_alert scores ++ positive
    ∧ (if (sentiment <? -0.3)%float
       then ∃ a, drop = [a] ∧ alert_type a = "sentiment_drop"
                 ∧ severity a = if (sentiment <? -0.6)%float then "critical" else "high"
       else drop = [])
    ∧ (if health <? 50
       then ∃ a, risk = [a] ∧ alert_type a = "deadline_risk" ∧ severity a = "high"
       else risk = [])
    ∧ (if bool_decide (drop ++ risk ++ omap competitor_alert scores = [])
          && (0.2 <? sentiment)%float
       then ∃ a, positive = [a] ∧ alert_type a = "positive_update"
                 ∧ severity a = "info"
       else positive = []).
Proof.
  intros sentiment health scores.
  unfold alert_node. fold sentiment health scores.
  rewrite foldl_competitor. simpl.
  set (comp := omap competitor_alert scores).
  destruct (sentiment <? -0.3)%float eqn:Hs;
    destruct (health <? 50) eqn:Hh; simpl.
  - eexists [_], [_], []. simpl. rewrite app_nil_r.
    split; [reflexivity|]. split; [eauto|]. split; [eauto|]. done.
  - eexists [_], [], []. simpl. rewrite app_nil_r.
    split; [reflexivity|]. split; [eauto|]. split; [done|]. done.
  - eexists [], [_], []. simpl. rewrite app_nil_r.
    split; [reflexivity|]. split; [done|]. split; [eauto|]. done.
  - destruct (bool_decide (comp = []) && (0.2 <? sentiment)%float) eqn:Hp.
    + eexists [], [], [_]. simpl. rewrite Hp.
      split; [reflexivity|]. split; [done|]. split; [done|]. eauto.
    + eexists [], [], []. simpl. rewrite app_nil_r, Hp.
      split; [reflexivity|]. done.
Qed.

(** The alerts of the stage counted by type, with the severity of each
    type. *)
Lemma alert_node_counts (state : MonitoringState) :
  let sentiment := default 0%float (st_overall_sentiment state) in
  let health := default 70 (st_health_score state) in
  let scores := default [] (st_sentiment_scores state) in
  let alerts := au_detected_alerts (alert_node format_2f state) in
  count_type "sentiment_drop" alerts
    = (if (sentiment <? -0.3)%float then 1 else 0)%nat
  ∧ Forall (λ a, alert_type a = "sentiment_drop" →
                 severity a = if (sentiment <? -0.6)%float then "critical" else "high")
           alerts
  ∧ count_type "deadline_risk" alerts = (if health <? 50 then 1%nat else 0%nat)
  ∧ Forall (λ a, alert_type a = "deadline_risk" → severity a = "high") alerts
  ∧ count_type "competitor_mention" alerts = length (filter flagged scores)
  ∧ Forall (λ a, alert_type a = "competitor_mention" → severity a = "medium") alerts
  ∧ count_type "positive_update" alerts
    = (if negb (sentiment <? -0.3)%float && negb (health <? 50)
          && bool_decide (filter flagged scores = [])
          && (0.2 <? sentiment)%float
       then 1%nat else 0%nat)
  ∧ Forall (λ a, alert_type a = "positive_update" → severity a = "info") alerts
  ∧ length alerts
    = (count_type "sentiment_drop" alerts + count_type "deadline_risk" alerts
       + count_type "competitor_mention" alerts
       + count_type "positive_update" alerts)%nat
  ∧ au_current_step (alert_node format_2f state) = "alert".
Proof.
  intros sentiment health scores alerts.
  destruct (alert_node_parts state) as (drop & risk & positive & Heq & Hd & Hr & Hp).
  fold sentiment health scores alerts in Heq, Hd, Hr, Hp.
  pose proof (competitor_alerts_length scores) as Hlen.
  pose proof (competitor_alerts_shape scores) as Hshape.
  set (comp := omap competitor_alert scores) in *.
  assert (Hcomp : Forall (has_type "competitor_mention") comp)
    by (eapply Forall_impl; [exact Hshape | by intros a [? _]]).
  assert (Hcomp_empty : bool_decide (filter flagged scores = []) = bool_decide (comp = [])).
  { apply bool_decide_ext. rewrite <- !length_zero_iff_nil. by rewrite Hlen. }
  assert (Hsev : ∀ t v, t ≠ "competitor_mention" →
            Forall (λ a, alert_type a = t → severity a = v) comp).
  { intros t v Hne. eapply Forall_impl; [exact Hshape|].
    intros a [Ht _] Ht'. congruence. }
  assert (Hmed : Forall (λ a, alert_type a = "competitor_mention" → severity a = "medium") comp).
  { eapply Forall_impl; [exact Hshape|]. by intros a [_ ?]. }
  assert (Hcount : ∀ t, count_type t alerts
            = (count_type t drop + count_type t risk + count_type t comp
               + count_type t positive)%nat).
  { intros t. rewrite Heq, !count_app. lia. }
  assert (Hall : ∀ P : alert → Prop,
            Forall P drop → Forall P risk → Forall P comp → Forall P positive →
            Forall P alerts).
  { intros P ? ? ? ?. rewrite Heq, !Forall_app. done. }
  rewrite !Hcount, Hcomp_empty.
  rewrite (count_all "competitor_mention" comp Hcomp).
  rewrite (count_none "sentiment_drop" "competitor_mention" comp),
    (count_none "deadline_risk" "competitor_mention" comp),
    (count_none "positive_update" "competitor_mention" comp) by done.
  rewrite <- Hlen.
  assert (Hlength : length alerts
            = (length drop + length risk + length comp + length positive)%nat).
  { rewrite Heq, !length_app. lia. }
  rewrite Hlength. clear Hcount Hlength Heq.
  destruct (sentiment <? -0.3)%float;
    [destruct Hd as (d & -> & Hdt & Hds)|subst drop];
    (destruct (health <? 50);
     [destruct Hr as (r & -> & Hrt & Hrs)|subst risk]);
    simpl in Hp; cbn [negb andb];
    try (destruct (bool_decide (comp = []) && (0.2 <? sentiment)%float);
         [destruct Hp as (p & -> & Hpt & Hps)|]);
    subst;
    rewrite ?count_nil;
    repeat match goal with
           | H : alert_type ?a = ?t |- context [count_type ?t' [?a]] =>
               first [ rewrite (count_one_eq t' a H)
                     | rewrite (count_one_ne t' a) by (rewrite H; done) ]
           end;
    simpl;
    (repeat split; try reflexivity; try lia);
    apply Hall;
    repeat match goal with
           | |- Forall _ [] => constructor
           | |- Forall _ (_ :: _) => constructor
           | |- Forall _ comp => first [exact Hmed | apply Hsev; done]
           | |- _ → _ => intros; congruence
           end.
Qed.

Lemma flagged_iff_names (score : score_entry) :
  flagged score
  ↔ ∃ signal, signal ∈ default [] (sc_signals score) ∧ names_competitor signal.
Proof.
  unfold flagged. rewrite existsb_exists.
  split; intros (signal & Hin & Hs); exists signal.
  - by rewrite list_elem_of_In, <- mentions_iff_names.
  - by rewrite <- list_elem_of_In, mentions_iff_names.
Qed.

Lemma competitor_alerts_signal (scores : list score_entry) :
  Forall (λ a, ∃ score, score ∈ scores
                        ∧ description a ∈ default [] (sc_signals score)
                        ∧ names_competitor (description a))
         (omap competitor_alert scores).
Proof.
  apply Forall_forall. intros a (score & Hscore & Ha)%list_elem_of_omap.
  unfold competitor_alert in Ha.
  destruct (List.find _ _) as [signal|] eqn:Hfind; [|discriminate].
  apply find_some in Hfind as [Hin Hs]. injection Ha as <-. simpl.
  exists score. split; [done|]. split; [by apply list_elem_of_In|].
  by apply mentions_iff_names.
Qed.

Lemma typed_alert_exists (t : string) (alerts : list alert) :
  (∃ a, a ∈ alerts ∧ alert_type a = t) ↔ count_type t alerts ≠ 0%nat.
Proof.
  unfold count_type. rewrite length_zero_iff_nil. split.
  - intros (a & Hin & Ht) Hnil.
    assert (Ha : a ∈ filter (has_type t) alerts) by (by apply list_elem_of_filter).
    rewrite Hnil in Ha. by apply elem_of_nil in Ha.
  - intros Hne. destruct (filter (has_type t) alerts) as [|a l] eqn:Hf; [done|].
    assert (Ha : a ∈ filter (has_type t) alerts) by (rewrite Hf; left).
    apply list_elem_of_filter in Ha as [Ht Hin]. by exists a.
Qed.

Lemma flagged_exists (scores : list score_entry) :
  length (filter flagged scores) ≠ 0%nat
  ↔ ∃ score signal, score ∈ scores ∧ signal ∈ default [] (sc_signals score)
                    ∧ names_competitor signal.
Proof.
  rewrite length_zero_iff_nil. split.
  - intros Hne. destruct (filter flagged scores) as [|score l] eqn:Hf; [done|].
    assert (Hin : score ∈ filter flagged scores) by (rewrite Hf; left).
    apply list_elem_of_filter in Hin as [Hflag Hin].
    apply flagged_iff_names in Hflag as (signal & ? & ?). by exists score, signal.
  - intros (score & signal & Hin & Hs & Hn) Hnil.
    assert (H : score ∈ filter flagged scores).
    { apply list_elem_of_filter. split; [|done]. apply flagged_iff_names. eauto. }
    rewrite Hnil in H. by apply elem_of_nil in H.
Qed.

(** C4: the alert stage derives its alerts from the fixed thresholds.
    Sentiment below -0.3 gives exactly one [sentiment_drop] alert, critical
    below -0.6 and high otherwise; health below 50 gives one [deadline_risk]
    alert at high; a signal that contains "competitor", the case of its
    letters ignored, gives a [competitor_mention] alert at medium: there is
    such an alert exactly when some signal of some score entry contains the
    word, one for each entry that holds such a signal (the loop leaves an
    entry at its first one), and each carries as description a signal of its
    entry that contains the word; when none of those alerts was produced and
    sentiment exceeds 0.2 there is exactly one [positive_update] alert at
    info; and there are no other alerts. The state is one whose score
    entries carry their signals as a list of strings, as the sentiment
    prompt asks for. *)
Theorem alert_node_thresholds (state : MonitoringState) :
  let sentiment := default 0%float (st_overall_sentiment state) in
  let health := default 70 (st_health_score state) in
  let scores := default [] (st_sentiment_scores state) in
  let alerts := au_detected_alerts (alert_node format_2f state) in
  count_type "sentiment_drop" alerts
    = (if (sentiment <? -0.3)%float then 1 else 0)%nat
  ∧ Forall (λ a, alert_type a = "sentiment_drop" →
                 severity a = if (sentiment <? -0.6)%float then "critical" else "high")
           alerts
  ∧ count_type "deadline_risk" alerts = (if health <? 50 then 1%nat else 0%nat)
  ∧ Forall (λ a, alert_type a = "deadline_risk" → severity a = "high") alerts
  ∧ count_type "competitor_mention" alerts = length (filter flagged scores)
  ∧ (∀ score, flagged score
       ↔ ∃ signal, signal ∈ default [] (sc_signals score) ∧ names_competitor signal)
  ∧ ((∃ a, a ∈ alerts ∧ alert_type a = "competitor_mention")
     ↔ ∃ score signal, score ∈ scores ∧ signal ∈ default [] (sc_signals score)
                       ∧ names_competitor signal)
  ∧ Forall (λ a, alert_type a = "competitor_mention" →
                 severity a = "medium"
                 ∧ ∃ score, score ∈ scores
                            ∧ description a ∈ default [] (sc_signals score)
                            ∧ names_competitor (description a))
           alerts
  ∧ count_type "positive_update" alerts
    = (if negb (sentiment <? -0.3)%float && negb (health <? 50)
          && bool_decide (filter flagged scores = [])
          && (0.2 <? sentiment)%float
       then 1%nat else 0%nat)
  ∧ Forall (λ a, alert_type a = "positive_update" → severity a = "info") alerts
  ∧ length alerts
    = (count_type "sentiment_drop" alerts + count_type "deadline_risk" alerts
       + count_type "competitor_mention" alerts
       + count_type "positive_update" alerts)%nat
  ∧ au_current_step (alert_node format_2f state) = "alert".
Proof.
  intros sentiment health scores alerts.
  destruct (alert_node_counts state)
    as (Hdrop & Hdrop_sev & Hrisk & Hrisk_sev & Hcomp & Hcomp_sev & Hpos & Hpos_sev
        & Hlen & Hstep).
  fold sentiment health scores alerts
    in Hdrop, Hdrop_sev, Hrisk, Hrisk_sev, Hcomp, Hcomp_sev, Hpos, Hpos_sev, Hlen.
  split; [exact Hdrop|]. split; [exact Hdrop_sev|].
  split; [exact Hrisk|]. split; [exact Hrisk_sev|].
  split; [exact Hcomp|].
  split; [exact flagged_iff_names|].
  split; [by rewrite typed_alert_exists, Hcomp, flagged_exists|].
  split.
  { destruct (alert_node_parts state)
      as (drop & risk & positive & Heq & Hd & Hr & Hp).
    fold sentiment health scores alerts in Heq, Hd, Hr, Hp.
    pose proof (competitor_alerts_signal scores) as Hsignal.
    rewrite Forall_forall in Hcomp_sev. apply Forall_forall. intros a Hin Hty.
    split; [by apply Hcomp_sev|].
    rewrite Heq, !elem_of_app in Hin. destruct Hin as [Ha|[Ha|[Ha|Ha]]].
    - destruct (sentiment <? -0.3)%float; [|subst drop; by apply elem_of_nil in Ha].
      destruct Hd as (d & -> & Hdt & _).
      apply list_elem_of_singleton in Ha as ->. congruence.
    - destruct (health <? 50); [|subst risk; by apply elem_of_nil in Ha].
      destruct Hr as (r & -> & Hrt & _).
      apply list_elem_of_singleton in Ha as ->. congruence.
    - rewrite Forall_forall in Hsignal. by apply Hsignal.
    - destruct (bool_decide _ && _); [|subst positive; by apply elem_of_nil in Ha].
      destruct Hp as (p & -> & Hpt & _).
      apply list_elem_of_singleton in Ha as ->. congruence. }
  split; [exact Hpos|]. split; [exact Hpos_sev|].
  split; [exact Hlen | exact Hstep].
Qed.

(** C10: a [positive_update] alert excludes every other alert: when the list
    returned by the stage holds one, it holds nothing else. *)
Theorem positive_update_is_alone (state : MonitoringState) (a : alert) :
  a ∈ au_detected_alerts (alert_node format_2f state) →
  alert_type a = "positive_update" →
  au_detected_alerts (alert_node format_2f state) = [a].
Proof.
  intros Hin Hty.
  destruct (alert_node_parts state) as (drop & risk & positive & Heq & Hd & Hr & Hp).
  pose proof (competitor_alerts_shape (default [] (st_sentiment_scores state))) as Hshape.
  set (comp := omap competitor_alert _) in *.
  rewrite Heq in Hin |- *.
  assert (Hother : a ∉ drop ++ risk ++ comp).
  { rewrite !elem_of_app. intros [Ha|[Ha|Ha]].
    - destruct (_ <? _)%float; [|subst drop; by apply elem_of_nil in Ha].
      destruct Hd as (d & -> & Hdt & _).
      apply list_elem_of_singleton in Ha as ->. congruence.
    - destruct (_ <? 50); [|subst risk; by apply elem_of_nil in Ha].
      destruct Hr as (r & -> & Hrt & _).
      apply list_elem_of_singleton in Ha as ->. congruence.
    - rewrite Forall_forall in Hshape. destruct (Hshape a Ha). congruence. }
  assert (Hpos : a ∈ positive).
  { rewrite !app_assoc, elem_of_app in Hin. rewrite <- !app_assoc in Hin.
    destruct Hin as [Hin|Hin]; [by destruct Hother | exact Hin]. }
  destruct (bool_decide (drop ++ risk ++ comp = [])) eqn:Hempty; simpl in Hp.
  - apply bool_decide_eq_true in Hempty.
    destruct (0.2 <? _)%float; [|subst positive; by apply elem_of_nil in Hpos].
    destruct Hp as (p & -> & _). apply list_elem_of_singleton in Hpos as ->.
    apply app_eq_nil in Hempty as [Hd0 Hempty].
    apply app_eq_nil in Hempty as [Hr0 Hc0].
    by rewrite Hd0, Hr0, Hc0.
  - subst positive. by apply elem_of_nil in Hpos.
Qed.

End AlertStage.

Lemma positive_update_is_alone_witness :
  Monitoring.au_detected_alerts (Monitoring.alert_node (λ _, "0.50") calm_state)
  = [calm_alert].
Proof.
  apply positive_update_is_alone.
  - vm_compute. constructor.
  - reflexivity.
Defined.

(** Two signals of one entry name a competitor, in different letter cases:
    the stage produces one alert, with the first of them. *)
Lemma competitor_mention_example :
  Monitoring.au_detected_alerts (Monitoring.alert_node (λ _, "0.50") rival_state)
  = [ {| Monitoring.alert_type := "competitor_mention";
         Monitoring.severity := "medium";
         Monitoring.alert_title := "Competitor mentioned in communications";
         Monitoring.description := "A COMPETITOR quoted less" |} ].
Proof. vm_compute. reflexivity. Qed.

(** ** The reply parsers *)

Section ReplyParsers.
Import Py Json Reply.
Variable json_loads : string -> result json.

(** [comply_node] always returns: whatever the reply and whatever
    [json.loads] does with it, the stage yields an update for step "comply"
    whose compliance score lies in [0, 1]. *)
Theorem comply_node_total (state : Proposal.ProposalState) (result_text : string) :
  ∃ u, Proposal.comply_node json_loads state result_text = Ok u
     ∧ Proposal.cu_current_step u = "comply"
     ∧ (0 <=? Proposal.cu_compliance_score u)%float = true
     ∧ (Proposal.cu_compliance_score u <=? 1)%float = true.
Proof.
  unfold Proposal.comply_node.
  destruct (bool_decide _); [eexists; repeat split; reflexivity|].
  unfold try_except.
  match goal with |- context [match ?body with Ok _ => _ | Raise _ => _ end] =>
    destruct body as [u|e] eqn:Hbody end.
  2: { simpl. eexists. repeat split; reflexivity. }
  exists u. split; [reflexivity|].
  revert Hbody. unfold mbind, result_bind, bind.
  destruct (Proposal.extract_parsed _ _) as [parsed|]; [|discriminate].
  destruct (truthy parsed).
  - destruct (get parsed "compliance_score" _) as [score|]; [|discriminate].
    destruct (is_number score).
    + destruct (to_float score) as [x|]; [|discriminate].
      destruct (get parsed "issues" _) as [issues|]; [|discriminate].
      destruct (len issues); [|discriminate].
      intros [= <-]. simpl. split; [reflexivity|]. apply clamp_unit.
    + destruct (get parsed "issues" _) as [issues|]; [|discriminate].
      destruct (len issues); [|discriminate].
      intros [= <-]. simpl. repeat split; reflexivity.
  - intros [= <-]. simpl. repeat split; reflexivity.
Qed.

(** C1, where the code parts from it: every stage that parses a reply under
    [except (json.JSONDecodeError, IndexError)] lets an exception out whenever
    the reply decodes to JSON that is not an object (a list, a string, a
    number, [null]): the first [.get] on the decoded value raises
    [AttributeError], which that clause does not catch. This holds of
    [sentiment_node] (given a communication), [recovery_node] (given an
    alert), [extract_node], [analyze_node] and [decide_node]. *)
Theorem reply_stages_raise_on_non_object
    (state : Monitoring.MonitoringState) (result_text inner : string) (v : json) :
  unfence result_text = Ok inner →
  json_loads (strip inner) = Ok v →
  (∀ kv, v ≠ JObj kv) →
  let escapes {A} (r : result A) :=
    ∃ e, r = Raise e ∧ exn_class_of e = AttributeError in
  (default [] (Monitoring.st_recent_communications state) ≠ [] →
     escapes (Monitoring.sentiment_node json_loads state result_text))
  ∧ (default [] (Monitoring.st_detected_alerts state) ≠ [] →
       escapes (Monitoring.recovery_node json_loads state result_text))
  ∧ escapes (Qualification.extract_node json_loads result_text)
  ∧ escapes (Qualification.analyze_node json_loads result_text)
  ∧ escapes (Qualification.decide_node json_loads result_text).
Proof.
  intros Hfence Hloads Hobj escapes.
  unfold Monitoring.sentiment_node, Monitoring.recovery_node,
    Qualification.extract_node, Qualification.analyze_node,
    Qualification.decide_node.
  rewrite Hfence. simpl. rewrite Hloads. simpl.
  assert (Hget : ∀ key dflt, ∃ e, get v key dflt = Raise e
                                ∧ exn_class_of e = AttributeError).
  { intros key dflt. destruct v; try (eexists; split; reflexivity).
    by destruct (Hobj kv). }
  repeat split.
  - intros Hcomms. rewrite bool_decide_false by exact Hcomms.
    destruct (Hget "scores" (JArr [])) as (e & -> & He). simpl.
    rewrite He. simpl. by exists e.
  - intros Halerts. rewrite bool_decide_false by exact Halerts.
    destruct (Hget "recovery_actions" (JArr [])) as (e & -> & He). simpl.
    rewrite He. simpl. by exists e.
  - destruct (Hget "requirements" (JArr [])) as (e & -> & He). simpl.
    rewrite He. simpl. by exists e.
  - destruct (Hget "capability_match_percent" (JInt 0)) as (e & -> & He). simpl.
    rewrite He. simpl. by exists e.
  - destruct (Hget "recommendation" (JStr "no_go")) as (e & -> & He). simpl.
    rewrite He. simpl. by exists e.
Qed.

(** The stages do fall back on their defaults when the reply does not
    decode. *)
Theorem reply_stages_default_on_decode_error
    (state : Monitoring.MonitoringState) (result_text inner : string) (e : exn) :
  unfence result_text = Ok inner →
  json_loads (strip inner) = Raise e →
  exn_class_of e = JSONDecodeError →
  Monitoring.sentiment_node json_loads state result_text
  = Ok Monitoring.sentiment_default
  ∧ Monitoring.recovery_node json_loads state result_text
    = Ok Monitoring.recovery_default
  ∧ Qualification.extract_node json_loads result_text
    = Ok {| Qualification.eu_extracted_requirements := JArr [];
            Qualification.eu_extracted_entities := JObj [];
            Qualification.eu_errors :=
              Some ["Extraction parsing error: " +:+ exn_msg e];
            Qualification.eu_current_step := "extract" |}
  ∧ Qualification.analyze_node json_loads result_text
    = Ok {| Qualification.an_gap_analysis := JObj [];
            Qualification.an_current_step := "analyze" |}
  ∧ (∃ u, Qualification.decide_node json_loads result_text = Ok u
        ∧ Qualification.du_recommendation u = JStr "no_go"
        ∧ Qualification.du_confidence_score u = JFloat 0).
Proof.
  intros Hfence Hloads Hclass.
  unfold Monitoring.sentiment_node, Monitoring.recovery_node,
    Qualification.extract_node, Qualification.analyze_node,
    Qualification.decide_node.
  rewrite Hfence. simpl. rewrite Hloads. simpl. rewrite Hclass. simpl.
  repeat split.
  - by destruct (bool_decide _).
  - by destruct (bool_decide _).
  - eexists. repeat split; reflexivity.
Qed.

(** The fence selection never raises: the [IndexError] of the [except]
    clauses cannot occur. *)
Lemma split_go_nonempty (sep : string) (skip : nat) (cur s : string) :
  (1 ≤ length (split_go sep skip cur s))%nat.
Proof.
  revert skip cur. induction s as [|c s IH]; intros skip cur; cbn [split_go].
  - simpl. lia.
  - destruct skip; [|apply IH].
    destruct (String.prefix sep (String c s)); [simpl; lia | apply IH].
Qed.

Lemma split_two_pieces (sep : string) (c : ascii) (sep' cur s : string) :
  sep = String c sep' →
  contains sep s = true →
  (2 ≤ length (split_go sep 0 cur s))%nat.
Proof.
  intros Hsep. revert cur.
  induction s as [|d s IH]; intros cur; cbn [split_go contains].
  - subst sep. discriminate.
  - destruct (String.prefix sep (String d s)); cbn [orb].
    + intros _.
      pose proof (split_go_nonempty sep (String.length sep - 1) EmptyString s).
      simpl. lia.
    + intros H. by apply IH.
Qed.

Lemma unfence_total (result_text : string) :
  ∃ inner, unfence result_text = Ok inner.
Proof.
  assert (Hfirst : ∀ sep s, ∃ piece, index (split sep s) 0 = Ok piece).
  { intros sep s. unfold index, split.
    pose proof (split_go_nonempty sep 0 EmptyString s).
    destruct (split_go sep 0 EmptyString s); simpl in *; [lia | by eexists]. }
  assert (Hsecond : ∀ sep c sep' s, sep = String c sep' → contains sep s = true →
            ∃ piece, index (split sep s) 1 = Ok piece).
  { intros sep c sep' s Hsep Hin. unfold index, split.
    pose proof (split_two_pieces sep c sep' EmptyString s Hsep Hin).
    destruct (split_go sep 0 EmptyString s) as [|? [|? ?]]; simpl in *;
      [lia | lia | by eexists]. }
  unfold unfence.
  destruct (contains "```json" result_text) eqn:Hjson.
  - destruct (Hsecond _ _ _ _ eq_refl Hjson) as [after ->]. simpl. apply Hfirst.
  - destruct (contains "```" result_text) eqn:Hany; [|by eexists].
    destruct (Hsecond _ _ _ _ eq_refl Hany) as [after ->]. simpl. apply Hfirst.
Qed.

(** C8, where the code parts from it: [decide_node] stores the confidence
    score exactly as the reply gives it, without clamping. *)
Theorem decide_node_keeps_raw_confidence
    (result_text inner : string) (kv : list (string * json)) :
  unfence result_text = Ok inner →
  json_loads (strip inner) = Ok (JObj kv) →
  ∃ u, Qualification.decide_node json_loads result_text = Ok u
     ∧ Qualification.du_confidence_score u
       = default (JFloat 0.5) (assoc "confidence_score" kv).
Proof.
  intros Hfence Hloads.
  unfold Qualification.decide_node.
  rewrite Hfence. simpl. rewrite Hloads. simpl.
  eexists. split; reflexivity.
Qed.

End ReplyParsers.

(** The reply [[]] is valid JSON and makes [sentiment_node] raise. *)
Lemma reply_stages_raise_witness :
  ∃ e, Monitoring.sentiment_node JsonText.loads state_with_email "[]" = Py.Raise e
     ∧ Py.exn_class_of e = Py.AttributeError.
Proof.
  apply (reply_stages_raise_on_non_object JsonText.loads state_with_email
           "[]" "[]" (Json.JArr [])).
  - reflexivity.
  - reflexivity.
  - discriminate.
  - discriminate.
Defined.

Lemma reply_stages_default_witness :
  Monitoring.sentiment_node JsonText.loads state_with_email
    "I could not analyse these emails."
  = Py.Ok Monitoring.sentiment_default.
Proof.
  eapply reply_stages_default_on_decode_error.
  - reflexivity.
  - reflexivity.
  - reflexivity.
Defined.

Lemma decide_node_keeps_raw_confidence_witness :
  ∃ u, Qualification.decide_node JsonText.loads reply_confidence_7 = Py.Ok u
     ∧ Qualification.du_confidence_score u = Json.JInt 7.
Proof.
  apply (decide_node_keeps_raw_confidence JsonText.loads reply_confidence_7
           reply_confidence_7 [("confidence_score", Json.JInt 7)]).
  - reflexivity.
  - reflexivity.
Defined.

(** ** Stable descending sort *)

Section SortFacts.
Import Orchestrator.
Context {A : Type}.
Variable key : A → Z.

Lemma insert_desc_perm (x : A) (l : list A) :
  insert_desc Z.ltb key x l ≡ₚ x :: l.
Proof.
  induction l as [|y l IH]; simpl; [done|].
  destruct (key x <? key y); [|done].
  rewrite IH. apply Permutation_swap.
Qed.

Lemma sort_desc_perm (l : list A) : sort_desc Z.ltb key l ≡ₚ l.
Proof.
  induction l as [|x l IH]; simpl; [done|].
  rewrite insert_desc_perm. by rewrite IH.
Qed.

Lemma insert_desc_descending (x : A) (l : list A) :
  descending key l → descending key (insert_desc Z.ltb key x l).
Proof.
  unfold descending. induction 1 as [|y l Hl IH Hy]; simpl.
  - repeat constructor.
  - destruct (key x <? key y) eqn:Hlt.
    + apply Z.ltb_lt in Hlt. constructor; [exact IH|].
      rewrite insert_desc_perm. constructor; [lia | exact Hy].
    + apply Z.ltb_ge in Hlt. constructor; [by constructor|].
      constructor; [exact Hlt|].
      eapply Forall_impl; [exact Hy|]. simpl. intros; lia.
Qed.

Lemma sort_desc_descending (l : list A) :
  descending key (sort_desc Z.ltb key l).
Proof.
  induction l as [|x l IH]; simpl; [constructor|].
  by apply insert_desc_descending.
Qed.

Lemma insert_desc_stable (k : Z) (x : A) (l : list A) :
  filter (λ a, key a = k) (insert_desc Z.ltb key x l)
  = filter (λ a, key a = k) (x :: l).
Proof.
  induction l as [|y l IH]; simpl; [done|].
  destruct (key x <? key y) eqn:Hlt; [|done].
  apply Z.ltb_lt in Hlt.
  rewrite (filter_cons _ y), IH, !filter_cons.
  destruct (decide (key y = k)), (decide (key x = k)); try done; lia.
Qed.

(** Items with equal keys keep their input order. *)
Lemma sort_desc_stable (k : Z) (l : list A) :
  filter (λ a, key a = k) (sort_desc Z.ltb key l) = filter (λ a, key a = k) l.
Proof.
  induction l as [|x l IH]; simpl; [done|].
  rewrite insert_desc_stable, !filter_cons, IH. done.
Qed.

End SortFacts.

(** ** Staff matching *)

Section Matching.
Import Py Orchestrator.

Lemma elem_of_long_words (w s : string) :
  w ∈ long_words s ↔ w ∈ split_ws s ∧ (3 < String.length w)%nat.
Proof. unfold long_words. rewrite list_elem_of_filter. tauto. Qed.

(** The ranking is the stable descending sort of the scored records. *)
Lemma match_staff_sorted (all_employees : list Employee)
    (requirements : list extracted_requirement) (gap : gap_analysis) :
  match_staff all_employees requirements gap
  = sort_desc Z.ltb sm_match_score
      (omap (score_employee
               (required_keywords requirements gap
                  (default [] (key_roles (default no_estimate
                                            (ga_resource_estimate gap))))))
            all_employees).
Proof.
  unfold match_staff. case_bool_decide as Hemp; [|reflexivity].
  by rewrite Hemp.
Qed.

(** C2, as stated, fails: with no requirement at all the keyword set of the
    claim is empty and nobody would be ranked, while the code also draws
    keywords from the gap analysis and ranks both employees with score 1. *)
Lemma match_score_counterexample :
  map (λ e, (sm_employee_id e, sm_match_score e))
      (match_staff roster_example [] gap_example)
  = [("e1", 1); ("e2", 1)]
  ∧ spec_match_staff roster_example [] = [].
Proof. split; vm_compute; reflexivity. Qed.

(** C2, amended: the keyword set holds, lower-cased, the whitespace tokens of
    length > 3 of every requirement's text, every requirement's category
    (whole), and the tokens of length > 3 of the gap analysis's strong areas,
    gap areas and key roles. A record's token set holds its lower-cased skills
    (each whole) and its role words of length > 3. A record is ranked exactly
    when the two sets intersect, with the size of the intersection as its
    match score; the ranking is in descending order of match score and
    records with equal scores keep their roster order. *)
Theorem match_staff_ranking (all_employees : list Employee)
    (requirements : list extracted_requirement) (gap : gap_analysis) :
  let key_roles :=
    default [] (key_roles (default no_estimate (ga_resource_estimate gap))) in
  let areas := default [] (strong_areas gap) ++ default [] (gap_areas gap) in
  let required := required_keywords requirements gap key_roles in
  let scored := omap (score_employee required) all_employees in
  let ranking := match_staff all_employees requirements gap in
  (∀ w, w ∈ required ↔
      (∃ req, req ∈ requirements ∧
         (w ∈ long_words (lower (default EmptyString (er_text req)))
          ∨ w = lower (default EmptyString (er_category req))))
      ∨ (∃ area, area ∈ areas ∧ w ∈ long_words (lower area))
      ∨ (∃ role, role ∈ key_roles ∧ w ∈ long_words (lower role)))
  ∧ (∀ emp w, w ∈ employee_terms emp ↔
      (∃ skill, skill ∈ default [] (emp_skills emp) ∧ w = lower skill)
      ∨ (∃ word, word ∈ split_ws (emp_role emp)
                 ∧ (3 < String.length word)%nat ∧ w = lower word))
  ∧ (∀ emp, score_employee required emp = None ↔
            employee_terms emp ∩ required = ∅)
  ∧ (∀ emp entry, score_employee required emp = Some entry →
       sm_employee_id entry = emp_id emp
       ∧ sm_match_score entry = Z.of_nat (size (employee_terms emp ∩ required))
       ∧ 1 ≤ sm_match_score entry)
  ∧ ranking ≡ₚ scored
  ∧ descending sm_match_score ranking
  ∧ (∀ k, filter (λ e, sm_match_score e = k) ranking
          = filter (λ e, sm_match_score e = k) scored).
Proof.
  intros key_roles areas required scored ranking.
  assert (Hranking : ranking = sort_desc Z.ltb sm_match_score scored)
    by apply match_staff_sorted.
  split.
  { intros w. unfold required, required_keywords. fold areas.
    rewrite elem_of_list_to_set, !elem_of_app, !list_elem_of_bind.
    setoid_rewrite elem_of_app. setoid_rewrite list_elem_of_singleton.
    naive_solver. }
  split.
  { intros emp w. unfold employee_terms.
    rewrite elem_of_union, !elem_of_list_to_set, !list_elem_of_fmap.
    setoid_rewrite list_elem_of_filter. naive_solver. }
  split.
  { intros emp. unfold score_employee. case_bool_decide; naive_solver. }
  split.
  { intros emp entry. unfold score_employee.
    case_bool_decide as Hne; [discriminate|]. intros [= <-]. simpl.
    split; [reflexivity|]. split; [reflexivity|].
    assert (size (employee_terms emp ∩ required) ≠ 0%nat)
      by (apply size_non_empty_iff; intros Heq%leibniz_equiv; done).
    lia. }
  rewrite Hranking.
  split; [apply sort_desc_perm|].
  split; [apply sort_desc_descending|].
  intros k. apply sort_desc_stable.
Qed.

End Matching.

(** ** Auto-assignment *)

Section AutoAssignment.
Import Py Orchestrator.
Variable uuid4 : nat → string.

Lemma add_assignments (deal_id : string) (picked : list staff_match)
    (table : list DealAssignment) (n : Z) :
  ∃ created,
    foldl (λ '(table, auto_assigned) staff,
             (table ++ [new_assignment uuid4 deal_id (Z.to_nat auto_assigned) staff],
              auto_assigned + 1))
          (table, n) picked
    = (table ++ created, n + Z.of_nat (length created))
    ∧ Forall2 (assigned_from deal_id) created picked.
Proof.
  revert table n. induction picked as [|staff picked IH]; intros table n; simpl.
  - exists []. rewrite app_nil_r, Z.add_0_r. split; [done | constructor].
  - destruct (IH (table ++ [new_assignment uuid4 deal_id (Z.to_nat n) staff]) (n + 1))
      as (created & -> & Hall).
    exists (new_assignment uuid4 deal_id (Z.to_nat n) staff :: created).
    split.
    + rewrite <- app_assoc. simpl. f_equal. lia.
    + constructor; [by repeat split | exact Hall].
Qed.



End AutoAssignment.


Example auto_assign_rows :
  map (λ a, (Orchestrator.da_employee_id a, Orchestrator.da_assigned_by a,
             Orchestrator.da_allocation_percent a))
      (fst (Orchestrator.auto_assign (λ n, pretty n) table_example "deal-1"
              (Orchestrator.match_staff roster_example [] gap_example)))
  = [("e9", "manual", 50); ("e1", "auto", 80); ("e2", "auto", 100)].
Proof. vm_compute. reflexivity. Qed.

(** ** The driver: progress records and stage order *)

Section FlowFacts.
Import Py Json LangGraph Orchestrator.
Context {State Update : Type}.
Variable merge : State → Update → State.
Variables ingest_node extract_node analyze_node match_node decide_node
  : State → result Update.
Variables retrieve_node generate_node comply_node : State → result Update.
Variables sentiment_node health_node alert_node recovery_node
  : State → result Update.
Variable qualification_state : string → State.
Variable proposal_state : Deal → State.
Variable monitoring_state : Deal → list Monitoring.communication → State.

#[local] Abbreviation run_qualification :=
  (run_qualification_flow merge ingest_node extract_node analyze_node match_node
     decide_node qualification_state).
#[local] Abbreviation run_proposal :=
  (run_proposal_flow merge retrieve_node generate_node comply_node proposal_state).
#[local] Abbreviation run_monitoring :=
  (run_monitoring_flow merge sentiment_node health_node alert_node recovery_node
     monitoring_state).
#[local] Abbreviation run_agent :=
  (run_agent_flow merge ingest_node extract_node analyze_node match_node decide_node
     retrieve_node generate_node comply_node
     sentiment_node health_node alert_node recovery_node
     qualification_state proposal_state monitoring_state).

#[local] Abbreviation flow_stages :=
  (flow_stages ingest_node extract_node analyze_node match_node decide_node
     retrieve_node generate_node comply_node
     sentiment_node health_node alert_node recovery_node).
#[local] Abbreviation graph_input :=
  (graph_input qualification_state proposal_state monitoring_state).
#[local] Abbreviation no_stage_raises :=
  (no_stage_raises merge ingest_node extract_node analyze_node match_node decide_node
     retrieve_node generate_node comply_node
     sentiment_node health_node alert_node recovery_node
     qualification_state proposal_state monitoring_state).
#[local] Abbreviation flow_run_of :=
  (flow_run_of merge ingest_node extract_node analyze_node match_node decide_node
     retrieve_node generate_node comply_node
     sentiment_node health_node alert_node recovery_node
     qualification_state proposal_state monitoring_state).
#[local] Abbreviation run_facts :=
  (run_facts merge ingest_node extract_node analyze_node match_node decide_node
     retrieve_node generate_node comply_node
     sentiment_node health_node alert_node recovery_node
     qualification_state proposal_state monitoring_state).

Ltac run_stage :=
  match goal with
  | |- context [match ?stage ?s with Ok _ => _ | Raise _ => _ end] =>
      destruct (stage s); simpl
  end.

Ltac close_shape_at k :=
  exists k; repeat split; try reflexivity; try discriminate;
  try (repeat constructor; fail); simpl; lia.

Ltac close_shape :=
  first [ close_shape_at 0%nat | close_shape_at 1%nat | close_shape_at 2%nat
        | close_shape_at 3%nat | close_shape_at 4%nat | close_shape_at 5%nat ].

Lemma qualification_shape (initial_state : State) :
  sync_shape (flow_steps QualificationFlow) 5
    (_run_graph_sync merge
       (qualification_graph ingest_node extract_node analyze_node match_node decide_node)
       initial_state ["ingest"; "extract"; "analyze"; "match"; "decide"]
       [ ("ingest", "Parsing document structure...");
         ("extract", "Extracting requirements and entities...");
         ("analyze", "Analyzing deal viability...");
         ("match", "Matching employee skills...");
         ("decide", "Generating GO/NO-GO recommendation...") ] 5).
Proof.
  unfold sync_shape, _run_graph_sync, stream. simpl.
  repeat run_stage; close_shape.
Qed.

Lemma proposal_shape (initial_state : State) :
  sync_shape (flow_steps ProposalFlow) 3
    (_run_graph_sync merge
       (proposal_graph retrieve_node generate_node comply_node)
       initial_state ["retrieve"; "generate"; "comply"]
       [ ("retrieve", "Searching knowledge base for relevant proposal sections...");
         ("generate", "Generating proposal draft...");
         ("comply", "Checking compliance against requirements...") ] 3).
Proof.
  unfold sync_shape, _run_graph_sync, stream. simpl.
  repeat run_stage; close_shape.
Qed.

Lemma monitoring_shape (initial_state : State) :
  sync_shape (flow_steps MonitoringFlow) 4
    (_run_graph_sync merge
       (monitoring_graph sentiment_node health_node alert_node recovery_node)
       initial_state ["sentiment"; "health"; "alert"; "recovery"]
       [ ("sentiment", "Analyzing communication sentiment...");
         ("health", "Calculating deal health score...");
         ("alert", "Detecting potential risks...");
         ("recovery", "Generating recovery strategy...") ] 4).
Proof.
  unfold sync_shape, _run_graph_sync, stream. simpl.
  repeat run_stage; close_shape.
Qed.

(** The stages a graph runs are the stages of its chain that return, in the
    order of the chain. *)
Lemma graph_stages (f : flow) (initial_state : State) (steps : list string)
    (step_messages : list (string * string)) (total : Z) :
  map step
    (_run_graph_sync merge
       match f with
       | QualificationFlow =>
           qualification_graph ingest_node extract_node analyze_node match_node
             decide_node
       | ProposalFlow => proposal_graph retrieve_node generate_node comply_node
       | MonitoringFlow =>
           monitoring_graph sentiment_node health_node alert_node recovery_node
       end initial_state steps step_messages total).1
  = take (stages_returning merge (flow_stages f) initial_state) (flow_steps f).
Proof.
  destruct f; unfold _run_graph_sync, stream; simpl;
    repeat run_stage; reflexivity.
Qed.

Lemma sorted_run (n : nat) :
  (1 ≤ n)%nat →
  Sorted Z.le (1 :: (Z.of_nat <$> seq 1 n) ++ [Z.of_nat n]).
Proof.
  intros Hn.
  assert (H : ∀ a k, Sorted Z.le ((Z.of_nat <$> seq a k) ++ [Z.of_nat (a + k - 1)%nat])
                     ∨ k = 0%nat).
  { intros a k. revert a. induction k as [|k IH]; intros a; [by right|left].
    simpl. destruct (IH (S a)) as [IHk| ->].
    - replace (a + S k - 1)%nat with (S a + k - 1)%nat by lia.
      constructor; [exact IHk|].
      destruct k; simpl; constructor; lia.
    - simpl. repeat constructor. lia. }
  destruct n as [|n]; [lia|].
  destruct (H 1%nat (S n)) as [Hs|?]; [|discriminate].
  replace (1 + S n - 1)%nat with (S n) in Hs by lia.
  constructor; [exact Hs|]. simpl. constructor. lia.
Qed.

(** The records and stages of a run that reached its graph. *)
Lemma finish_facts (first : task_update) (total : Z) (done_message : string)
    (save : list (string * Update) → result (list (string * json)))
    (steps : list string)
    (ran : list task_update * result (list (string * Update))) :
  sync_shape steps total ran →
  total = Z.of_nat (length steps) →
  (1 ≤ length steps)%nat →
  step_number first = 1 →
  total_steps first = total →
  let r := finish [first] total done_message save ran in
  Forall (λ u, total_steps u = total) (posted r)
  ∧ executed r = map step ran.1
  ∧ (∀ u, last (posted r) = Some u → status u = "completed" →
       step_number u = total
       ∧ Sorted Z.le (map step_number (posted r))
       ∧ executed r = steps).
Proof.
  intros (k & Hsteps & Hnum & Hall & Hres) Htotal Hlen Hfirst Hftotal.
  destruct ran as [written result]. simpl in *.
  assert (Hwt : Forall (λ u, total_steps u = total) written)
    by (eapply Forall_impl; [exact Hall | by intros u [? _]]).
  assert (Hfull : k = length steps → map step written = steps)
    by (intros ->; by rewrite Hsteps, firstn_all).
  split.
  { constructor; [exact Hftotal|]. apply Forall_app. split; [exact Hwt|].
    destruct result as [accumulated|e]; [|by repeat constructor].
    case_bool_decide; [constructor|].
    destruct (save accumulated); by repeat constructor. }
  split; [reflexivity|].
  intros u Hlast Hdone.
  assert (Hcase : ∀ x, last (first :: written ++ [x]) = Some u → x = u).
  { intros x. rewrite app_comm_cons, last_snoc. by intros [= ->]. }
  destruct result as [accumulated|e].
  - destruct Hres as [-> Hacc]. rewrite bool_decide_false in Hlast |- * by exact Hacc.
    destruct (save accumulated) as [payload|e].
    + apply Hcase in Hlast as <-. simpl.
      split; [reflexivity|]. split; [|by apply Hfull].
      rewrite map_app, Hnum. simpl. rewrite Hfirst, Htotal. by apply sorted_run.
    + apply Hcase in Hlast as <-. discriminate.
  - apply Hcase in Hlast as <-. discriminate.
Qed.

Lemma run_agent_flow_of (f : flow) (w : @world Update) (document_id : option string) :
  updates_of (store (run_agent w (flow_name f) document_id))
  = posted (flow_run_of f w document_id)
  ∧ stages (run_agent w (flow_name f) document_id)
    = executed (flow_run_of f w document_id).
Proof.
  assert (Hupd : ∀ l, omap (λ e, match e with
                                 | Posted u => Some u
                                 | Initializing _ => None
                                 end) (map Posted l) = l).
  { induction l as [|u l IH]; [done|]. simpl. f_equal. exact IH. }
  destruct f; unfold run_agent_flow, updates_of; cbn [store stages flow_name];
    (split; [|reflexivity]); apply Hupd.
Qed.

Lemma graph_input_met (f : flow) (w : @world Update) (document_id : option string) :
  prerequisites_met f w document_id
  = bool_decide (is_Some (graph_input f w document_id)).
Proof.
  unfold prerequisites_met, graph_input.
  destruct (w_deal w) as [deal|]; [|done].
  destruct f; simpl; [| done |].
  - destruct (bool_decide (gather_documents w document_id = [])); [done|].
    by destruct (String.eqb _ EmptyString).
  - by destruct (bool_decide ((fetch_communications w deal).1 = [])).
Qed.

Lemma stopped_facts (f : flow) (w : @world Update) (document_id : option string)
    (message : string) :
  graph_input f w document_id = None →
  run_facts f w document_id
    (stopped (send_update "error" 0 (stage_count f) "failed" message [])).
Proof.
  intros Hnone. unfold run_facts. rewrite Hnone.
  split; [by repeat constructor|].
  split; [intros u [= <-]; discriminate | reflexivity].
Qed.

Lemma finished_facts (f : flow) (w : @world Update) (document_id : option string)
    (initial_state : State) (first : task_update) (done_message : string)
    (save : list (string * Update) → result (list (string * json)))
    (ran : list task_update * result (list (string * Update))) :
  graph_input f w document_id = Some initial_state →
  sync_shape (flow_steps f) (stage_count f) ran →
  map step ran.1
  = take (stages_returning merge (flow_stages f) initial_state) (flow_steps f) →
  step_number first = 1 →
  total_steps first = stage_count f →
  run_facts f w document_id (finish [first] (stage_count f) done_message save ran).
Proof.
  intros Hinput Hshape Hstages Hfirst Hftotal.
  destruct (finish_facts first (stage_count f) done_message save (flow_steps f) ran)
    as (Htot & Hexecuted & Hlast); try done.
  { destruct f; simpl; lia. }
  unfold run_facts. rewrite Hinput.
  split; [exact Htot|].
  split; [intros u Hu Hdone; by destruct (Hlast u Hu Hdone) as (? & ? & _)|].
  by rewrite Hexecuted.
Qed.

Lemma flow_run_facts (f : flow) (w : @world Update) (document_id : option string) :
  run_facts f w document_id (flow_run_of f w document_id).
Proof.
  destruct f; simpl.
  - unfold run_qualification_flow.
    destruct (w_deal w) as [deal|] eqn:Hdeal;
      [|apply (stopped_facts QualificationFlow);
        unfold graph_input; by rewrite Hdeal].
    destruct (bool_decide (gather_documents w document_id = [])) eqn:Hdocs;
      [apply (stopped_facts QualificationFlow);
       unfold graph_input; simpl; by rewrite Hdeal, Hdocs|].
    destruct (String.eqb _ EmptyString) eqn:Htext;
      [apply (stopped_facts QualificationFlow);
       unfold graph_input; simpl; by rewrite Hdeal, Hdocs, Htext|].
    eapply (finished_facts QualificationFlow); try reflexivity.
    + unfold graph_input. simpl. by rewrite Hdeal, Hdocs, Htext.
    + apply qualification_shape.
    + apply (graph_stages QualificationFlow).
  - unfold run_proposal_flow.
    destruct (w_deal w) as [deal|] eqn:Hdeal;
      [|apply (stopped_facts ProposalFlow);
        unfold graph_input; by rewrite Hdeal].
    eapply (finished_facts ProposalFlow); try reflexivity.
    + unfold graph_input. by rewrite Hdeal.
    + apply proposal_shape.
    + apply (graph_stages ProposalFlow).
  - unfold run_monitoring_flow.
    destruct (w_deal w) as [deal|] eqn:Hdeal;
      [|apply (stopped_facts MonitoringFlow);
        unfold graph_input; by rewrite Hdeal].
    destruct (fetch_communications w deal) as [real_comms reason] eqn:Hfetch. simpl.
    destruct (bool_decide (real_comms = [])) eqn:Hcomms; simpl.
    + unfold run_facts, graph_input. simpl. rewrite Hdeal, Hfetch. simpl.
      rewrite Hcomms.
      split; [by repeat constructor|].
      split; [|reflexivity].
      intros u [= <-] _; split; [reflexivity|]; repeat constructor; simpl; lia.
    + eapply (finished_facts MonitoringFlow); try reflexivity.
      * unfold graph_input. simpl. rewrite Hdeal, Hfetch. simpl.
        by rewrite Hcomms.
      * apply monitoring_shape.
      * apply (graph_stages MonitoringFlow).
Qed.


(** C9, amended: when the prerequisites of a run are met and no stage of the
    run raises, every stage of the flow's fixed list runs exactly once, in
    order, none skipped; when they are not met no stage runs at all, which is
    the case of a monitoring run with no communications. In every run that
    reaches its graph the stages that ran are those that returned before the
    first one that raised, so they are always an initial part of the fixed
    list. *)
Theorem stages_run_once_in_order (f : flow) (w : @world Update)
    (document_id : option string) :
  no_stage_raises f w document_id →
  stages (run_agent w (flow_name f) document_id)
  = (if prerequisites_met f w document_id then flow_steps f else [])
  ∧ (prerequisites_met f w document_id = true
     ↔ is_Some (graph_input f w document_id))
  ∧ (∀ deal, w_deal w = Some deal → (fetch_communications w deal).1 = [] →
       prerequisites_met MonitoringFlow w document_id = false)
  ∧ (∀ initial_state, graph_input f w document_id = Some initial_state →
       stages (run_agent w (flow_name f) document_id)
       = take (stages_returning merge (flow_stages f) initial_state) (flow_steps f))
  ∧ ∃ k, stages (run_agent w (flow_name f) document_id) = take k (flow_steps f).
Proof.
  intros Hreturn.
  destruct (run_agent_flow_of f w document_id) as [_ ->].
  destruct (flow_run_facts f w document_id) as (_ & _ & Hexecuted).
  pose proof (graph_input_met f w document_id) as Hmet.
  split; [|split; [|split; [|split]]].
  - rewrite Hexecuted, Hmet.
    destruct (graph_input f w document_id) as [initial_state|] eqn:Hinput.
    + rewrite bool_decide_true by eauto.
      rewrite (Hreturn initial_state Hinput).
      replace (length (flow_stages f)) with (length (flow_steps f))
        by (by destruct f).
      apply firstn_all.
    + rewrite bool_decide_false; [done|]. by intros [? ?].
  - rewrite Hmet. apply bool_decide_eq_true.
  - intros deal Hdeal Hnone. unfold prerequisites_met.
    by rewrite Hdeal, Hnone.
  - intros initial_state Hinput. by rewrite Hexecuted, Hinput.
  - rewrite Hexecuted. destruct (graph_input f w document_id); [by eexists|].
    by exists 0%nat.
Qed.

Lemma fetch_reason (w : @world Update) (deal : Deal) :
  (fetch_communications w deal).1 = [] →
  ∃ reason, (fetch_communications w deal).2 = Some reason.
Proof.
  unfold fetch_communications.
  destruct (w_oauth w) as [user_id|]; [|by eexists].
  simpl. destruct (w_get_gmail_client w user_id) as [[gmail|]|e]; simpl;
    [|by eexists..].
  destruct (if String.eqb _ _ then _ else _) as [emails|e]; simpl; [|by eexists].
  destruct (if _ || _ then _ else _) as [emails'|e]; simpl; [|by eexists].
  intros ->. by eexists.
Qed.

(** C7: a monitoring run on an existing deal whose fetch yields no
    communication ends with a completed record (stage 4 of 4), never posts a
    failed one, reports zero alerts, and carries the reason why there was
    nothing to analyse; no stage runs. *)
Theorem monitoring_without_communications_completes (w : @world Update)
    (deal : Deal) (document_id : option string) :
  w_deal w = Some deal →
  (fetch_communications w deal).1 = [] →
  let r := run_agent w "monitoring" document_id in
  ∃ final reason,
    last (store r) = Some (Posted final)
    ∧ status final = "completed"
    ∧ step final = "complete"
    ∧ step_number final = 4 ∧ total_steps final = 4
    ∧ message final = "Monitoring complete — no relevant emails found"
    ∧ Json.assoc "alerts_generated" (data final) = Some (JInt 0)
    ∧ Json.assoc "no_emails_reason" (data final) = Some (JStr reason)
    ∧ Forall (λ u, status u ≠ "failed") (updates_of (store r))
    ∧ stages r = [].
Proof.
  intros Hdeal Hnone r.
  destruct (fetch_reason w deal Hnone) as [reason Hreason].
  unfold r, run_agent_flow, run_monitoring_flow. simpl.
  rewrite Hdeal.
  destruct (fetch_communications w deal) as [real_comms no_emails_reason].
  simpl in Hnone, Hreason. subst. simpl.
  eexists _, reason. repeat split; try reflexivity.
  repeat constructor; discriminate.
Qed.

End FlowFacts.

(** ** Concrete runs *)


(** C9, as stated, fails: a monitoring run with no communications completes
    without running any of the four stages. *)
Lemma stages_skipped_without_communications :
  Orchestrator.stages (demo_run (named_stage "sentiment") world_no_mail "monitoring")
  = []
  ∧ map Orchestrator.status
        (updates_of (Orchestrator.store
                       (demo_run (named_stage "sentiment") world_no_mail "monitoring")))
    = ["processing"; "completed"]
  ∧ flow_steps MonitoringFlow = ["sentiment"; "health"; "alert"; "recovery"].
Proof. repeat split; vm_compute; reflexivity. Qed.

Lemma stages_run_once_in_order_witness :
  Orchestrator.stages (demo_run (picky_stage "sentiment") world_ready "monitoring")
  = ["sentiment"; "health"; "alert"; "recovery"]
  ∧ Py.is_ok (picky_stage "sentiment" ["health"]) = false.
Proof.
  split; [|reflexivity].
  assert (Hreturn :
    no_stage_raises (λ state update, state ++ [update])
      (named_stage "ingest") (named_stage "extract") (named_stage "analyze")
      (named_stage "match") (named_stage "decide")
      (named_stage "retrieve") (named_stage "generate") (named_stage "comply")
      (picky_stage "sentiment") (named_stage "health") (named_stage "alert")
      (named_stage "recovery")
      (λ _, []) (λ _, []) (λ _ _, [])
      MonitoringFlow world_ready None)
    by (intros initial_state [= <-]; reflexivity).
  destruct (stages_run_once_in_order (λ state update, state ++ [update])
              _ _ _ _ _ _ _ _ _ _ _ _ (λ _, []) (λ _, []) (λ _ _, [])
              MonitoringFlow world_ready None Hreturn) as [Hrun _].
  etrans; [exact Hrun|]. vm_compute. reflexivity.
Defined.

Lemma monitoring_without_communications_witness :
  ∃ final reason,
    last (Orchestrator.store
            (demo_run (named_stage "sentiment") world_no_mail "monitoring"))
    = Some (Orchestrator.Posted final)
    ∧ Orchestrator.status final = "completed"
    ∧ Json.assoc "alerts_generated" (Orchestrator.data final) = Some (Json.JInt 0)
    ∧ Json.assoc "no_emails_reason" (Orchestrator.data final) = Some (Json.JStr reason).
Proof.
  destruct (monitoring_without_communications_completes
              (λ state update, state ++ [update])
              (named_stage "ingest") (named_stage "extract") (named_stage "analyze")
              (named_stage "match") (named_stage "decide")
              (named_stage "retrieve") (named_stage "generate") (named_stage "comply")
              (named_stage "sentiment") (named_stage "health") (named_stage "alert")
              (named_stage "recovery")
              (λ _, []) (λ _, []) (λ _ _, [])
              world_no_mail demo_deal None eq_refl eq_refl)
    as (final & reason & Hlast & Hstatus & _ & _ & _ & _ & Halerts & Hreason & _).
  exists final, reason. repeat split; assumption.
Defined.
(** * Further properties of the driver and of the code around it *)

(** ** Strings *)

Section StringFacts.
Import Py.
#[local] Arguments append _ _ : simpl nomatch.

Lemma rev_app_length (s t : string) :
  String.length (String.rev_app s t) = (String.length s + String.length t)%nat.
Proof.
  revert t. induction s as [|c s IH]; intros t; simpl; [done|].
  rewrite IH. simpl. lia.
Qed.

Lemma rev_app_all_space (s t : string) :
  all_space (String.rev_app s t) = all_space s && all_space t.
Proof.
  revert t. induction s as [|c s IH]; intros t; simpl; [done|].
  rewrite IH. simpl. by destruct (isspace c), (all_space s), (all_space t).
Qed.

Lemma lstrip_empty (s : string) : lstrip s = EmptyString ↔ all_space s = true.
Proof.
  induction s as [|c s IH]; simpl; [done|].
  destruct (isspace c); simpl; [exact IH | split; discriminate].
Qed.

(** [s.strip()] is empty exactly when [s] is white space only. *)
Lemma strip_empty (s : string) : strip s = EmptyString ↔ all_space s = true.
Proof.
  unfold strip, rstrip, String.rev.
  split.
  - intros H.
    assert (Hl : lstrip (String.rev_app (lstrip s) "") = EmptyString).
    { apply (f_equal String.length) in H. rewrite rev_app_length in H.
      destruct (lstrip (String.rev_app (lstrip s) "")); [done | simpl in H; lia]. }
    apply lstrip_empty in Hl. rewrite rev_app_all_space, andb_true_r in Hl.
    clear H. induction s as [|c s IH]; simpl in *; [done|].
    destruct (isspace c) eqn:Hc; simpl in *; [by apply IH|].
    by rewrite Hc in Hl.
  - intros H. apply lstrip_empty in H. rewrite H. reflexivity.
Qed.

Lemma append_nil_r (s : string) : s +:+ EmptyString = s.
Proof. induction s as [|c s IH]; simpl; [done | by rewrite IH]. Qed.

Lemma append_assoc (s t u : string) : (s +:+ t) +:+ u = s +:+ (t +:+ u).
Proof. induction s as [|c s IH]; simpl; [done | by rewrite IH]. Qed.

Lemma append_length (s t : string) :
  String.length (s +:+ t) = (String.length s + String.length t)%nat.
Proof. induction s as [|c s IH]; simpl; [done | by rewrite IH]. Qed.

Lemma rev_app_append (s t u : string) :
  String.rev_app s (t +:+ u) = String.rev_app s t +:+ u.
Proof.
  revert t. induction s as [|c s IH]; intros t; simpl; [done|].
  by rewrite <- IH.
Qed.

Lemma rev_append (s t : string) :
  String.rev (s +:+ t) = String.rev t +:+ String.rev s.
Proof.
  unfold String.rev.
  assert (H : ∀ u, String.rev_app (s +:+ t) u
                   = String.rev_app t (String.rev_app s u)).
  { induction s as [|c s IH]; intros u; simpl; [done | apply IH]. }
  rewrite H, <- rev_app_append. reflexivity.
Qed.

Lemma rev_involutive (s : string) : String.rev (String.rev s) = s.
Proof.
  unfold String.rev.
  assert (H : ∀ t, String.rev_app (String.rev_app s t) EmptyString
                   = String.rev_app t s).
  { induction s as [|c s IH]; intros t; simpl; [done | by rewrite IH]. }
  apply H.
Qed.

Lemma all_space_append (s t : string) :
  all_space (s +:+ t) = all_space s && all_space t.
Proof.
  induction s as [|c s IH]; simpl; [done|]. rewrite IH. by destruct (isspace c).
Qed.

Lemma all_space_rev (s : string) : all_space (String.rev s) = all_space s.
Proof. unfold String.rev. by rewrite rev_app_all_space, andb_true_r. Qed.

Lemma lstrip_append (s t : string) :
  lstrip (s +:+ t) = if all_space s then lstrip t else lstrip s +:+ t.
Proof.
  induction s as [|c s IH]; simpl; [done|].
  destruct (isspace c); simpl; [exact IH | done].
Qed.

Lemma lstrip_all_space (s : string) : all_space s = true → lstrip s = EmptyString.
Proof. apply lstrip_empty. Qed.

Lemma rstrip_all_space (s : string) : all_space s = true → rstrip s = EmptyString.
Proof.
  intros H. unfold rstrip. rewrite lstrip_all_space; [done|].
  by rewrite all_space_rev.
Qed.

Lemma rstrip_append (s t : string) :
  rstrip (s +:+ t) = if all_space t then rstrip s else s +:+ rstrip t.
Proof.
  unfold rstrip. rewrite rev_append, lstrip_append, all_space_rev.
  destruct (all_space t); [done|].
  by rewrite rev_append, rev_involutive.
Qed.

Lemma lstrip_idemp (s : string) : lstrip (lstrip s) = lstrip s.
Proof.
  induction s as [|c s IH]; simpl; [done|].
  destruct (isspace c) eqn:Hc; [exact IH | simpl; by rewrite Hc].
Qed.

Lemma rstrip_idemp (s : string) : rstrip (rstrip s) = rstrip s.
Proof. unfold rstrip. by rewrite rev_involutive, lstrip_idemp. Qed.

Lemma rstrip_single (c : ascii) :
  isspace c = false → rstrip (String c EmptyString) = String c EmptyString.
Proof. intros Hc. unfold rstrip. simpl. by rewrite Hc. Qed.

Lemma rstrip_cons (c : ascii) (s : string) :
  rstrip (String c s)
  = if all_space s then rstrip (String c EmptyString) else String c (rstrip s).
Proof.
  change (String c s) with (String c EmptyString +:+ s).
  rewrite rstrip_append. by destruct (all_space s).
Qed.

(** Stripping on the left and on the right commute. *)
Lemma lstrip_rstrip (s : string) : lstrip (rstrip s) = rstrip (lstrip s).
Proof.
  induction s as [|c s IH]; [done|].
  rewrite rstrip_cons. cbn [lstrip]. destruct (isspace c) eqn:Hc.
  - destruct (all_space s) eqn:Hs.
    + rewrite (rstrip_all_space (String c EmptyString)) by (simpl; by rewrite Hc).
      by rewrite (lstrip_all_space s), rstrip_all_space.
    + cbn [lstrip]. by rewrite Hc.
  - rewrite (rstrip_cons c s), rstrip_single by done.
    destruct (all_space s); cbn [lstrip]; by rewrite Hc.
Qed.

Lemma strip_rstrip (s : string) : strip (rstrip s) = strip s.
Proof. unfold strip. by rewrite lstrip_rstrip, rstrip_idemp. Qed.

Lemma strip_all_space (s : string) : all_space s = true → strip s = EmptyString.
Proof. apply strip_empty. Qed.

Lemma has_space_append (s t : string) :
  has_space (s +:+ t) = has_space s || has_space t.
Proof.
  induction s as [|c s IH]; simpl; [done|]. rewrite IH. by destruct (isspace c).
Qed.

(** A text without white space is left alone by the three strips. *)
Lemma lstrip_no_space (s t : string) :
  has_space s = false → s ≠ EmptyString → lstrip (s +:+ t) = s +:+ t.
Proof.
  destruct s as [|c s]; [done|]. simpl.
  destruct (isspace c); [discriminate | done].
Qed.

Lemma rstrip_no_space (s : string) : has_space s = false → rstrip s = s.
Proof.
  induction s as [|c s IH]; [done|]. simpl.
  destruct (isspace c) eqn:Hc; [discriminate|]. simpl. intros Hs.
  rewrite rstrip_cons, IH by done.
  destruct (all_space s) eqn:Ha; [|done].
  rewrite rstrip_single by done.
  destruct s as [|d s]; [done|]. simpl in *.
  by destruct (isspace d).
Qed.

Lemma all_space_no_space (s : string) :
  has_space s = false → s ≠ EmptyString → all_space s = false.
Proof.
  destruct s as [|c s]; [done|]. simpl. by destruct (isspace c).
Qed.

Lemma isspace_lower_char (c : ascii) : isspace (lower_char c) = isspace c.
Proof. destruct c as [[] [] [] [] [] [] [] []]; reflexivity. Qed.

Lemma has_space_lower (s : string) : has_space (lower s) = has_space s.
Proof.
  induction s as [|c s IH]; simpl; [done|].
  by rewrite isspace_lower_char, IH.
Qed.

Lemma lower_append (s t : string) : lower (s +:+ t) = lower s +:+ lower t.
Proof. induction s as [|c s IH]; simpl; [done | by rewrite IH]. Qed.

Lemma lower_length (s : string) : String.length (lower s) = String.length s.
Proof. induction s as [|c s IH]; simpl; [done | by rewrite IH]. Qed.

Lemma prefix_append (s t : string) : String.prefix s (s +:+ t) = true.
Proof.
  induction s as [|c s IH]; simpl; [by destruct t|].
  destruct (ascii_dec c c); [exact IH | done].
Qed.

Lemma has_char_append (c : ascii) (s t : string) :
  has_char c (s +:+ t) = has_char c s || has_char c t.
Proof.
  induction s as [|d s IH]; simpl; [done|]. rewrite IH. by destruct (Ascii.eqb c d).
Qed.

(** What [rstrip] removes is white space. *)
Lemma rstrip_split (s : string) :
  ∃ t, s = rstrip s +:+ t ∧ all_space t = true.
Proof.
  induction s as [|c s (t & Hs & Ht)]; [by exists EmptyString|].
  rewrite rstrip_cons. destruct (all_space s) eqn:Ha.
  - destruct (isspace c) eqn:Hc.
    + exists (String c s). rewrite rstrip_all_space by (simpl; by rewrite Hc).
      split; [done | simpl; by rewrite Hc].
    + exists s. by rewrite rstrip_single.
  - exists t. split; [simpl; by rewrite <- Hs | exact Ht].
Qed.

Lemma has_char_rstrip (c : ascii) (s : string) :
  has_char c s = false → has_char c (rstrip s) = false.
Proof.
  destruct (rstrip_split s) as (t & Hs & _). intros H.
  rewrite Hs, has_char_append in H. by apply orb_false_iff in H as [? _].
Qed.

End StringFacts.

(** ** The records of a run *)

Section RunRecords.
Import Py Json LangGraph Orchestrator.
Context {State Update : Type}.
Variable merge : State → Update → State.
Variables ingest_node extract_node analyze_node match_node decide_node
  : State → result Update.
Variables retrieve_node generate_node comply_node : State → result Update.
Variables sentiment_node health_node alert_node recovery_node
  : State → result Update.
Variable qualification_state : string → State.
Variable proposal_state : Deal → State.
Variable monitoring_state : Deal → list Monitoring.communication → State.

#[local] Abbreviation run_qualification :=
  (run_qualification_flow merge ingest_node extract_node analyze_node match_node
     decide_node qualification_state).
#[local] Abbreviation run_proposal :=
  (run_proposal_flow merge retrieve_node generate_node comply_node proposal_state).
#[local] Abbreviation run_monitoring :=
  (run_monitoring_flow merge sentiment_node health_node alert_node recovery_node
     monitoring_state).
#[local] Abbreviation run_agent :=
  (run_agent_flow merge ingest_node extract_node analyze_node match_node decide_node
     retrieve_node generate_node comply_node
     sentiment_node health_node alert_node recovery_node
     qualification_state proposal_state monitoring_state).

Lemma written_in_progress (steps : list string) (total : Z)
    (ran : list task_update * result (list (string * Update))) :
  sync_shape steps total ran →
  total = Z.of_nat (length steps) →
  Forall in_progress ran.1.
Proof.
  intros (k & _ & Hnum & Hall & Hres) Htotal.
  assert (Hk : (k ≤ length steps)%nat) by (destruct ran.2; lia).
  apply Forall_lookup. intros i u Hu.
  pose proof (proj1 (Forall_lookup _ _) Hall i u Hu) as [Htot Hst].
  assert (Hn : map step_number ran.1 !! i = Some (step_number u))
    by (by rewrite list_lookup_fmap, Hu).
  rewrite Hnum, list_lookup_fmap in Hn.
  destruct (seq 1 k !! i) as [n|] eqn:Hseq; [|discriminate].
  apply lookup_seq in Hseq as [-> Hi]. injection Hn as Hn.
  unfold in_progress. rewrite Hst, Htot, <- Hn. split; [reflexivity | lia].
Qed.

Lemma finish_terminal (first : task_update) (total : Z) (done_message : string)
    (save : list (string * Update) → result (list (string * json)))
    (steps : list string)
    (ran : list task_update * result (list (string * Update))) :
  sync_shape steps total ran →
  total = Z.of_nat (length steps) →
  in_progress first →
  total_steps first = total →
  ends_terminal (finish [first] total done_message save ran).
Proof.
  intros Hshape Htotal Hfirst Hftotal.
  assert (Hpos : 1 ≤ total) by (destruct Hfirst as [_ ?]; lia).
  pose proof (written_in_progress steps total ran Hshape Htotal) as Hwritten.
  destruct Hshape as (k & _ & _ & _ & Hres).
  destruct ran as [written result]. simpl in *.
  assert (Hfail : ∀ e, terminal (send_update "error" 0 total "failed"
                                   ("Error: " +:+ exn_msg e) [])).
  { intros e. right. simpl. repeat split; lia. }
  unfold ends_terminal. simpl.
  destruct result as [accumulated|e].
  - destruct Hres as [_ Hacc]. rewrite bool_decide_false by exact Hacc.
    destruct (save accumulated) as [payload|e].
    + eexists (first :: written), _. split; [reflexivity|].
      split; [by constructor|]. left. by simpl.
    + eexists (first :: written), _. split; [reflexivity|].
      split; [by constructor | apply Hfail].
  - eexists (first :: written), _. split; [reflexivity|].
    split; [by constructor | apply Hfail].
Qed.

Lemma stopped_terminal (total : Z) (message : string) :
  0 ≤ total →
  ends_terminal (stopped (send_update "error" 0 total "failed" message [])).
Proof.
  intros Htotal. exists [], (send_update "error" 0 total "failed" message []).
  split; [reflexivity|]. split; [constructor|]. right. by simpl.
Qed.

Lemma flows_end_terminal (w : @world Update) (flow_type : string)
    (document_id : option string) :
  ∃ before final,
    store (run_agent w flow_type document_id)
    = Initializing ("Starting " +:+ flow_type +:+ " flow...")
      :: map Posted (before ++ [final])
    ∧ Forall in_progress before ∧ terminal final.
Proof.
  assert (H : ∀ r, ends_terminal r →
            ∃ before final,
              Initializing ("Starting " +:+ flow_type +:+ " flow...")
              :: map Posted (posted r)
              = Initializing ("Starting " +:+ flow_type +:+ " flow...")
                :: map Posted (before ++ [final])
              ∧ Forall in_progress before ∧ terminal final).
  { intros r (before & final & -> & ? & ?). by exists before, final. }
  unfold run_agent_flow. cbn [store].
  destruct (String.eqb flow_type "qualification").
  { apply H. unfold run_qualification_flow.
    destruct (w_deal w) as [deal|]; [|by apply stopped_terminal].
    destruct (bool_decide (gather_documents w document_id = []));
      [by apply stopped_terminal|].
    destruct (String.eqb _ EmptyString); [by apply stopped_terminal|].
    eapply finish_terminal; [apply (qualification_shape merge) | reflexivity | | reflexivity].
    split; [reflexivity | simpl; lia]. }
  destruct (String.eqb flow_type "proposal").
  { apply H. unfold run_proposal_flow.
    destruct (w_deal w) as [deal|]; [|by apply stopped_terminal].
    eapply finish_terminal; [apply (proposal_shape merge) | reflexivity | | reflexivity].
    split; [reflexivity | simpl; lia]. }
  destruct (String.eqb flow_type "monitoring").
  { apply H. unfold run_monitoring_flow.
    destruct (w_deal w) as [deal|]; [|by apply stopped_terminal].
    destruct (fetch_communications w deal) as [real_comms reason].
    destruct (bool_decide (real_comms = [])).
    - eexists [_], _. split; [reflexivity|]. split.
      + constructor; [|constructor]. split; [reflexivity | simpl; lia].
      + left. by simpl.
    - eapply finish_terminal; [apply (monitoring_shape merge) | reflexivity | | reflexivity].
      split; [reflexivity | simpl; lia]. }
  apply H. by apply stopped_terminal.
Qed.

(** X3: whatever the flow type, the world and the behaviour of the stages,
    the task store of a run holds the initial record, then records in
    progress whose stage index lies between 1 and the total, then one final
    record that is either completed (step "complete", index equal to the
    total) or failed (step "error", index 0): a run never leaves the store on
    a record in progress. *)
Theorem run_ends_with_terminal_record (w : @world Update) (flow_type : string)
    (document_id : option string) :
  ∃ before final,
    store (run_agent w flow_type document_id)
    = Initializing ("Starting " +:+ flow_type +:+ " flow...")
      :: map Posted (before ++ [final])
    ∧ Forall in_progress before
    ∧ terminal final
    ∧ last (store (run_agent w flow_type document_id)) = Some (Posted final).
Proof.
  destruct (flows_end_terminal w flow_type document_id)
    as (before & final & Hstore & Hbefore & Hfinal).
  exists before, final. repeat split; try done.
  rewrite Hstore, map_app. simpl.
  by rewrite app_comm_cons, last_snoc.
Qed.

(** X6: what the status endpoint answers once a run is over. The wrapper
    [run_agent_task_async] marks the task "completed" as soon as
    [run_agent_flow] returns, also when the flow failed; the endpoint lets the
    final record of the task store win, so it reports "failed" with the message
    of that record as error in that case, and "completed" with index equal to
    the total and no error otherwise; the reported index always lies between 0
    and the reported total. *)
Theorem status_reports_final_record (w : @world Update) (flow_type : string)
    (document_id : option string)
    (json_dumps : list (string * json) → result string)
    (str : list (string * json) → string)
    (task_id deal_id now started ended : string)
    (agent_tasks : gmap string AgentsRouter.agent_task)
    (task_store : gmap string store_entry) :
  let run := run_agent w flow_type document_id in
  let task :=
    AgentsRouter.run_agent_task_async
      (AgentsRouter.queued_task task_id deal_id flow_type now) (Ok run)
      started ended in
  agent_tasks !! task_id = Some task →
  task_store !! task_id = last (store run) →
  ∃ answer final,
    AgentsRouter.get_agent_task_status json_dumps str agent_tasks task_store task_id
    = AgentsRouter.Returned answer
    ∧ last (store run) = Some (Posted final)
    ∧ AgentsRouter.at_status task = "completed"
    ∧ AgentsRouter.ts_status answer = status final
    ∧ AgentsRouter.ts_step_number answer = step_number final
    ∧ AgentsRouter.ts_total_steps answer = total_steps final
    ∧ 0 ≤ AgentsRouter.ts_step_number answer ≤ AgentsRouter.ts_total_steps answer
    ∧ (AgentsRouter.ts_status answer = "completed"
       ∧ AgentsRouter.ts_step_number answer = AgentsRouter.ts_total_steps answer
       ∧ AgentsRouter.ts_error answer = None
       ∨ AgentsRouter.ts_status answer = "failed"
         ∧ AgentsRouter.ts_step_number answer = 0
         ∧ AgentsRouter.ts_error answer = Some (message final)).
Proof.
  intros run task Htask Hstore.
  destruct (flows_end_terminal w flow_type document_id)
    as (before & final & Hrun & _ & Hfinal).
  assert (Hlast : last (store run) = Some (Posted final)).
  { unfold run. rewrite Hrun, map_app. simpl.
    by rewrite app_comm_cons, last_snoc. }
  rewrite Hlast in Hstore.
  unfold AgentsRouter.get_agent_task_status. rewrite Htask, Hstore.
  eexists _, final. split; [reflexivity|]. simpl.
  split; [exact Hlast|]. split; [reflexivity|].
  split; [reflexivity|]. split; [reflexivity|]. split; [reflexivity|].
  destruct Hfinal as [(Hst & _ & Hnum & Hpos) | (Hst & _ & Hnum & Hpos)].
  - split; [lia|]. left. split; [exact Hst|]. split; [exact Hnum|].
    rewrite Hst. reflexivity.
  - split; [lia|]. right. split; [exact Hst|]. split; [exact Hnum|].
    rewrite Hst. reflexivity.
Qed.

End RunRecords.


Lemma status_reports_final_record_witness :
  demo_tasks !! "t1"
  = Some (AgentsRouter.run_agent_task_async
            (AgentsRouter.queued_task "t1" "deal-1" "proposal" "2026-01-15T09:00:00")
            (Py.Ok (demo_run (named_stage "sentiment") world_ready "proposal"))
            "2026-01-15T09:00:01" "2026-01-15T09:00:09")
  ∧ demo_store !! "t1"
    = last (Orchestrator.store
              (demo_run (named_stage "sentiment") world_ready "proposal"))
  ∧ ∃ answer,
      AgentsRouter.get_agent_task_status (λ _, Py.Ok "{}") (λ _, "{}")
        demo_tasks demo_store "t1"
      = AgentsRouter.Returned answer
      ∧ 0 ≤ AgentsRouter.ts_step_number answer ≤ AgentsRouter.ts_total_steps answer.
Proof.
  assert (Htask : demo_tasks !! "t1"
                  = Some (AgentsRouter.run_agent_task_async
                            (AgentsRouter.queued_task "t1" "deal-1" "proposal"
                               "2026-01-15T09:00:00")
                            (Py.Ok (demo_run (named_stage "sentiment") world_ready
                                      "proposal"))
                            "2026-01-15T09:00:01" "2026-01-15T09:00:09"))
    by (vm_compute; reflexivity).
  assert (Hstore : demo_store !! "t1"
                   = last (Orchestrator.store
                             (demo_run (named_stage "sentiment") world_ready
                                "proposal")))
    by (vm_compute; reflexivity).
  split; [exact Htask|]. split; [exact Hstore|].
  destruct (status_reports_final_record (λ state update, state ++ [update])
              (named_stage "ingest") (named_stage "extract") (named_stage "analyze")
              (named_stage "match") (named_stage "decide")
              (named_stage "retrieve") (named_stage "generate") (named_stage "comply")
              (named_stage "sentiment") (named_stage "health") (named_stage "alert")
              (named_stage "recovery") (λ _, []) (λ _, []) (λ _ _, [])
              world_ready "proposal" None (λ _, Py.Ok "{}") (λ _, "{}")
              "t1" "deal-1" "2026-01-15T09:00:00" "2026-01-15T09:00:01"
              "2026-01-15T09:00:09" demo_tasks demo_store Htask Hstore)
    as (answer & final & Heq & _ & _ & _ & _ & _ & Hbound & _).
  by exists answer.
Defined.
(** ** The emails of a monitoring run *)

Section FetchedEmails.
Import Py Json Orchestrator.
Context {Update : Type}.

Section AnyKey.
Context {A B K : Type}.
Variable ltb : K → K → bool.

Lemma insert_desc_permutation (key : A → K) (x : A) (l : list A) :
  insert_desc ltb key x l ≡ₚ x :: l.
Proof.
  induction l as [|y l IH]; simpl; [done|].
  destruct (ltb (key x) (key y)); [|done].
  rewrite IH. apply Permutation_swap.
Qed.

Lemma sort_desc_permutation (key : A → K) (l : list A) :
  sort_desc ltb key l ≡ₚ l.
Proof.
  induction l as [|x l IH]; simpl; [done|].
  by rewrite insert_desc_permutation, IH.
Qed.

(** Sorting pairs by a key kept in the second component. *)
Lemma sort_desc_paired (f : A → B) (key : A → K) (l : list A) :
  sort_desc ltb snd (map (λ a, (f a, key a)) l)
  = map (λ a, (f a, key a)) (sort_desc ltb key l).
Proof.
  induction l as [|x l IH]; simpl; [done|]. rewrite IH.
  generalize (sort_desc ltb key l). clear. intros l.
  induction l as [|y l IH]; simpl; [done|].
  destruct (ltb (key x) (key y)); simpl; [by rewrite IH | done].
Qed.

(** With a comparison that never holds both ways, no item of the sorted
    list is followed by one with a greater key. *)
Lemma sort_desc_sorted (key : A → K) (l : list A) :
  (∀ a b, ltb a b = true → ltb b a = false) →
  Sorted (λ a b, ltb (key a) (key b) = false) (sort_desc ltb key l).
Proof.
  intros Hasym. induction l as [|x l IH]; simpl; [constructor|].
  revert IH. generalize (sort_desc ltb key l). clear l. intros l Hl.
  induction Hl as [|y l Hl IH Hy]; simpl; [by repeat constructor|].
  destruct (ltb (key x) (key y)) eqn:Hxy.
  - constructor; [exact IH|].
    destruct l as [|z l]; simpl.
    + constructor. by apply Hasym.
    + destruct (ltb (key x) (key z)).
      * constructor. by inversion Hy.
      * constructor. by apply Hasym.
  - constructor; [by constructor | by constructor].
Qed.

End AnyKey.

Lemma string_ltb_asym (a b : string) :
  String.ltb a b = true → String.ltb b a = false.
Proof.
  unfold String.ltb. rewrite (String.compare_antisym b a).
  by destruct (String.compare a b).
Qed.

(** X19: the communications a monitoring run analyses. When the fetch
    yields any, a Google account is connected, its client could be built,
    and the emails come from one query: the one for the client name since the
    last run when the deal has a client name and that query found something,
    else the one for the last three days. Every email gives exactly one
    communication, dated by the first ten characters of its date; they are
    arranged so that no email is followed by one whose date string is
    greater; and no reason for missing emails is reported. *)
Theorem fetched_communications_newest_first (w : @world Update) (deal : Deal) :
  let client_name := str_or (deal_client_name deal) EmptyString in
  let client_query := client_name +:+ " after:" +:+ w_after_filter w in
  (fetch_communications w deal).1 ≠ [] →
  ∃ user_id gmail emails ordered,
    w_oauth w = Some user_id
    ∧ w_get_gmail_client w user_id = Ok (Some gmail)
    ∧ (client_name ≠ EmptyString
       ∧ search_emails gmail client_query 15 = Ok emails
       ∨ (client_name = EmptyString ∨ search_emails gmail client_query 15 = Ok [])
         ∧ search_emails gmail "newer_than:3d" 5 = Ok emails)
    ∧ emails ≠ []
    ∧ ordered ≡ₚ emails
    ∧ Sorted (λ a b, String.ltb (raw_date a) (raw_date b) = false) ordered
    ∧ (fetch_communications w deal).1 = communication_of <$> ordered
    ∧ (fetch_communications w deal).2 = None.
Proof.
  intros client_name client_query. unfold fetch_communications.
  fold client_name. fold client_query.
  destruct (w_oauth w) as [user_id|]; [|done].
  cbn [mbind result_bind Py.bind].
  destruct (w_get_gmail_client w user_id) as [[gmail|]|e] eqn:Hgmail; [|done..].
  cbn [mbind result_bind Py.bind].
  assert (Hconv : ∀ emails : list email,
            map fst (sort_desc String.ltb snd
                       (map (λ e, (communication_of e, raw_date e)) emails))
            = communication_of <$> sort_desc String.ltb raw_date emails).
  { intros emails. rewrite sort_desc_paired, map_map. reflexivity. }
  assert (Hend : ∀ emails : list email,
            map fst (sort_desc String.ltb snd
                       (map (λ e, (communication_of e, raw_date e)) emails)) ≠ [] →
            emails ≠ []
            ∧ sort_desc String.ltb raw_date emails ≡ₚ emails
            ∧ Sorted (λ a b, String.ltb (raw_date a) (raw_date b) = false)
                     (sort_desc String.ltb raw_date emails)).
  { intros emails Hne. split; [by intros ->|].
    split; [apply sort_desc_permutation|].
    apply sort_desc_sorted, string_ltb_asym. }
  destruct (String.eqb_spec client_name EmptyString) as [Hnone|Hclient].
  - cbn [mbind result_bind Py.bind orb].
    destruct (search_emails gmail "newer_than:3d" 5) as [emails|e] eqn:Hrecent;
      [|done].
    cbn [mbind result_bind Py.bind fst snd].
    fold communication_of. intros Hne.
    change (λ e, (communication_of e, default EmptyString (e_date e)))
      with (λ e, (communication_of e, raw_date e)) in *.
    destruct (Hend emails Hne) as (? & ? & ?).
    exists user_id, gmail, emails, (sort_desc String.ltb raw_date emails).
    rewrite bool_decide_false by exact Hne.
    split; [done|]. split; [done|].
    split; [right; split; [by left | done]|].
    split; [done|]. split; [done|]. split; [done|].
    split; [apply Hconv | reflexivity].
  - destruct (search_emails gmail client_query 15) as [found|e] eqn:Hfound; [|done].
    cbn [mbind result_bind Py.bind orb].
    case_bool_decide as Hempty.
    + destruct (search_emails gmail "newer_than:3d" 5) as [emails|e] eqn:Hrecent;
        [|done].
      cbn [mbind result_bind Py.bind fst snd]. intros Hne.
      change (λ e, (_, default EmptyString (e_date e)))
        with (λ e, (communication_of e, raw_date e)) in *.
      destruct (Hend emails Hne) as (? & ? & ?).
      exists user_id, gmail, emails, (sort_desc String.ltb raw_date emails).
      rewrite bool_decide_false by exact Hne.
      split; [done|]. split; [done|].
      split; [right; split; [right; congruence | done]|].
      split; [done|]. split; [done|]. split; [done|].
      split; [apply Hconv | reflexivity].
    + cbn [mbind result_bind Py.bind fst snd]. intros Hne.
      change (λ e, (_, default EmptyString (e_date e)))
        with (λ e, (communication_of e, raw_date e)) in *.
      destruct (Hend found Hne) as (? & ? & ?).
      exists user_id, gmail, found, (sort_desc String.ltb raw_date found).
      rewrite bool_decide_false by exact Hne.
      split; [done|]. split; [done|].
      split; [by left|].
      split; [done|]. split; [done|]. split; [done|].
      split; [apply Hconv | reflexivity].
Qed.

End FetchedEmails.

Lemma fetched_communications_newest_first_witness :
  (Orchestrator.fetch_communications world_ready demo_deal).1 ≠ []
  ∧ (Orchestrator.fetch_communications world_ready demo_deal).2 = None.
Proof.
  assert (H : (Orchestrator.fetch_communications world_ready demo_deal).1 ≠ [])
    by (vm_compute; discriminate).
  split; [exact H|].
  destruct (fetched_communications_newest_first world_ready demo_deal H)
    as (user_id & gmail & emails & ordered & _ & _ & _ & _ & _ & _ & _ & Hreason).
  exact Hreason.
Defined.

(** ** What a qualification run needs to start *)

Section QualificationStart.
Import Py Json LangGraph Orchestrator.
Context {State Update : Type}.
Variable merge : State → Update → State.
Variables ingest_node extract_node analyze_node match_node decide_node
  : State → result Update.
Variable qualification_state : string → State.

#[local] Abbreviation run_qualification :=
  (run_qualification_flow merge ingest_node extract_node analyze_node match_node
     decide_node qualification_state).

Lemma filter_has_text (docs : list Document) :
  List.filter has_text docs = [] ↔ existsb has_text docs = false.
Proof.
  induction docs as [|d docs IH]; simpl; [done|].
  destruct (has_text d); simpl; [split; discriminate | exact IH].
Qed.

(** The combined text is blank exactly when no document has text: every part
    starts with its ["=== ["] header. *)
Lemma document_text_blank (docs : list Document) :
  String.eqb (strip (document_text docs)) EmptyString
  = negb (existsb has_text docs).
Proof.
  unfold document_text.
  destruct (existsb has_text docs) eqn:Hex; simpl.
  - apply String.eqb_neq. rewrite strip_empty.
    destruct (List.filter has_text docs) as [|d ds] eqn:Hf.
    { apply filter_has_text in Hf. congruence. }
    simpl. destruct (map doc_part ds); by simpl.
  - apply filter_has_text in Hex. by rewrite Hex.
Qed.

(** X4: a qualification run reaches its graph exactly when the deal exists
    and one of the gathered documents has text. Otherwise it stops on one
    failed record, whose message tells the three cases apart: no deal, no
    document at all, documents none of which has text. When it starts, the
    first record announces all gathered documents, those without text
    included. *)
Theorem qualification_starts_iff_text (w : @world Update)
    (document_id : option string) :
  let docs := gather_documents w document_id in
  let r := run_qualification w document_id in
  let failed message := [send_update "error" 0 5 "failed" message []] in
  match w_deal w with
  | None => posted r = failed "Deal not found" ∧ executed r = []
  | Some _ =>
      if bool_decide (docs = []) then
        posted r = failed "No processed documents found for this deal"
        ∧ executed r = []
      else if existsb has_text docs then
        ∃ rest,
          posted r
          = send_update "ingest" 1 5 "processing"
              ("Ingesting " +:+ pretty (Z.of_nat (length docs)) +:+ " document(s)...")
              [] :: rest
          ∧ rest ≠ []
      else
        posted r = failed "Documents found but no text could be extracted"
        ∧ executed r = []
  end.
Proof.
  intros docs r failed. unfold r, run_qualification_flow. fold docs.
  destruct (w_deal w) as [deal|]; [|done].
  destruct (bool_decide (docs = [])); [done|].
  rewrite document_text_blank.
  destruct (existsb has_text docs); simpl; [|done].
  match goal with
  | |- context [_run_graph_sync ?m ?g ?s ?steps ?msgs ?t] =>
      destruct (_run_graph_sync m g s steps msgs t) as [written result] eqn:Hran;
      pose proof (qualification_shape m ingest_node extract_node analyze_node
                    match_node decide_node s) as Hshape
  end.
  simpl in Hshape. rewrite Hran in Hshape.
  destruct Hshape as (k & _ & _ & _ & Hres). simpl in Hres.
  eexists. split; [reflexivity|].
  destruct result as [accumulated|e].
  - destruct Hres as [_ Hacc]. rewrite bool_decide_false by exact Hacc.
    destruct (w_save_qualification w accumulated); by destruct written.
  - by destruct written.
Qed.

End QualificationStart.

(** ** The ingest stage on the text of a run *)

Section IngestStage.
Import Py Json Orchestrator Ingest.

Lemma words_go_some (cur s : string) : words_go (Some cur) s ≠ [].
Proof.
  revert cur. induction s as [|c s IH]; intros cur; simpl; [done|].
  destruct (isspace c); [done | apply IH].
Qed.

(** A text with a character that is not white space has a word. *)
Lemma split_ws_nonempty (s : string) : all_space s = false → split_ws s ≠ [].
Proof.
  unfold split_ws. generalize (@None string).
  induction s as [|c s IH]; intros cur; simpl; [done|].
  destruct (isspace c); simpl.
  - intros Hs Hnil. apply app_eq_nil in Hnil as [_ Hnil]. by apply (IH None).
  - intros _. apply words_go_some.
Qed.

Lemma assoc_dict_set (key : string) (v : json) (kv : list (string * json)) :
  assoc key (JsonText.dict_set key v kv) = Some v.
Proof.
  unfold assoc. induction kv as [|[k w] kv IH]; simpl.
  - by rewrite String.eqb_refl.
  - destruct (String.eqb k key) eqn:Hk; simpl; rewrite Hk; [done | exact IH].
Qed.

Lemma assoc_dict_set_ne (key key' : string) (v : json) (kv : list (string * json)) :
  key ≠ key' →
  assoc key (JsonText.dict_set key' v kv) = assoc key kv.
Proof.
  intros Hne. unfold assoc. induction kv as [|[k w] kv IH]; simpl.
  - by rewrite (proj2 (String.eqb_neq key' key)).
  - destruct (String.eqb k key') eqn:Hk; simpl.
    + apply String.eqb_eq in Hk as ->.
      by rewrite (proj2 (String.eqb_neq key' key)).
    + destruct (String.eqb k key); [done | exact IH].
Qed.

(** X5: the text a qualification run hands to its graph is never empty for
    [ingest_node]: whenever the run gets as far as the graph, the stage
    returns no error and metadata with a word count of at least 1 and the
    length of the text as character count; its "No document text provided"
    branch cannot be reached from the driver. *)
Theorem ingest_node_accepts_flow_text {Update : Type} (w : @world Update)
    (document_id : option string) (metadata : option (list (string * json))) :
  prerequisites_met QualificationFlow w document_id = true →
  let text := document_text (gather_documents w document_id) in
  ∃ counted words,
    ingest_node {| st_document_text := Some text;
                   st_document_metadata := metadata |}
    = {| iu_errors := None;
         iu_document_metadata := Some counted;
         iu_current_step := "ingest" |}
    ∧ assoc "word_count" counted = Some (JInt words)
    ∧ 1 ≤ words
    ∧ assoc "char_count" counted = Some (JInt (Z.of_nat (String.length text))).
Proof.
  intros Hmet text. unfold prerequisites_met in Hmet.
  destruct (w_deal w); [|discriminate].
  apply andb_true_iff in Hmet as [_ Hblank]. fold text in Hblank.
  apply negb_true_iff, String.eqb_neq in Hblank.
  assert (Hspace : all_space text = false).
  { destruct (all_space text) eqn:H; [|done]. by apply strip_empty in H. }
  assert (Hne : text ≠ EmptyString) by (intros Heq; by rewrite Heq in Hspace).
  unfold ingest_node. cbn [st_document_text st_document_metadata default from_option id].
  rewrite (proj2 (String.eqb_neq _ _) Hne).
  eexists _, _. split; [reflexivity|].
  split; [by rewrite assoc_dict_set_ne, assoc_dict_set|].
  split; [|by rewrite assoc_dict_set].
  pose proof (split_ws_nonempty text Hspace).
  destruct (split_ws text); [done | simpl; lia].
Qed.

End IngestStage.

Lemma ingest_node_accepts_flow_text_witness :
  prerequisites_met QualificationFlow world_ready None = true
  ∧ ∃ counted,
      Ingest.ingest_node
        {| Ingest.st_document_text :=
             Some (Orchestrator.document_text
                     (Orchestrator.gather_documents world_ready None));
           Ingest.st_document_metadata := None |}
      = {| Ingest.iu_errors := None;
           Ingest.iu_document_metadata := Some counted;
           Ingest.iu_current_step := "ingest" |}.
Proof.
  assert (H : prerequisites_met QualificationFlow world_ready None = true)
    by (vm_compute; reflexivity).
  split; [exact H|].
  destruct (ingest_node_accepts_flow_text world_ready None None H)
    as (counted & words & Heq & _).
  by exists counted.
Defined.

(** ** More on staff matching and auto-assignment *)

Section MatchingTerms.
Import Py Orchestrator.

Lemma rev_app_has_space (s t : string) :
  has_space (String.rev_app s t) = has_space s || has_space t.
Proof.
  revert t. induction s as [|c s IH]; intros t; simpl; [done|].
  rewrite IH. simpl. by destruct (isspace c), (has_space s), (has_space t).
Qed.

(** The words [s.split()] returns hold no white space. *)
Lemma words_go_no_space (cur : option string) (s w : string) :
  has_space (default EmptyString cur) = false →
  w ∈ words_go cur s → has_space w = false.
Proof.
  revert cur. induction s as [|c s IH]; intros cur Hcur; simpl.
  - destruct cur as [cur|]; simpl; [|by intros ?%elem_of_nil].
    intros ->%list_elem_of_singleton. unfold String.rev.
    rewrite rev_app_has_space. simpl in Hcur. by rewrite Hcur.
  - destruct (isspace c) eqn:Hc.
    + rewrite elem_of_app. intros [Hw|Hw]; [|by apply (IH None)].
      destruct cur as [cur|]; simpl in *; [|by apply elem_of_nil in Hw].
      apply list_elem_of_singleton in Hw as ->. unfold String.rev.
      rewrite rev_app_has_space. by rewrite Hcur.
    + apply IH. simpl. by rewrite Hc.
Qed.

Lemma long_words_shape (w s : string) :
  w ∈ long_words s → (3 < String.length w)%nat ∧ has_space w = false.
Proof.
  unfold long_words. rewrite list_elem_of_filter. intros [Hlen Hw].
  split; [exact Hlen|]. by apply (words_go_no_space None s).
Qed.

(** A required keyword is a category or a word of more than three
    characters without white space. *)
Lemma required_keyword_shape (requirements : list extracted_requirement)
    (gap : gap_analysis) (key_roles : list string) (w : string) :
  w ∈ required_keywords requirements gap key_roles →
  (∃ req, req ∈ requirements ∧ w = lower (default EmptyString (er_category req)))
  ∨ ((3 < String.length w)%nat ∧ has_space w = false).
Proof.
  unfold required_keywords.
  rewrite elem_of_list_to_set, !elem_of_app, !list_elem_of_bind.
  intros [(req & Hw & Hreq) | [(area & Hw & _) | (role & Hw & _)]].
  - apply elem_of_app in Hw as [Hw|Hw].
    + right. by apply long_words_shape in Hw.
    + left. apply list_elem_of_singleton in Hw. by exists req.
  - right. by apply long_words_shape in Hw.
  - right. by apply long_words_shape in Hw.
Qed.

(** X7: a matching term of at most three characters, or one with white space
    in it, is always the lower-cased category of a requirement. Requirement
    texts, gap areas and key roles only contribute single words of more than
    three characters, so a skill such as "SQL" or "Machine Learning" counts
    for a ranked record only when a requirement carries it as its category,
    however often the texts mention it. *)
Theorem short_skill_counts_only_as_category (all_employees : list Employee)
    (requirements : list extracted_requirement) (gap : gap_analysis)
    (entry : staff_match) (term : string) :
  entry ∈ match_staff all_employees requirements gap →
  term ∈ sm_matching_skills entry →
  (String.length term ≤ 3)%nat ∨ has_space term = true →
  ∃ req, req ∈ requirements
         ∧ term = lower (default EmptyString (er_category req)).
Proof.
  rewrite match_staff_sorted, sort_desc_perm, list_elem_of_omap.
  intros (emp & _ & Hscore) Hterm Hshape.
  unfold score_employee in Hscore.
  case_bool_decide; [discriminate|]. injection Hscore as <-.
  simpl in Hterm. apply elem_of_elements, elem_of_intersection in Hterm as [_ Hreq].
  apply required_keyword_shape in Hreq as [Hcat | [Hlen Hsp]]; [exact Hcat|].
  destruct Hshape as [Hshort | Hspaced]; [lia | congruence].
Qed.

End MatchingTerms.

Lemma short_skill_counts_only_as_category_witness :
  ∃ req, req ∈ requirements_short
         ∧ "sql" = Py.lower (default EmptyString (Orchestrator.er_category req)).
Proof.
  apply (short_skill_counts_only_as_category roster_short requirements_short no_gap
           {| Orchestrator.sm_employee_id := "e1";
              Orchestrator.sm_name := "Asha";
              Orchestrator.sm_role := "Engineer";
              Orchestrator.sm_skills := ["SQL"; "Machine Learning"];
              Orchestrator.sm_matching_skills := ["sql"];
              Orchestrator.sm_match_score := 1;
              Orchestrator.sm_availability_percent := 80;
              Orchestrator.sm_hourly_rate := 50 |}).
  - vm_compute. constructor.
  - simpl. constructor.
  - left. simpl. lia.
Defined.

Section Rerun.
Import Py Orchestrator.

(** X8: auto-assignment does not accumulate. Running it again on the table a
    first run left (with any ranking in that first run, and whatever row ids
    are drawn) gives what a single run on the original table gives: the rows
    of the first run are all replaced, every other row is kept. *)
Theorem auto_assign_rerun_replaces (uuid4 uuid4' : nat → string)
    (table : list DealAssignment) (deal_id : string)
    (earlier ranking : list staff_match) :
  ranking ≠ [] →
  auto_assign uuid4' (auto_assign uuid4 table deal_id earlier).1 deal_id ranking
  = auto_assign uuid4' table deal_id ranking.
Proof.
  intros Hne.
  assert (Hkept : filter (λ a, ¬ is_auto_of deal_id a)
                         (auto_assign uuid4 table deal_id earlier).1
                  = filter (λ a, ¬ is_auto_of deal_id a) table).
  { unfold auto_assign at 1. case_bool_decide; [reflexivity|].
    destruct (add_assignments uuid4 deal_id (take 5 earlier)
                (filter (λ a, ¬ is_auto_of deal_id a) table) 0)
      as (created & -> & Hall).
    cbn [fst]. rewrite filter_app.
    assert (filter (λ a, ¬ is_auto_of deal_id a) created = []) as ->.
    { clear -Hall. induction Hall as [|a staff created picked Ha _ IH]; [done|].
      rewrite filter_cons, decide_False; [exact IH|].
      intros Hn. apply Hn. destruct Ha as (? & ? & _). by split. }
    rewrite app_nil_r. generalize table. clear.
    induction table as [|a l IH]; [done|].
    rewrite (filter_cons _ a l). destruct (decide (¬ is_auto_of deal_id a)).
    - by rewrite filter_cons, decide_True, IH.
    - exact IH. }
  unfold auto_assign at 1 3. rewrite !bool_decide_false by exact Hne.
  by rewrite Hkept.
Qed.

End Rerun.

Lemma auto_assign_rerun_replaces_witness :
  Orchestrator.match_staff roster_example [] gap_example ≠ []
  ∧ Orchestrator.auto_assign (λ n, "second-" +:+ pretty n)
      (Orchestrator.auto_assign (λ n, "first-" +:+ pretty n) table_example "deal-1"
         (Orchestrator.match_staff roster_example [] gap_example)).1
      "deal-1" (Orchestrator.match_staff roster_example [] gap_example)
    = Orchestrator.auto_assign (λ n, "second-" +:+ pretty n) table_example "deal-1"
        (Orchestrator.match_staff roster_example [] gap_example).
Proof.
  assert (H : Orchestrator.match_staff roster_example [] gap_example ≠ [])
    by (vm_compute; discriminate).
  split; [exact H|].
  exact (auto_assign_rerun_replaces _ _ table_example "deal-1" _ _ H).
Defined.

(** ** What a monitoring run saves *)

Section MonitoringSaved.
Import Py Json Monitoring Orchestrator MonitoringSave.
Variable format_2f : float → string.
Variable uuid4 : nat → string.
Variable json_dumps : list communication → string.
Variable db_commit : list Alert → list RecoveryAction → result unit.
Variable send_deal_risk_alert : risk_call → result WhatsApp.wa_result.

Lemma filter_all {A} (P : A → Prop) `{∀ x, Decision (P x)} (l : list A) :
  Forall P l → filter P l = l.
Proof.
  induction 1 as [|x l Hx _ IH]; [done|].
  by rewrite filter_cons, decide_True, IH.
Qed.

Lemma filter_none {A} (P : A → Prop) `{∀ x, Decision (P x)} (l : list A) :
  Forall (λ x, ¬ P x) l → filter P l = [].
Proof.
  induction 1 as [|x l Hx _ IH]; [done|].
  by rewrite filter_cons, decide_False.
Qed.

Lemma notify_prefix (calls : list risk_call) :
  notify send_deal_risk_alert calls `prefix_of` calls.
Proof.
  induction calls as [|call calls IH]; simpl; [done|].
  destruct (send_deal_risk_alert call).
  - by apply prefix_cons.
  - by exists calls.
Qed.

Lemma notify_all (calls : list risk_call) :
  (∀ call, is_ok (send_deal_risk_alert call) = true) →
  notify send_deal_risk_alert calls = calls.
Proof.
  intros Hok. induction calls as [|call calls IH]; simpl; [done|].
  specialize (Hok call). destruct (send_deal_risk_alert call); [|discriminate].
  by rewrite IH.
Qed.

(** The alerts that go to WhatsApp are the sentiment drop and the deadline
    risk. *)
Lemma risk_alerts_of_node (state : MonitoringState) :
  let sentiment := default 0%float (st_overall_sentiment state) in
  let health := default 70 (st_health_score state) in
  ∃ drop risk,
    filter is_risk (au_detected_alerts (alert_node format_2f state)) = drop ++ risk
    ∧ length drop = (if (sentiment <? -0.3)%float then 1%nat else 0%nat)
    ∧ length risk = (if health <? 50 then 1%nat else 0%nat)
    ∧ Forall (λ a, alert_type a = "sentiment_drop") drop
    ∧ Forall (λ a, alert_type a = "deadline_risk") risk.
Proof.
  intros sentiment health.
  destruct (alert_node_parts format_2f state)
    as (drop & risk & positive & -> & Hdrop & Hrisk & Hpos).
  fold sentiment in Hdrop, Hpos. fold health in Hrisk.
  exists drop, risk.
  assert (Hcomp : filter is_risk
                    (omap competitor_alert (default [] (st_sentiment_scores state)))
                  = []).
  { apply filter_none.
    eapply Forall_impl; [apply competitor_alerts_shape|].
    intros a [_ Hsev] [H|H]; congruence. }
  assert (Hp : filter is_risk positive = []).
  { destruct (_ && _); [|by rewrite Hpos].
    destruct Hpos as (a & -> & _ & Hsev).
    rewrite filter_cons, decide_False; [done|].
    intros [H|H]; congruence. }
  assert (Hd : filter is_risk drop = drop
               ∧ length drop = (if (sentiment <? -0.3)%float then 1%nat else 0%nat)
               ∧ Forall (λ a, alert_type a = "sentiment_drop") drop).
  { destruct (sentiment <? -0.3)%float; [|by rewrite Hdrop].
    destruct Hdrop as (a & -> & Htype & Hsev).
    split; [|by repeat constructor].
    rewrite filter_cons, decide_True; [done|].
    destruct (sentiment <? -0.6)%float; [by left | by right]. }
  assert (Hr : filter is_risk risk = risk
               ∧ length risk = (if health <? 50 then 1%nat else 0%nat)
               ∧ Forall (λ a, alert_type a = "deadline_risk") risk).
  { destruct (health <? 50); [|by rewrite Hrisk].
    destruct Hrisk as (a & -> & Htype & Hsev).
    split; [|by repeat constructor].
    rewrite filter_cons, decide_True; [done | by right]. }
  destruct Hd as (Hd & ? & ?), Hr as (Hr & ? & ?).
  rewrite !filter_app, Hd, Hr, Hcomp, Hp, !app_nil_r. done.
Qed.

(** The stage detects nothing exactly when sentiment and health are within
    bounds, no signal mentions a competitor and the sentiment is not above
    0.2. *)
Lemma alerts_empty (state : MonitoringState) :
  let sentiment := default 0%float (st_overall_sentiment state) in
  let health := default 70 (st_health_score state) in
  let scores := default [] (st_sentiment_scores state) in
  au_detected_alerts (alert_node format_2f state) = []
  ↔ (sentiment <? -0.3)%float = false
    ∧ (health <? 50) = false
    ∧ Forall (λ score, ¬ flagged score) scores
    ∧ (0.2 <? sentiment)%float = false.
Proof.
  intros sentiment health scores.
  destruct (alert_node_parts format_2f state)
    as (drop & risk & positive & -> & Hdrop & Hrisk & Hpos).
  fold sentiment in Hdrop, Hpos. fold health in Hrisk. fold scores in Hpos |- *.
  assert (Hcomp : omap competitor_alert scores = []
                  ↔ Forall (λ score, ¬ flagged score) scores).
  { rewrite <- length_zero_iff_nil, competitor_alerts_length, length_zero_iff_nil.
    split.
    - intros Hnil. apply Forall_forall. intros score Hin Hfl.
      assert (score ∈ filter flagged scores) by (by apply list_elem_of_filter).
      rewrite Hnil in *. by apply elem_of_nil in H.
    - intros Hall. by apply filter_none. }
  rewrite <- Hcomp.
  destruct (sentiment <? -0.3)%float.
  { destruct Hdrop as (a & -> & _). split; [discriminate | by intros [? _]]. }
  destruct (health <? 50).
  { destruct Hrisk as (a & -> & _). subst drop. split; [discriminate|].
    by intros (_ & ? & _). }
  subst drop risk. simpl in *.
  destruct (omap competitor_alert scores) as [|c comp]; simpl in *.
  - destruct (0.2 <? sentiment)%float.
    + destruct Hpos as (a & -> & _). split; [discriminate | by intros (_ & _ & _ & ?)].
    + by subst positive.
  - split; [discriminate | by intros (_ & _ & ? & _)].
Qed.

(** What the block returns when it returns. *)
Lemma save_monitoring_ok (deal_id : string) (deal : Deal)
    (real_comms : list communication)
    (sentiment_out : sentiment_update) (health_out : health_update)
    (alert_out : alert_update) (recovery_out : recovery_update) (kept : saved) :
  save_monitoring uuid4 json_dumps db_commit send_deal_risk_alert deal_id deal
    real_comms sentiment_out health_out alert_out recovery_out
  = Ok kept →
  ∃ subject body,
    parse_recovery_email (deal_title deal) (ru_recovery_email recovery_out)
    = Ok (subject, body)
    ∧ alert_rows uuid4 deal_id (ru_recovery_actions recovery_out)
        (su_overall_sentiment sentiment_out)
        (if bool_decide (real_comms = []) then None else Some (json_dumps real_comms))
        subject body 0 (au_detected_alerts alert_out)
      = Ok (sv_alerts kept, sv_actions kept)
    ∧ sv_health_score kept = hu_health_score health_out
    ∧ sv_status kept
      = (if bool_decide (au_detected_alerts alert_out = []) then None
         else Some "at_risk")
    ∧ sv_whatsapp_calls kept
      = notify send_deal_risk_alert
          ((λ alert_data,
              {| rc_deal_title := deal_title deal;
                 rc_client_name := str_or (deal_client_name deal) "Unknown";
                 rc_alert_type := alert_type alert_data;
                 rc_severity := severity alert_data;
                 rc_health_score := hu_health_score health_out;
                 rc_sentiment_score := su_overall_sentiment sentiment_out;
                 rc_description := description alert_data |})
           <$> filter is_risk (au_detected_alerts alert_out))
    ∧ sv_payload kept
      = [ ("health_score", JInt (hu_health_score health_out));
          ("sentiment", su_overall_sentiment sentiment_out);
          ("alerts_generated",
           JInt (Z.of_nat (length (au_detected_alerts alert_out))));
          ("whatsapp_notified",
           JBool (0 <? length (filter is_risk (au_detected_alerts alert_out)))%nat) ].
Proof.
  unfold save_monitoring.
  destruct (parse_recovery_email _ _) as [[subject body]|e]; [|discriminate].
  cbn [mbind result_bind Py.bind].
  destruct (alert_rows _ _ _ _ _ _ _ _ _) as [[alerts actions]|e] eqn:Hrows;
    [|discriminate].
  cbn [mbind result_bind Py.bind].
  destruct (db_commit alerts actions) as [[]|e]; [|discriminate].
  cbn [mbind result_bind Py.bind]. intros [= <-].
  exists subject, body. by repeat split.
Qed.

(** The rows the two loops add. *)
Lemma alert_rows_shape (deal_id : string) (recovery_actions sentiment : json)
    (source : option string) (subject : string) (body : json)
    (n : nat) (detected : list alert)
    (alerts : list Alert) (added : list RecoveryAction) :
  alert_rows uuid4 deal_id recovery_actions sentiment source subject body n detected
  = Ok (alerts, added) →
  let actions := match iterate recovery_actions with Ok l => l | Raise _ => [] end in
  Forall2 (λ row alert_data,
             al_deal_id row = deal_id
             ∧ al_alert_type row = alert_type alert_data
             ∧ al_severity row = severity alert_data
             ∧ al_title row = alert_title alert_data
             ∧ al_description row = description alert_data
             ∧ al_sentiment_score row = sentiment
             ∧ al_source_context row = source
             ∧ al_email_subject row = subject
             ∧ al_email_body row = body)
          alerts detected
  ∧ (λ action, (ra_alert_id action, ra_action_text action, ra_priority action))
    <$> added
    = alerts ≫= (λ row, imap (λ i action_text,
                                (al_id row, action_text, Z.of_nat i + 1)) actions).
Proof.
  intros Hrows actions. revert n alerts added Hrows.
  induction detected as [|alert_data rest IH]; intros n alerts added; simpl.
  - intros [= <- <-]. split; [constructor | reflexivity].
  - unfold actions. destruct (iterate recovery_actions) as [items|e]; [|discriminate].
    cbn [mbind result_bind Py.bind].
    destruct (alert_rows _ _ _ _ _ _ _ _ rest) as [[alerts' added']|e] eqn:Hrest;
      [|discriminate].
    cbn [mbind result_bind Py.bind]. intros [= <- <-].
    apply IH in Hrest as [Hall Hadded]. split.
    + constructor; [by repeat split | exact Hall].
    + rewrite fmap_app, Hadded. cbn [mbind list_bind]. f_equal.
      rewrite fmap_imap. reflexivity.
Qed.

(** X10: the rows a monitoring run adds. Each detected alert gives one
    [Alert] row, in order, with its type, severity, title and description,
    and all rows share the sentiment, the parsed subject and body of the
    recovery email and the source emails. Every recovery action is stored
    again for each alert, with its 1-based position as priority, so the
    number of [RecoveryAction] rows is the product of the two counts. *)
Theorem monitoring_save_rows (deal_id : string) (deal : Deal)
    (real_comms : list communication)
    (sentiment_out : sentiment_update) (health_out : health_update)
    (alert_out : alert_update) (recovery_out : recovery_update) (kept : saved) :
  save_monitoring uuid4 json_dumps db_commit send_deal_risk_alert deal_id deal
    real_comms sentiment_out health_out alert_out recovery_out
  = Ok kept →
  let actions :=
    match iterate (ru_recovery_actions recovery_out) with
    | Ok l => l
    | Raise _ => []
    end in
  ∃ subject body,
    parse_recovery_email (deal_title deal) (ru_recovery_email recovery_out)
    = Ok (subject, body)
    ∧ Forall2 (λ row alert_data,
                 al_deal_id row = deal_id
                 ∧ al_alert_type row = alert_type alert_data
                 ∧ al_severity row = severity alert_data
                 ∧ al_title row = alert_title alert_data
                 ∧ al_description row = description alert_data
                 ∧ al_sentiment_score row = su_overall_sentiment sentiment_out
                 ∧ al_email_subject row = subject
                 ∧ al_email_body row = body)
              (sv_alerts kept) (au_detected_alerts alert_out)
    ∧ (λ action, (ra_alert_id action, ra_action_text action, ra_priority action))
      <$> sv_actions kept
      = sv_alerts kept
        ≫= (λ row, imap (λ i action_text,
                           (al_id row, action_text, Z.of_nat i + 1)) actions)
    ∧ length (sv_actions kept)
      = (length (au_detected_alerts alert_out) * length actions)%nat.
Proof.
  intros Hsave actions.
  apply save_monitoring_ok in Hsave as (subject & body & Hparse & Hrows & _).
  apply alert_rows_shape in Hrows as [Hall Hadded]. fold actions in Hadded.
  exists subject, body. split; [exact Hparse|].
  split; [eapply Forall2_impl; [exact Hall | naive_solver]|].
  split; [exact Hadded|].
  apply (f_equal length) in Hadded. rewrite length_fmap in Hadded.
  rewrite Hadded. apply Forall2_length in Hall. rewrite <- Hall.
  clear. induction (sv_alerts kept) as [|row rows IH]; [done|].
  cbn [mbind list_bind]. rewrite length_app, length_imap.
  change (length (rows ≫= _)) with
    (length (rows ≫= (λ row, imap (λ i action_text,
                                     (al_id row, action_text, Z.of_nat i + 1))
                                  actions))).
  rewrite IH. simpl. lia.
Qed.

(** X9: what a monitoring run saves, in terms of the thresholds of the alert
    stage. When the block returns, it reports [whatsapp_notified] exactly
    when the sentiment is below -0.3 or the health below 50, whether or not
    any message could be delivered; at most two WhatsApp calls are made, for
    the sentiment drop and the deadline risk in that order, and all of them
    when no call raises; the deal is marked "at_risk" as soon as the stage
    detected anything, a competitor mention and even a lone positive update
    included, and its status is left alone otherwise. *)
Theorem monitoring_save_follows_alerts (deal_id : string) (deal : Deal)
    (real_comms : list communication)
    (sentiment_out : sentiment_update) (health_out : health_update)
    (recovery_out : recovery_update) (state : MonitoringState) (kept : saved) :
  let sentiment := default 0%float (st_overall_sentiment state) in
  let health := default 70 (st_health_score state) in
  let scores := default [] (st_sentiment_scores state) in
  save_monitoring uuid4 json_dumps db_commit send_deal_risk_alert deal_id deal
    real_comms sentiment_out health_out (alert_node format_2f state) recovery_out
  = Ok kept →
  assoc "whatsapp_notified" (sv_payload kept)
  = Some (JBool ((sentiment <? -0.3)%float || (health <? 50)))
  ∧ map rc_alert_type (sv_whatsapp_calls kept)
    `prefix_of` (if (sentiment <? -0.3)%float then ["sentiment_drop"] else [])
                ++ (if health <? 50 then ["deadline_risk"] else [])
  ∧ ((∀ call, is_ok (send_deal_risk_alert call) = true) →
     map rc_alert_type (sv_whatsapp_calls kept)
     = (if (sentiment <? -0.3)%float then ["sentiment_drop"] else [])
       ++ (if health <? 50 then ["deadline_risk"] else []))
  ∧ sv_status kept
    = (if bool_decide ((sentiment <? -0.3)%float = false
                       ∧ (health <? 50) = false
                       ∧ Forall (λ score, ¬ flagged score) scores
                       ∧ (0.2 <? sentiment)%float = false)
       then None else Some "at_risk")
  ∧ sv_health_score kept = hu_health_score health_out
  ∧ assoc "alerts_generated" (sv_payload kept)
    = Some (JInt (Z.of_nat (length (au_detected_alerts (alert_node format_2f state))))).
Proof.
  intros sentiment health scores Hsave.
  apply save_monitoring_ok in Hsave
    as (subject & body & _ & _ & Hhealth & Hstatus & Hcalls & Hpayload).
  rewrite Hpayload, Hcalls, Hstatus, Hhealth.
  cbn [assoc List.find fst snd String.eqb Ascii.eqb Bool.eqb fmap option_fmap option_map].
  destruct (risk_alerts_of_node state) as (drop & risk & Hfilter & Hdl & Hrl & Hdt & Hrt).
  fold sentiment in Hdl. fold health in Hrl.
  rewrite Hfilter.
  set (call_of := λ alert_data : alert, _).
  assert (Htypes : map rc_alert_type (call_of <$> (drop ++ risk))
                   = (if (sentiment <? -0.3)%float then ["sentiment_drop"] else [])
                     ++ (if health <? 50 then ["deadline_risk"] else [])).
  { rewrite fmap_app, map_app. f_equal.
    - destruct (sentiment <? -0.3)%float; destruct drop as [|a [|??]];
        try discriminate; [|done].
      apply Forall_cons in Hdt as [Ha _]. simpl. by rewrite Ha.
    - destruct (health <? 50); destruct risk as [|a [|??]];
        try discriminate; [|done].
      apply Forall_cons in Hrt as [Ha _]. simpl. by rewrite Ha. }
  split.
  { do 2 f_equal. rewrite length_app, Hdl, Hrl.
    by destruct (sentiment <? -0.3)%float, (health <? 50). }
  split.
  { rewrite <- Htypes.
    destruct (notify_prefix (call_of <$> (drop ++ risk)))
      as [rest Hrest].
    exists (map rc_alert_type rest). rewrite <- map_app. f_equal. exact Hrest. }
  split.
  { intros Hok. by rewrite notify_all. }
  split; [|done].
  pose proof (alerts_empty state) as Hempty. cbv zeta in Hempty.
  fold sentiment health scores in Hempty.
  case_bool_decide as Hnone; case_bool_decide as Hcalm; try done.
  - by apply Hempty in Hnone.
  - by apply Hempty in Hcalm.
Qed.

End MonitoringSaved.

Lemma monitoring_save_follows_alerts_witness :
  ∃ kept,
    demo_save (Monitoring.alert_node (λ _, "-0.50") worried_state) = Py.Ok kept
    ∧ Json.assoc "whatsapp_notified" (MonitoringSave.sv_payload kept)
      = Some (Json.JBool true)
    ∧ MonitoringSave.sv_status kept = Some "at_risk".
Proof.
  destruct (demo_save (Monitoring.alert_node (λ _, "-0.50") worried_state))
    as [kept|e] eqn:Hsave; [|vm_compute in Hsave; discriminate].
  exists kept. split; [reflexivity|]. unfold demo_save in Hsave.
  destruct (monitoring_save_follows_alerts _ _ _ _ _ _ _ _ _ _ _ _ _ Hsave)
    as (Hnotified & _ & _ & Hstatus & _).
  split.
  - etrans; [exact Hnotified|]. vm_compute. reflexivity.
  - etrans; [exact Hstatus|]. vm_compute. reflexivity.
Defined.

Lemma monitoring_save_rows_witness :
  ∃ kept,
    demo_save (Monitoring.alert_node (λ _, "-0.50") worried_state) = Py.Ok kept
    ∧ length (MonitoringSave.sv_actions kept) = 2%nat.
Proof.
  destruct (demo_save (Monitoring.alert_node (λ _, "-0.50") worried_state))
    as [kept|e] eqn:Hsave; [|vm_compute in Hsave; discriminate].
  exists kept. split; [reflexivity|]. unfold demo_save in Hsave.
  destruct (monitoring_save_rows _ _ _ _ _ _ _ _ _ _ _ _ Hsave)
    as (subject & body & _ & _ & _ & Hlen).
  etrans; [exact Hlen|]. vm_compute. reflexivity.
Defined.

(** ** The recovery email *)

Section RecoveryEmail.
Import Py PyStr Json MonitoringSave.
#[local] Arguments append _ _ : simpl nomatch.

Lemma has_char_space (c : ascii) (s : string) :
  isspace c = true → has_space s = false → has_char c s = false.
Proof.
  intros Hc. induction s as [|d s IH]; simpl; [done|].
  destruct (isspace d) eqn:Hd; [discriminate|]. simpl. intros Hs.
  rewrite IH by done. destruct (Ascii.eqb_spec c d) as [->|]; [congruence | done].
Qed.

Lemma prefix_nl (c : ascii) (s : string) :
  String.prefix nl (String c s) = Ascii.eqb newline c.
Proof.
  unfold nl, newline. cbn [String.prefix].
  destruct (ascii_dec (ascii_of_nat 10) c) as [<-|Hne].
  - by destruct s.
  - symmetry. by apply Ascii.eqb_neq.
Qed.

Lemma split_once_go_first (cur x y : string) :
  has_char newline x = false →
  split_once_go nl cur (x +:+ nl +:+ y) = [String.rev_app cur x; y].
Proof.
  revert cur. induction x as [|c x IH]; intros cur.
  - intros _. change (EmptyString +:+ nl +:+ y) with (String newline y).
    cbn [split_once_go]. rewrite prefix_nl, Ascii.eqb_refl. reflexivity.
  - cbn [has_char]. intros [Hc Hx]%orb_false_iff.
    change (String c x +:+ nl +:+ y) with (String c (x +:+ nl +:+ y)).
    cbn [split_once_go]. rewrite prefix_nl, Hc. by rewrite IH.
Qed.

Lemma split_once_go_none (cur x : string) :
  has_char newline x = false →
  split_once_go nl cur x = [String.rev_app cur x].
Proof.
  revert cur. induction x as [|c x IH]; intros cur; [done|].
  cbn [has_char]. intros [Hc Hx]%orb_false_iff.
  cbn [split_once_go]. rewrite prefix_nl, Hc. by rewrite IH.
Qed.

Lemma slice_from_append (s t : string) :
  slice_from (String.length s) (s +:+ t) = t.
Proof. induction s as [|c s IH]; simpl; [by destruct t | exact IH]. Qed.

(** X11: a recovery email that opens with a subject line is split at that
    line. For a reply of the form [head subject LF body], where [head] is
    "subject:" in any mix of upper and lower case and [subject] holds no line
    feed, the stored subject is [subject] without surrounding white space and
    the stored body is [body] without surrounding white space (empty when the
    body is blank), whatever the deal title. *)
Theorem recovery_email_subject_and_body (deal_title head subject body : string) :
  lower head = "subject:" →
  has_char newline subject = false →
  parse_recovery_email deal_title (JStr (head +:+ subject +:+ nl +:+ body))
  = Ok (strip subject, JStr (strip body)).
Proof.
  intros Hhead Hsubject.
  assert (Hlen : String.length head = 8%nat)
    by (by rewrite <- lower_length, Hhead).
  assert (Hsp : has_space head = false)
    by (by rewrite <- has_space_lower, Hhead).
  assert (Hne : head ≠ EmptyString) by (by destruct head).
  assert (Hnl : has_char newline head = false) by (by apply has_char_space).
  set (raw := head +:+ subject +:+ nl +:+ body).
  assert (Hraw : String.eqb raw EmptyString = false).
  { unfold raw. destruct head; [done | reflexivity]. }
  assert (Hstrip : strip raw
                   = if all_space body then head +:+ rstrip subject
                     else (head +:+ subject) +:+ nl +:+ rstrip body).
  { unfold strip, raw. rewrite lstrip_no_space by done.
    rewrite rstrip_append, rstrip_append, rstrip_append, !all_space_append.
    change (all_space nl) with true. rewrite andb_true_l.
    destruct (all_space body).
    - rewrite andb_true_r. destruct (all_space subject) eqn:Ha; [|done].
      by rewrite (rstrip_all_space subject), append_nil_r, rstrip_no_space.
    - rewrite andb_false_r. by rewrite append_assoc. }
  assert (Hfirst : strip (head +:+ rstrip subject) = head +:+ rstrip subject).
  { unfold strip. rewrite lstrip_no_space by done.
    rewrite rstrip_append, rstrip_idemp, (rstrip_no_space head) by done.
    destruct (all_space (rstrip subject)) eqn:Ha; [|done].
    apply rstrip_all_space in Ha. rewrite rstrip_idemp in Ha.
    by rewrite Ha, append_nil_r. }
  assert (Hfirst' : strip (head +:+ subject) = head +:+ rstrip subject).
  { unfold strip. rewrite lstrip_no_space by done.
    rewrite rstrip_append. destruct (all_space subject) eqn:Ha; [|done].
    by rewrite (rstrip_all_space subject), append_nil_r, rstrip_no_space. }
  assert (Hprefix : String.prefix "subject:" (lower (head +:+ rstrip subject)) = true).
  { rewrite lower_append, Hhead. apply prefix_append. }
  assert (Hslice : slice_from (String.length "subject:") (head +:+ rstrip subject)
                   = rstrip subject).
  { change (String.length "subject:") with 8%nat. rewrite <- Hlen.
    apply slice_from_append. }
  unfold parse_recovery_email. cbn [truthy]. rewrite Hraw. cbn [negb].
  rewrite Hstrip. unfold split_once.
  destruct (all_space body) eqn:Hb.
  - rewrite split_once_go_none.
    2:{ rewrite has_char_append, Hnl. by apply has_char_rstrip. }
    cbn [String.rev_app index lookup list_lookup mbind result_bind Py.bind].
    rewrite Hfirst, Hprefix, Hslice, strip_rstrip.
    cbn [length Nat.ltb Nat.leb mbind result_bind Py.bind].
    by rewrite (strip_all_space body).
  - rewrite split_once_go_first by (by rewrite has_char_append, Hnl).
    cbn [String.rev_app index lookup list_lookup mbind result_bind Py.bind].
    rewrite Hfirst', Hprefix, Hslice, strip_rstrip.
    cbn [length Nat.ltb Nat.leb index lookup list_lookup mbind result_bind Py.bind].
    by rewrite strip_rstrip.
Qed.

End RecoveryEmail.

Lemma recovery_email_subject_and_body_witness :
  MonitoringSave.parse_recovery_email "Data platform"
    (Monitoring.ru_recovery_email worried_recovery)
  = Py.Ok ("Re: Timeline",
           Json.JStr ("Dear Sam," +:+ Py.nl +:+ "we hear you.")).
Proof.
  etrans.
  - apply (recovery_email_subject_and_body "Data platform" "Subject:"
             " Re: Timeline" (Py.nl +:+ "Dear Sam," +:+ Py.nl +:+ "we hear you."));
      reflexivity.
  - vm_compute. reflexivity.
Defined.
(** ** WhatsApp alerts *)

Section WhatsAppAlerts.
Import Py Json WhatsApp.
Variable settings : Settings.
Variable new_client : string → string → result Client.

(** The address [send_whatsapp_alert] hands to Twilio for [number]. *)
Lemma prefixed_address (number : string) :
  let address :=
    if String.prefix "whatsapp:" number then number else "whatsapp:" +:+ number in
  String.prefix "whatsapp:" address = true
  ∧ (String.prefix "whatsapp:" number = true → address = number)
  ∧ (String.prefix "whatsapp:" number = false → address = "whatsapp:" +:+ number).
Proof.
  simpl. destruct (String.prefix "whatsapp:" number) eqn:Hp.
  - by repeat split.
  - split; [apply prefix_append | by split].
Qed.

(** X12: [send_whatsapp_alert] hands at most one message to Twilio, and only
    when a recipient, the two credentials, a client and a sender number are
    all there. The message carries the text unchanged; its sender and its
    recipient always start with "whatsapp:", a number that already has the
    prefix being passed as it is and any other number getting the prefix
    once. An "ok" answer names the recipient the message was handed over
    with; a refusal by Twilio gives an "error" answer after the message was
    handed over. *)
Theorem whatsapp_addresses_prefixed (message : string) (to_number : option string) :
  let sent := send_whatsapp_alert settings new_client message to_number in
  let recipient := str_or to_number (ADMIN_WHATSAPP_NUMBER settings) in
  let sender := TWILIO_WHATSAPP_FROM settings in
  let address number :=
    if String.prefix "whatsapp:" number then number else "whatsapp:" +:+ number in
  (sent.2 = []
   ∨ sent.2 = [ {| og_body := message;
                   og_from := address sender;
                   og_to := address recipient |} ])
  ∧ (sent.2 = [] ↔
     recipient = EmptyString
     ∨ _get_twilio_client settings new_client = None
     ∨ sender = EmptyString)
  ∧ Forall (λ m, String.prefix "whatsapp:" (og_from m) = true
                 ∧ String.prefix "whatsapp:" (og_to m) = true) sent.2
  ∧ match sent.1 with
    | WaOk _ to _ => to = address recipient ∧ sent.2 ≠ []
    | WaError _ => True
    end.
Proof.
  intros sent recipient sender address. unfold sent, send_whatsapp_alert.
  fold recipient sender.
  destruct (String.eqb_spec recipient EmptyString) as [Hr|Hr].
  { simpl. split; [by left|]. split; [by split; [left|]|]. by split. }
  destruct (_get_twilio_client settings new_client) as [client|].
  2:{ simpl. split; [by left|]. split; [by split; [right; left|]|]. by split. }
  destruct (String.eqb_spec sender EmptyString) as [Hs|Hs].
  { simpl. split; [by left|]. split; [by split; [right; right|]|]. by split. }
  fold (address sender) (address recipient).
  destruct (prefixed_address sender) as (Hps & _).
  destruct (prefixed_address recipient) as (Hpr & _).
  assert (Hhanded :
    (match messages_create client message (address sender) (address recipient) with
     | Ok sid =>
         (WaOk sid (address recipient) "WhatsApp alert sent successfully",
          [ {| og_body := message; og_from := address sender;
               og_to := address recipient |} ])
     | Raise e =>
         (WaError (exn_msg e),
          [ {| og_body := message; og_from := address sender;
               og_to := address recipient |} ])
     end).2
    = [ {| og_body := message; og_from := address sender;
           og_to := address recipient |} ])
    by (by destruct (messages_create _ _ _ _)).
  rewrite Hhanded.
  split; [by right|].
  split; [split; [discriminate | by intros [?|[?|?]]]|].
  split; [by repeat constructor|].
  by destruct (messages_create _ _ _ _).
Qed.

End WhatsAppAlerts.

(** ** The connection manager *)

Section ConnectionManagerFacts.
Import Py WsManager.
Context {WebSocket : Type} `{EqDecision WebSocket}.

Lemma remove_elem (x : WebSocket) (l : list WebSocket) :
  x ∈ l →
  ∃ l', remove x l = Ok l' ∧ l ≡ₚ x :: l' ∧ l' `sublist_of` l.
Proof.
  induction l as [|y l IH]; [by intros ?%elem_of_nil|].
  intros Hin. simpl. destruct (decide (y = x)) as [->|Hne].
  - exists l. split; [done|]. split; [done | by apply sublist_cons].
  - apply elem_of_cons in Hin as [->|Hin]; [done|].
    destruct (IH Hin) as (l' & -> & Hperm & Hsub).
    exists (y :: l'). split; [done|]. split.
    + rewrite Hperm. apply Permutation_swap.
    + by apply sublist_skip.
Qed.

(** Removing, one by one, items that are all there. *)
Lemma remove_all (dead l : list WebSocket) :
  dead ⊆+ l →
  ∃ kept,
    foldl (λ connections ws, l ← connections; remove ws l) (Ok l) dead = Ok kept
    ∧ l ≡ₚ dead ++ kept
    ∧ kept `sublist_of` l.
Proof.
  revert l. induction dead as [|x dead IH]; intros l Hsub; simpl.
  - by exists l.
  - apply submseteq_cons_l in Hsub as (k & Hk & Hdead).
    assert (Hin : x ∈ l) by (rewrite Hk; by left).
    destruct (remove_elem x l Hin) as (l' & -> & Hperm & Hsl).
    assert (Hl' : l' ≡ₚ k).
    { apply (Permutation_cons_inv (a := x)). by rewrite <- Hperm, <- Hk. }
    destruct (IH l') as (kept & -> & Hkept & Hsk); [by rewrite Hl'|].
    exists kept. split; [done|]. split.
    + by rewrite Hperm, Hkept.
    + by etrans.
Qed.

(** Two sublists of a list without duplicates that hold the same items are
    equal. *)
Lemma sublists_equal (l k1 k2 : list WebSocket) :
  NoDup l → k1 `sublist_of` l → k2 `sublist_of` l → k1 ≡ₚ k2 → k1 = k2.
Proof.
  intros Hnd. revert k1 k2.
  induction Hnd as [|x l Hx Hnd IH]; intros k1 k2 H1 H2 Hperm.
  - apply sublist_nil_r in H1, H2. by subst.
  - apply sublist_cons_r in H1 as [H1|(k1' & -> & H1)];
      apply sublist_cons_r in H2 as [H2|(k2' & -> & H2)].
    + by apply IH.
    + exfalso. apply Hx. apply (elem_of_sublist k1 l x); [|exact H1].
      rewrite Hperm. by left.
    + exfalso. apply Hx. apply (elem_of_sublist k2 l x); [|exact H2].
      rewrite <- Hperm. by left.
    + f_equal. apply IH; [done..|]. by apply (Permutation_cons_inv (a := x)).
Qed.

Lemma filter_other (websocket : WebSocket) (l : list WebSocket) :
  websocket ∉ l →
  filter (λ ws, ws ≠ websocket) (l ++ [websocket]) = l.
Proof.
  intros Hnot. rewrite filter_app, filter_cons, decide_False by (by intros ?).
  rewrite filter_nil, app_nil_r.
  induction l as [|x l IH]; [done|].
  apply not_elem_of_cons in Hnot as [Hne Hnot].
  by rewrite filter_cons, decide_True, IH.
Qed.

(** X14: registering a socket for a task and then disconnecting it gives
    the table back. The socket is appended to the list of the task (created
    when absent), the lists of the users are not touched, and [disconnect]
    removes it again and drops the key when nothing is left; so the table is
    the one before, except that an empty list found under the key, which
    [send_task_update] leaves behind when every socket of a task failed, is
    gone as well. *)
Theorem connect_then_disconnect (websocket : WebSocket) (task_id : string)
    (self : ConnectionManager WebSocket) :
  task_id ≠ EmptyString →
  websocket ∉ default [] (active_connections self !! task_id) →
  ∃ connected,
    connect (Ok ()) websocket (Some task_id) None self = Ok connected
    ∧ active_connections connected !! task_id
      = Some (default [] (active_connections self !! task_id) ++ [websocket])
    ∧ user_connections connected = user_connections self
    ∧ disconnect websocket (Some task_id) None connected
      = {| active_connections :=
             if bool_decide (active_connections self !! task_id = Some [])
             then delete task_id (active_connections self)
             else active_connections self;
           user_connections := user_connections self |}.
Proof.
  intros Hid Hnew. unfold connect, disconnect.
  assert (Hgiven : given (Some task_id) = Some task_id) by (by destruct task_id).
  cbn [mbind result_bind Py.bind]. rewrite Hgiven. cbn [given].
  eexists. split; [reflexivity|]. cbn [active_connections user_connections].
  set (old := default [] (active_connections self !! task_id)) in *.
  assert (Hlookup :
    default [] ((if bool_decide (is_Some (active_connections self !! task_id))
                 then active_connections self
                 else <[task_id := []]> (active_connections self)) !! task_id)
    = old).
  { unfold old. case_bool_decide as Hsome; [done|].
    rewrite lookup_insert_eq. simpl.
    destruct (active_connections self !! task_id); [|done].
    exfalso. apply Hsome. by eexists. }
  rewrite Hlookup, lookup_insert_eq.
  split; [reflexivity|]. split; [reflexivity|].
  rewrite filter_other by exact Hnew. f_equal.
  apply map_eq. intros key.
  destruct (decide (key = task_id)) as [->|Hne].
  - unfold old in *.
    destruct (active_connections self !! task_id) as [connections|] eqn:Hconn;
      simpl.
    + destruct connections as [|ws connections];
        repeat case_bool_decide; try done;
        by rewrite ?lookup_delete_eq, ?lookup_insert_eq.
    + repeat case_bool_decide; try done.
      by rewrite lookup_delete_eq.
  - trans (active_connections self !! key).
    + repeat case_bool_decide;
        by rewrite ?lookup_delete_ne, ?lookup_insert_ne by done.
    + clear Hlookup. case_bool_decide; by rewrite ?lookup_delete_ne.
Qed.

Section Sending.
Context {Data : Type}.
Variable json_dumps : Data → string.
Variable send_text : nat → WebSocket → string → result unit.

(** X13: [send_task_update] never raises, whatever the sockets do: a socket
    whose [send_text] raised is removed, and the [remove] always finds it.
    Afterwards the list of the task holds the sockets the message went out
    on, and in their order when no socket was registered twice; the key of
    the task stays, also with an empty list; the lists of the other tasks and
    of the users are untouched; a task nobody watches changes nothing. *)
Theorem send_task_update_prunes (task_id : string) (data : Data)
    (self : ConnectionManager WebSocket) :
  ∃ after delivered,
    send_task_update json_dumps send_text task_id data self = Ok (after, delivered)
    ∧ user_connections after = user_connections self
    ∧ (∀ other, other ≠ task_id →
         active_connections after !! other = active_connections self !! other)
    ∧ match active_connections self !! task_id with
      | None => after = self ∧ delivered = []
      | Some connections =>
          delivered
          = fst <$> filter (λ o, snd o = true)
                      (imap (λ i ws, (ws, is_ok (send_text i ws (json_dumps data))))
                            connections)
          ∧ ∃ kept,
              active_connections after !! task_id = Some kept
              ∧ kept ≡ₚ delivered
              ∧ kept `sublist_of` connections
              ∧ (NoDup connections → kept = delivered)
      end.
Proof.
  unfold send_task_update.
  destruct (active_connections self !! task_id) as [connections|] eqn:Hconn.
  2:{ by exists self, []. }
  set (outcomes := imap _ connections).
  assert (Hfst : fst <$> outcomes = connections).
  { unfold outcomes. rewrite fmap_imap. simpl.
    clear. generalize 0%nat. induction connections as [|ws l IH]; intros n; [done|].
    simpl. f_equal. apply (IH (S n)). }
  set (dead := fst <$> filter (λ o, snd o = false) outcomes).
  set (delivered := fst <$> filter (λ o, snd o = true) outcomes).
  assert (Hparts : connections ≡ₚ dead ++ delivered).
  { etrans; [by rewrite <- Hfst|]. unfold dead, delivered. rewrite <- fmap_app.
    apply fmap_Permutation.
    rewrite <- (filter_app_complement (λ o, snd o = false) outcomes) at 1.
    f_equiv. clear. induction outcomes as [|[ws []] l IH]; [done|..].
    - rewrite !filter_cons, decide_True, decide_True by (simpl; congruence).
      by rewrite IH.
    - rewrite !filter_cons, decide_False, decide_False by (simpl; congruence).
      exact IH. }
  assert (Hdead : dead ⊆+ connections).
  { assert (Hd : dead ⊆+ fst <$> outcomes)
      by (apply sublist_submseteq, fmap_sublist, sublist_filter).
    by rewrite Hfst in Hd. }
  assert (Hdel : delivered `sublist_of` connections).
  { assert (Hd : delivered `sublist_of` fst <$> outcomes)
      by (apply fmap_sublist, sublist_filter).
    by rewrite Hfst in Hd. }
  destruct (remove_all dead connections Hdead) as (kept & -> & Hperm & Hsub).
  eexists _, delivered. split; [reflexivity|]. simpl.
  split; [reflexivity|].
  split; [by intros other Hne; rewrite lookup_insert_ne|].
  split; [reflexivity|].
  exists kept. rewrite lookup_insert_eq.
  assert (Hkd : kept ≡ₚ delivered).
  { apply (Permutation_app_inv_l dead). by rewrite <- Hperm, <- Hparts. }
  split; [done|]. split; [exact Hkd|]. split; [exact Hsub|].
  intros Hnd. by apply (sublists_equal connections).
Qed.

End Sending.

End ConnectionManagerFacts.

Lemma connect_then_disconnect_witness :
  ∃ connected,
    WsManager.connect (Py.Ok ()) 7%nat (Some "t1") None WsManager.new_manager
    = Py.Ok connected
    ∧ WsManager.disconnect 7%nat (Some "t1") None connected
      = WsManager.new_manager.
Proof.
  destruct (connect_then_disconnect 7%nat "t1" WsManager.new_manager)
    as (connected & Hconnect & _ & _ & Hdisconnect).
  - discriminate.
  - simpl. rewrite lookup_empty. apply not_elem_of_nil.
  - exists connected. split; [exact Hconnect|].
    rewrite Hdisconnect. reflexivity.
Defined.

(** ** The sections of a proposal draft *)

Section DraftSections.
Import Py Draft.
#[local] Arguments append _ _ : simpl nomatch.

(** One step of the loop over the lines. *)
#[local] Abbreviation step_line :=
  (λ '(sections, current_section) line,
     if is_heading line then
       (if String.eqb (strip (content current_section)) EmptyString
        then sections
        else sections ++ [current_section],
        {| title := strip (lstrip_hash line); content := EmptyString |})
     else
       (sections,
        {| title := title current_section;
           content := content current_section +:+ line +:+ nl |})).

Lemma sections_invariant (lines : list string) (sections : list section)
    (current : section) :
  foldl step_line ([], {| title := "Introduction"; content := EmptyString |}) lines
  = (sections, current) →
  Forall (λ s, strip (content s) ≠ EmptyString) sections
  ∧ map title sections ++ [title current]
    `sublist_of`
    "Introduction" :: map (λ line, strip (lstrip_hash line)) (filter is_heading lines).
Proof.
  revert sections current.
  induction lines as [|line lines IH] using rev_ind; intros sections current.
  - intros [= <- <-]. split; [constructor | reflexivity].
  - rewrite foldl_app. cbn [foldl].
    destruct (foldl step_line _ lines) as [before previous].
    destruct (IH before previous eq_refl) as [Hblank Hsub].
    rewrite filter_app, map_app, filter_cons, filter_nil.
    destruct (is_heading line) eqn:Hline.
    + rewrite decide_True by done.
      destruct (String.eqb_spec (strip (content previous)) EmptyString) as [He|Hne];
        intros [= <- <-]; cbn [title map].
      * split; [exact Hblank|].
        change ("Introduction" :: ?l ++ ?k) with (("Introduction" :: l) ++ k).
        apply sublist_app; [|reflexivity].
        etrans; [|exact Hsub]. apply sublist_inserts_r. reflexivity.
      * split; [apply Forall_app; split; [exact Hblank | by repeat constructor]|].
        rewrite map_app.
        change ("Introduction" :: ?l ++ ?k) with (("Introduction" :: l) ++ k).
        apply sublist_app; [exact Hsub | reflexivity].
    + rewrite decide_False by (by intros ?).
      intros [= <- <-]. cbn [title map]. rewrite app_nil_r. by split.
Qed.

(** X15: the sections cut out of a draft. No section has blank content: a
    heading directly followed by another heading, or by the end, gives no
    section. The titles are, in the order of the draft and each at most
    once, among "Introduction" (the text before the first heading) and the
    heading lines, that is the lines starting with "# " or "## ", with their
    leading "#" marks and surrounding white space removed; so there are at
    most as many sections as heading lines, plus one. *)
Theorem sections_follow_headings (draft : string) :
  let headings := filter is_heading (split nl draft) in
  Forall (λ s, strip (content s) ≠ EmptyString) (parse_sections draft)
  ∧ map title (parse_sections draft)
    `sublist_of`
    "Introduction" :: map (λ line, strip (lstrip_hash line)) headings
  ∧ (length (parse_sections draft) ≤ S (length headings))%nat.
Proof.
  intros headings.
  assert (H : Forall (λ s, strip (content s) ≠ EmptyString) (parse_sections draft)
              ∧ map title (parse_sections draft)
                `sublist_of`
                "Introduction" :: map (λ line, strip (lstrip_hash line)) headings).
  { unfold parse_sections, headings.
    destruct (foldl _ _ (split nl draft)) as [sections current] eqn:Hfold.
    apply sections_invariant in Hfold as [Hblank Hsub].
    destruct (String.eqb_spec (strip (content current)) EmptyString) as [He|Hne].
    - split; [exact Hblank|]. etrans; [|exact Hsub].
      apply sublist_inserts_r. reflexivity.
    - split; [apply Forall_app; split; [exact Hblank | by repeat constructor]|].
      by rewrite map_app. }
  destruct H as [Hblank Hsub]. split; [exact Hblank|]. split; [exact Hsub|].
  apply sublist_length in Hsub. rewrite length_map in Hsub. simpl in Hsub.
  by rewrite length_map in Hsub.
Qed.

(** Joining the lines of a text, each with its line feed, gives the text
    back with one line feed more. *)
Lemma join_lines (cur s acc : string) :
  foldl (λ acc line, acc +:+ line +:+ nl) acc (split_go nl 0 cur s)
  = acc +:+ String.rev cur +:+ s +:+ nl.
Proof.
  revert cur acc. induction s as [|c s IH]; intros cur acc.
  - reflexivity.
  - cbn [split_go].
    change (String.length nl - 1)%nat with 0%nat.
    destruct (String.prefix nl (String c s)) eqn:Hp.
    + cbn [foldl]. rewrite IH.
      assert (c = newline) as ->.
      { unfold nl in Hp. cbn [String.prefix] in Hp.
        by destruct (ascii_dec (ascii_of_nat 10) c). }
      change (String.rev EmptyString) with EmptyString.
      change (String newline s) with (nl +:+ s).
      by rewrite !append_assoc.
    + rewrite IH. unfold String.rev. cbn [String.rev_app].
      change (String c EmptyString) with (EmptyString +:+ String c EmptyString).
      rewrite rev_app_append, !append_assoc. reflexivity.
Qed.

Lemma fold_without_headings (lines : list string) (sections : list section)
    (current : section) :
  Forall (λ line, is_heading line = false) lines →
  foldl step_line (sections, current) lines
  = (sections,
     {| title := title current;
        content := foldl (λ acc line, acc +:+ line +:+ nl) (content current) lines |}).
Proof.
  intros Hlines. revert current.
  induction Hlines as [|line lines Hline _ IH]; intros current.
  - by destruct current.
  - cbn [foldl]. rewrite Hline. by rewrite IH.
Qed.

(** X16: a draft without heading lines is kept whole. It gives a single
    section titled "Introduction" whose content is the draft followed by a
    line feed, and no section at all when it is blank. *)
Theorem sections_without_headings (draft : string) :
  Forall (λ line, is_heading line = false) (split nl draft) →
  parse_sections draft
  = if all_space draft then []
    else [ {| title := "Introduction"; content := draft +:+ nl |} ].
Proof.
  intros Hlines. unfold parse_sections.
  rewrite fold_without_headings by exact Hlines. cbn [content title].
  unfold split. rewrite join_lines.
  change (EmptyString +:+ String.rev EmptyString +:+ draft +:+ nl)
    with (draft +:+ nl).
  destruct (String.eqb_spec (strip (draft +:+ nl)) EmptyString) as [He|Hne].
  - apply strip_empty in He. rewrite all_space_append in He.
    apply andb_true_iff in He as [-> _]. reflexivity.
  - destruct (all_space draft) eqn:Hd; [|reflexivity].
    exfalso. apply Hne, strip_empty. by rewrite all_space_append, Hd.
Qed.

End DraftSections.

Lemma sections_without_headings_witness :
  Draft.parse_sections "We propose a phased delivery."
  = [ {| Draft.title := "Introduction";
         Draft.content := "We propose a phased delivery." +:+ Py.nl |} ].
Proof.
  etrans.
  - apply sections_without_headings. vm_compute. by repeat constructor.
  - reflexivity.
Defined.

(** ** What a proposal run saves *)

Section ProposalSaved.
Import Py Json Reply Orchestrator Proposal ProposalSave.
Variable json_loads : string → result json.
Variable uuid4 : string.
Variable db_commit : ProposalRow → result unit.

(** The compliance stage passes the draft on, or leaves it out. *)
Lemma comply_node_final (state : ProposalState) (result_text : string)
    (u : comply_update) :
  comply_node json_loads state result_text = Ok u →
  (cu_final_proposal u = None
   ∨ cu_final_proposal u = Some (default EmptyString (st_proposal_draft state)))
  ∧ (0 <=? cu_compliance_score u)%float = true
  ∧ (cu_compliance_score u <=? 1)%float = true.
Proof.
  unfold comply_node.
  destruct (bool_decide _); [intros [= <-]; simpl; by repeat split; [left|..]|].
  unfold try_except.
  match goal with |- context [match ?body with Ok _ => _ | Raise _ => _ end] =>
    destruct body as [v|e] eqn:Hbody end.
  2:{ simpl. intros [= <-]. simpl. by repeat split; [right|..]. }
  intros [= <-]. revert Hbody. unfold mbind, result_bind, bind.
  destruct (extract_parsed _ _) as [parsed|]; [|discriminate].
  destruct (truthy parsed).
  - destruct (get parsed "compliance_score" _) as [score|]; [|discriminate].
    destruct (is_number score).
    + destruct (to_float score) as [x|]; [|discriminate].
      destruct (get parsed "issues" _) as [issues|]; [|discriminate].
      destruct (len issues); [|discriminate].
      intros [= <-]. simpl. split; [by right | apply clamp_unit].
    + destruct (get parsed "issues" _) as [issues|]; [|discriminate].
      destruct (len issues); [|discriminate].
      intros [= <-]. simpl. by repeat split; [right|..].
  - intros [= <-]. simpl. by repeat split; [right|..].
Qed.

Lemma comply_node_returns (state : ProposalState) (result_text : string) :
  ∃ u, comply_node json_loads state result_text = Ok u.
Proof.
  unfold comply_node.
  destruct (bool_decide _); [by eexists|].
  unfold try_except.
  match goal with |- context [match ?body with Ok _ => _ | Raise _ => _ end] =>
    destruct body as [v|e] end; by eexists.
Qed.

(** X20: the proposal a run stores is the generated draft. Whatever the
    requirements, the reply of the compliance check and the behaviour of
    [json.loads], [comply_node] returns on the draft [generate_node] produced,
    and the row handed to the database has that draft as content, character
    for character, a compliance score in [0, 1], status "draft" and
    generator "esshva"; when the commit succeeds the final record reports
    the id and the score of that row, and when it raises, so does the
    block. *)
Theorem stored_proposal_is_the_draft (deal_id : string) (deal : Deal)
    (requirements : option (list requirement)) (draft result_text : string) :
  let generated := Draft.generate_node draft in
  let state :=
    {| st_proposal_draft := Some (Draft.gu_proposal_draft generated);
       st_requirements := requirements |} in
  ∃ checked row,
    comply_node json_loads state result_text = Ok checked
    ∧ save_proposal uuid4 db_commit deal_id deal generated checked
      = (_ ← db_commit row;
         Ok (row, [ ("proposal_id", JStr (pr_id row));
                    ("compliance_score", JFloat (pr_compliance_score row)) ]))
    ∧ pr_content row = draft
    ∧ pr_compliance_score row = cu_compliance_score checked
    ∧ (0 <=? pr_compliance_score row)%float = true
    ∧ (pr_compliance_score row <=? 1)%float = true
    ∧ pr_compliance_notes row = cu_compliance_issues checked
    ∧ pr_status row = "draft"
    ∧ pr_generated_by row = "esshva".
Proof.
  intros generated state.
  destruct (comply_node_returns state result_text) as (checked & Hc).
  exists checked,
    {| pr_id := uuid4;
       pr_deal_id := deal_id;
       pr_title := "Proposal - " +:+ format_optional (deal_client_name deal)
                   +:+ " - " +:+ deal_title deal;
       pr_content :=
         match cu_final_proposal checked with
         | Some (String c s) => String c s
         | _ => Draft.gu_proposal_draft generated
         end;
       pr_compliance_score := cu_compliance_score checked;
       pr_compliance_notes := cu_compliance_issues checked;
       pr_generated_by := "esshva";
       pr_status := "draft" |}.
  split; [exact Hc|].
  apply comply_node_final in Hc as (Hfinal & Hlow & Hhigh).
  split; [reflexivity|].
  cbn [pr_content pr_compliance_score pr_status pr_generated_by
       pr_compliance_notes].
  split.
  { destruct Hfinal as [-> | ->]; [reflexivity|].
    simpl. by destruct draft. }
  by repeat split.
Qed.

End ProposalSaved.

(** ** Fenced replies *)

Section Fences.
Import Py Json Reply.
#[local] Arguments append _ _ : simpl nomatch.

Section AnyFence.
(** A separator that starts with a backtick. *)
Variables (fence fence' : string).
Hypothesis fence_starts : fence = String backtick fence'.

Lemma prefix_fence_other (c : ascii) (s : string) :
  Ascii.eqb backtick c = false → String.prefix fence (String c s) = false.
Proof.
  intros Hc. rewrite fence_starts. cbn [String.prefix].
  destruct (ascii_dec backtick c) as [Heq|]; [|done].
  by rewrite <- Heq, Ascii.eqb_refl in Hc.
Qed.

(** Text without backticks goes to the current piece. *)
Lemma split_copy (x cur rest : string) :
  has_char backtick x = false →
  split_go fence 0 cur (x +:+ rest) = split_go fence 0 (String.rev_app x cur) rest.
Proof.
  revert cur. induction x as [|c x IH]; intros cur; [done|].
  cbn [has_char]. intros [Hc Hx]%orb_false_iff.
  change (String c x +:+ rest) with (String c (x +:+ rest)).
  cbn [split_go String.rev_app]. rewrite prefix_fence_other by done.
  by apply IH.
Qed.

Lemma split_skip (x cur rest : string) :
  split_go fence (String.length x) cur (x +:+ rest) = split_go fence 0 cur rest.
Proof.
  induction x as [|c x IH]; [by destruct rest|]. exact IH.
Qed.

Lemma split_at_fence (before cur rest : string) :
  has_char backtick before = false →
  split_go fence 0 cur (before +:+ fence +:+ rest)
  = String.rev (String.rev_app before cur) :: split_go fence 0 EmptyString rest.
Proof.
  intros Hbefore. rewrite split_copy by exact Hbefore.
  pose proof (prefix_append fence rest) as Hp.
  pose proof (split_skip fence' EmptyString rest) as Hskip.
  revert Hp Hskip. rewrite fence_starts.
  change (String backtick fence' +:+ rest) with (String backtick (fence' +:+ rest)).
  intros Hp Hskip. cbn [split_go]. rewrite Hp.
  replace (String.length (String backtick fence') - 1)%nat
    with (String.length fence') by (simpl; lia).
  by rewrite Hskip.
Qed.

Lemma split_copy_end (x cur : string) :
  has_char backtick x = false →
  split_go fence 0 cur x = [String.rev (String.rev_app x cur)].
Proof.
  intros Hx. pose proof (split_copy x cur EmptyString Hx) as H.
  by rewrite append_nil_r in H.
Qed.

Lemma split_plain (x : string) :
  has_char backtick x = false → split fence x = [x].
Proof.
  intros Hx. unfold split. rewrite split_copy_end by exact Hx.
  f_equal. apply rev_involutive.
Qed.

Lemma contains_fence (before rest : string) :
  contains fence (before +:+ fence +:+ rest) = true.
Proof.
  induction before as [|c before IH].
  - change (EmptyString +:+ fence +:+ rest) with (fence +:+ rest).
    pose proof (prefix_append fence rest) as Hp.
    destruct (fence +:+ rest); cbn [contains]; by rewrite Hp.
  - change (String c before +:+ fence +:+ rest)
      with (String c (before +:+ fence +:+ rest)).
    cbn [contains]. rewrite IH. apply orb_true_r.
Qed.

Lemma contains_no_fence (x : string) :
  has_char backtick x = false → contains fence x = false.
Proof.
  induction x as [|c x IH].
  - intros _. rewrite fence_starts. reflexivity.
  - cbn [has_char contains]. intros [Hc Hx]%orb_false_iff.
    rewrite prefix_fence_other by done. by apply IH.
Qed.

End AnyFence.

(** What follows the opening fence, up to the next one of its kind. *)
Lemma after_json_fence (body post : string) :
  has_char backtick body = false →
  has_char backtick post = false →
  ∃ rest,
    split_go "```json" 0 EmptyString (body +:+ "```" +:+ post)
    = (if String.prefix "json" post then body else body +:+ "```" +:+ post) :: rest.
Proof.
  intros Hbody Hpost.
  rewrite (split_copy "```json" "``json" eq_refl) by exact Hbody.
  change ("```" +:+ post) with (String backtick (String backtick (String backtick post))).
  cbn [split_go].
  assert (Hfirst : String.prefix "```json"
                     (String backtick (String backtick (String backtick post)))
                   = String.prefix "json" post) by reflexivity.
  rewrite Hfirst.
  destruct (String.prefix "json" post).
  { eexists. f_equal. apply rev_involutive. }
  assert (Hsecond : String.prefix "```json" (String backtick (String backtick post))
                    = false).
  { destruct post as [|p post]; [reflexivity|].
    cbn [has_char] in Hpost. apply orb_false_iff in Hpost as [Hp _].
    cbn [String.prefix]. unfold backtick in *.
    do 2 (destruct (ascii_dec _ _); [|done]).
    destruct (ascii_dec "`" p) as [Heq|]; [|done].
    by rewrite <- Heq, Ascii.eqb_refl in Hp. }
  assert (Hthird : String.prefix "```json" (String backtick post) = false).
  { destruct post as [|p post]; [reflexivity|].
    cbn [has_char] in Hpost. apply orb_false_iff in Hpost as [Hp _].
    cbn [String.prefix]. unfold backtick in *.
    destruct (ascii_dec _ _); [|done].
    destruct (ascii_dec "`" p) as [Heq|]; [|done].
    by rewrite <- Heq, Ascii.eqb_refl in Hp. }
  cbn [split_go]. rewrite Hsecond. cbn [split_go]. rewrite Hthird.
  rewrite (split_copy_end "```json" "``json" eq_refl) by exact Hpost.
  exists []. f_equal.
  unfold String.rev.
  change (String backtick (String backtick (String backtick
            (String.rev_app body EmptyString))))
    with ("```" +:+ String.rev body).
  change (String.rev_app (String.rev_app post ("```" +:+ String.rev body)) EmptyString)
    with (String.rev (String.rev_app post ("```" +:+ String.rev body))).
  change (String.rev_app post ("```" +:+ String.rev body))
    with (String.rev_app post (EmptyString +:+ ("```" +:+ String.rev body))).
  rewrite rev_app_append.
  change (String.rev_app post EmptyString) with (String.rev post).
  rewrite rev_append, rev_append, !rev_involutive.
  change (String.rev "```") with "```". by rewrite append_assoc.
Qed.

(** A reply whose JSON sits in a [json] fence unfences to that JSON. *)
Lemma unfence_fenced (before body post : string) :
  has_char backtick before = false →
  has_char backtick body = false →
  has_char backtick post = false →
  unfence (before +:+ "```json" +:+ body +:+ "```" +:+ post) = Ok body.
Proof.
  intros Hbefore Hbody Hpost. unfold unfence.
  rewrite contains_fence. unfold split.
  rewrite (split_at_fence "```json" "``json" eq_refl) by exact Hbefore.
  destruct (after_json_fence body post Hbody Hpost) as [rest ->].
  cbn [index lookup list_lookup mbind result_bind Py.bind].
  destruct (String.prefix "json" post).
  - fold (split "```" body).
    by rewrite (split_plain "```" "``" eq_refl) by exact Hbody.
  - rewrite (split_at_fence "```" "``" eq_refl) by exact Hbody.
    fold (String.rev body). by rewrite rev_involutive.
Qed.

Lemma unfence_plain (body : string) :
  has_char backtick body = false → unfence body = Ok body.
Proof.
  intros Hbody. unfold unfence.
  by rewrite (contains_no_fence "```json" "``json" eq_refl),
             (contains_no_fence "```" "``" eq_refl).
Qed.

(** X21: text around a fenced block does not matter. For a reply made of
    text, the fence [```json], a body, the fence [```] and more text, none of
    the three parts holding a backtick, the fence selection returns the body,
    and each of the five stages that use it ([sentiment_node],
    [recovery_node], [extract_node], [analyze_node], [decide_node]) returns
    on the reply what it returns on the bare body, whatever [json.loads]
    does. *)
Theorem fenced_reply_is_unwrapped (json_loads : string → result json)
    (state : Monitoring.MonitoringState) (before body post : string) :
  has_char backtick before = false →
  has_char backtick body = false →
  has_char backtick post = false →
  let reply := before +:+ "```json" +:+ body +:+ "```" +:+ post in
  unfence reply = Ok body
  ∧ Monitoring.sentiment_node json_loads state reply
    = Monitoring.sentiment_node json_loads state body
  ∧ Monitoring.recovery_node json_loads state reply
    = Monitoring.recovery_node json_loads state body
  ∧ Qualification.extract_node json_loads reply
    = Qualification.extract_node json_loads body
  ∧ Qualification.analyze_node json_loads reply
    = Qualification.analyze_node json_loads body
  ∧ Qualification.decide_node json_loads reply
    = Qualification.decide_node json_loads body.
Proof.
  intros Hbefore Hbody Hpost reply.
  pose proof (unfence_fenced before body post Hbefore Hbody Hpost) as Hfenced.
  pose proof (unfence_plain body Hbody) as Hplain.
  fold reply in Hfenced.
  unfold Monitoring.sentiment_node, Monitoring.recovery_node,
    Qualification.extract_node, Qualification.analyze_node,
    Qualification.decide_node.
  rewrite !Hfenced, !Hplain. by repeat split.
Qed.

End Fences.

Lemma fenced_reply_is_unwrapped_witness :
  Reply.unfence
    ("Here is the decision:" +:+ Py.nl +:+ "```json" +:+ reply_confidence_7
     +:+ "```" +:+ Py.nl +:+ "Let me know.")
  = Py.Ok reply_confidence_7.
Proof.
  apply (fenced_reply_is_unwrapped JsonText.loads calm_state
           ("Here is the decision:" +:+ Py.nl) reply_confidence_7
           (Py.nl +:+ "Let me know.")); reflexivity.
Defined.


(** ** Reasoning blocks in a reply *)

Section ThinkTags.
Import Py PyStr Llm.
#[local] Arguments append _ _ : simpl nomatch.

Lemma after_prefix_spec (p s r : string) :
  after_prefix p s = Some r ↔ s = p +:+ r.
Proof.
  revert s. induction p as [|a p IH]; intros s.
  - simpl. split; congruence.
  - change (String a p +:+ r) with (String a (p +:+ r)).
    destruct s as [|b s]; cbn [after_prefix]; [done|].
    destruct (Ascii.eqb a b) eqn:Hab.
    + apply Ascii.eqb_eq in Hab as ->. rewrite IH. split; congruence.
    + apply Ascii.eqb_neq in Hab. split; [done | congruence].
Qed.

Lemma after_prefix_append (p s r t : string) :
  after_prefix p s = Some r → after_prefix p (s +:+ t) = Some (r +:+ t).
Proof.
  rewrite !after_prefix_spec. intros ->. by rewrite append_assoc.
Qed.

Lemma append_inv_head (p r r' : string) : p +:+ r = p +:+ r' → r = r'.
Proof.
  induction p as [|a p IH]; [done|].
  change (String a p +:+ ?x) with (String a (p +:+ x)). intros [= H]. by apply IH.
Qed.

(** Two beginnings of one text: one is a beginning of the other. *)
Lemma prefixes_comparable (a b r r' : string) :
  a +:+ r = b +:+ r' → String.prefix a b = true ∨ String.prefix b a = true.
Proof.
  revert b. induction a as [|c a IH]; intros b.
  - left. by destruct b.
  - destruct b as [|d b]; [by right|].
    change (String c a +:+ r) with (String c (a +:+ r)).
    change (String d b +:+ r') with (String d (b +:+ r')).
    intros [= -> H]. cbn [String.prefix].
    destruct (ascii_dec d d); [by apply IH | done].
Qed.

Lemma distinct_starts_eq (alternatives : list string) (a b : string) :
  distinct_starts alternatives = true →
  a ∈ alternatives → b ∈ alternatives → String.prefix a b = true → a = b.
Proof.
  unfold distinct_starts. rewrite forallb_forall.
  intros Hall Ha%list_elem_of_In Hb%list_elem_of_In Hp.
  specialize (Hall a Ha). rewrite forallb_forall in Hall.
  specialize (Hall b Hb). rewrite Hp in Hall.
  rewrite orb_false_r in Hall. by apply String.eqb_eq.
Qed.

Lemma match_any_sound (alternatives : list string) (s r : string) :
  match_any alternatives s = Some r →
  ∃ a, a ∈ alternatives ∧ s = a +:+ r.
Proof.
  induction alternatives as [|b others IH]; [done|]. cbn [match_any].
  destruct (after_prefix b s) as [r'|] eqn:Hb.
  - intros [= ->]. exists b. split; [left | by apply after_prefix_spec].
  - intros (a & Ha & Hs)%IH. exists a. split; [by right | done].
Qed.

Lemma match_any_complete (alternatives : list string) (a r : string) :
  distinct_starts alternatives = true →
  a ∈ alternatives →
  match_any alternatives (a +:+ r) = Some r.
Proof.
  intros Hdistinct.
  assert (H : ∀ l, (∀ x, x ∈ l → x ∈ alternatives) → a ∈ alternatives → a ∈ l →
                   match_any l (a +:+ r) = Some r).
  { induction l as [|b l IH]; intros Hsub Ha Hin; [by apply elem_of_nil in Hin|].
    cbn [match_any].
    assert (Hb : b ∈ alternatives) by (apply Hsub; left).
    destruct (after_prefix b (a +:+ r)) as [r'|] eqn:Hafter.
    - apply after_prefix_spec in Hafter.
      assert (a = b) as <-.
      { destruct (prefixes_comparable a b r r' Hafter) as [Hp|Hp].
        - by apply (distinct_starts_eq alternatives).
        - symmetry. by apply (distinct_starts_eq alternatives). }
      by apply append_inv_head in Hafter as <-.
    - apply IH; [intros x Hx; apply Hsub; by right | done |].
      apply elem_of_cons in Hin as [->|Hin]; [|done].
      assert (after_prefix b (b +:+ r) = Some r) by (by apply after_prefix_spec).
      congruence. }
  intros Ha. by apply H.
Qed.

Lemma match_any_append (alternatives : list string) (s r t : string) :
  distinct_starts alternatives = true →
  match_any alternatives s = Some r →
  match_any alternatives (s +:+ t) = Some (r +:+ t).
Proof.
  intros Hdistinct (a & Ha & ->)%match_any_sound.
  rewrite append_assoc. by apply match_any_complete.
Qed.

(** A tag found at the start of a text is found there whatever follows the
    text. *)
Lemma match_tag_append (tag : list (list string)) (s r t : string) :
  forallb distinct_starts tag = true →
  match_tag tag s = Some r →
  match_tag tag (s +:+ t) = Some (r +:+ t).
Proof.
  revert s. induction tag as [|alternatives tag IH]; intros s.
  - simpl. by intros _ [= ->].
  - cbn [forallb match_tag]. intros [Hd Htag]%andb_true_iff.
    destruct (match_any alternatives s) as [rest|] eqn:Hany; [|done].
    rewrite (match_any_append alternatives s rest t Hd Hany). by apply IH.
Qed.

Lemma match_tag_suffix (tag : list (list string)) (s r : string) :
  match_tag tag s = Some r → ∃ consumed, s = consumed +:+ r.
Proof.
  revert s. induction tag as [|alternatives tag IH]; intros s.
  - simpl. intros [= ->]. by exists EmptyString.
  - cbn [match_tag].
    destruct (match_any alternatives s) as [rest|] eqn:Hany; [|done].
    apply match_any_sound in Hany as (a & _ & ->).
    intros [consumed ->]%IH. exists (a +:+ consumed). by rewrite append_assoc.
Qed.

(** What holds no ["<"] and is found at the start of a text is found before
    the first ["<"] of the text. *)
Lemma after_prefix_inside (a x y r : string) :
  has_char "<" a = false →
  after_prefix a (x +:+ String "<" y) = Some r →
  ∃ r', after_prefix a x = Some r' ∧ r = r' +:+ String "<" y.
Proof.
  revert x. induction a as [|c a IH]; intros x.
  - simpl. intros _ [= <-]. by exists x.
  - cbn [has_char]. intros [Hc Ha]%orb_false_iff.
    destruct x as [|d x].
    + change (EmptyString +:+ String "<" y) with (String "<"%char y).
      cbn [after_prefix]. rewrite Ascii.eqb_sym, Hc. done.
    + change (String d x +:+ String "<" y) with (String d (x +:+ String "<" y)).
      cbn [after_prefix]. destruct (Ascii.eqb c d); [by apply IH | done].
Qed.

Lemma match_any_inside (alternatives : list string) (x y r : string) :
  forallb (λ a, negb (has_char "<" a)) alternatives = true →
  match_any alternatives (x +:+ String "<" y) = Some r →
  ∃ r', match_any alternatives x = Some r' ∧ r = r' +:+ String "<" y.
Proof.
  induction alternatives as [|a others IH]; [done|].
  cbn [forallb match_any]. intros [Ha Hothers]%andb_true_iff.
  apply negb_true_iff in Ha.
  destruct (after_prefix a (x +:+ String "<" y)) as [r0|] eqn:Hafter.
  - intros [= ->].
    destruct (after_prefix_inside a x y r Ha Hafter) as (r' & -> & ->). by exists r'.
  - destruct (after_prefix a x) as [r0|] eqn:Hx.
    + rewrite (after_prefix_append a x r0 _ Hx) in Hafter. done.
    + by apply IH.
Qed.

Lemma match_tag_inside (tag : list (list string)) (x y r : string) :
  forallb (forallb (λ a, negb (has_char "<" a))) tag = true →
  match_tag tag (x +:+ String "<" y) = Some r →
  ∃ r', match_tag tag x = Some r' ∧ r = r' +:+ String "<" y.
Proof.
  revert x. induction tag as [|alternatives tag IH]; intros x.
  - simpl. intros _ [= <-]. by exists x.
  - cbn [forallb match_tag]. intros [Ha Htag]%andb_true_iff.
    destruct (match_any alternatives (x +:+ String "<" y)) as [rest|] eqn:Hany;
      [|done].
    destruct (match_any_inside alternatives x y rest Ha Hany) as (r' & -> & ->).
    by apply IH.
Qed.

(** Both tags start with ["<"] and hold no other. *)
Lemma match_tag_head (tag : list (list string)) (c : ascii) (s : string) :
  match_tag (["<"] :: tag) (String c s)
  = if Ascii.eqb "<" c then match_tag tag s else None.
Proof. cbn [match_tag match_any after_prefix]. by destruct (Ascii.eqb "<" c). Qed.


(** A tag cannot start inside a text that holds none and end in the tag that
    follows the text. *)
Lemma tag_straddle (tag : list (list string)) (x y : string) :
  forallb (forallb (λ a, negb (has_char "<" a))) tag = true →
  x ≠ EmptyString →
  match_tag (["<"] :: tag) x = None →
  match_tag (["<"] :: tag) (x +:+ String "<" y) = None.
Proof.
  intros Htag Hne Hx. destruct x as [|c x]; [done|].
  change (String c x +:+ String "<" y) with (String c (x +:+ String "<" y)).
  rewrite match_tag_head in Hx |- *.
  destruct (Ascii.eqb "<" c); [|done].
  destruct (match_tag tag (x +:+ String "<" y)) as [r|] eqn:Hr; [|done].
  destruct (match_tag_inside tag x y r Htag Hr) as (r' & Hx' & _). congruence.
Qed.

Lemma closing_tag_straddle (x y : string) :
  x ≠ EmptyString →
  match_tag closing_tag x = None →
  match_tag closing_tag (x +:+ String "<" y) = None.
Proof.
  exact (tag_straddle [["/"]; letter_t; letter_h; letter_i; letter_n; letter_k; [">"]]
           x y eq_refl).
Qed.

Lemma tag_starts (tag : list (list string)) (s r : string) :
  match_tag (["<"] :: tag) s = Some r → ∃ s', s = String "<" s'.
Proof.
  destruct s as [|c s]; [done|]. rewrite match_tag_head.
  destruct (Ascii.eqb "<" c) eqn:Hc; [|done].
  apply Ascii.eqb_eq in Hc as <-. by exists s.
Qed.

(** The lazy middle of the pattern stops at the closing tag that follows a
    text without one. *)
Lemma after_closing_found (reasoning closing answer : string) :
  match_tag closing_tag closing = Some EmptyString →
  has_tag closing_tag reasoning = false →
  after_closing (reasoning +:+ closing +:+ answer) = Some answer.
Proof.
  intros Hclosing.
  assert (Hhere : match_tag closing_tag (closing +:+ answer) = Some answer)
    by (by apply (match_tag_append closing_tag closing EmptyString answer)).
  destruct (tag_starts _ _ _ Hclosing) as [tail ->].
  induction reasoning as [|c reasoning IH].
  - intros _. change (EmptyString +:+ ?x) with x.
    change (String "<" tail +:+ answer) with (String "<"%char (tail +:+ answer)) in *.
    cbn [after_closing]. by rewrite Hhere.
  - cbn [has_tag].
    destruct (match_tag closing_tag (String c reasoning)) eqn:Hc; [done|].
    intros Hrest.
    change (String c reasoning +:+ ?x) with (String c (reasoning +:+ x)).
    cbn [after_closing].
    change (String c (reasoning +:+ String "<" tail +:+ answer))
      with (String c reasoning +:+ String "<" (tail +:+ answer)).
    rewrite (closing_tag_straddle (String c reasoning) (tail +:+ answer)) by done.
    by apply IH.
Qed.

Lemma after_closing_none (s : string) :
  has_tag closing_tag s = false → after_closing s = None.
Proof.
  induction s as [|c s IH]; cbn [has_tag after_closing].
  - by destruct (match_tag closing_tag EmptyString).
  - by destruct (match_tag closing_tag (String c s)).
Qed.

Lemma has_tag_suffix (tag : list (list string)) (consumed s : string) :
  has_tag tag (consumed +:+ s) = false → has_tag tag s = false.
Proof.
  induction consumed as [|c consumed IH]; [done|].
  change (String c consumed +:+ s) with (String c (consumed +:+ s)).
  cbn [has_tag]. by destruct (match_tag tag (String c (consumed +:+ s))).
Qed.

(** Text without ["<"] is copied. *)
Lemma sub_think_plain (before rest : string) :
  has_char "<" before = false →
  sub_think 0 (before +:+ rest) = before +:+ sub_think 0 rest.
Proof.
  induction before as [|c before IH]; [done|].
  cbn [has_char]. intros [Hc Hb]%orb_false_iff.
  change (String c before +:+ rest) with (String c (before +:+ rest)).
  cbn [sub_think]. unfold opening_tag. rewrite match_tag_head, Hc.
  by rewrite IH.
Qed.

Lemma has_tag_here (tag : list (list string)) (s : string) :
  has_tag tag s = false → match_tag tag s = None.
Proof. destruct s; cbn [has_tag]; by destruct (match_tag tag _). Qed.

(** Text without an opening tag is copied, and so is text without a closing
    tag. *)
Lemma sub_think_no_tag (text : string) :
  has_tag opening_tag text = false ∨ has_tag closing_tag text = false →
  sub_think 0 text = text.
Proof.
  induction text as [|c text IH]; [done|].
  intros Htext. cbn [sub_think].
  assert (Htail : has_tag opening_tag text = false ∨ has_tag closing_tag text = false).
  { destruct Htext as [Htext|Htext]; [left|right];
      exact (has_tag_suffix _ (String c EmptyString) text Htext). }
  destruct (match_tag opening_tag (String c text)) as [body|] eqn:Hopen.
  - destruct Htext as [Htext|Htext].
    { apply has_tag_here in Htext. congruence. }
    destruct (match_tag_suffix _ _ _ Hopen) as [consumed Hs].
    rewrite Hs in Htext. apply has_tag_suffix in Htext.
    rewrite after_closing_none by done. by rewrite IH.
  - by rewrite IH.
Qed.

Lemma sub_think_skip (dropped rest : string) :
  sub_think (String.length dropped) (dropped +:+ rest) = sub_think 0 rest.
Proof.
  induction dropped as [|c dropped IH]; [by destruct rest|].
  exact IH.
Qed.

(** X17: the reasoning block a model prepends is removed. For a reply made
    of some text without ["<"], an opening tag, reasoning that holds no
    closing tag, a closing tag, and an answer without an opening tag, the
    tags in any form the pattern matches (either letter case, the dotted
    capital and the dotless i, the Kelvin sign), [_strip_think_tags] returns
    the text and the answer joined, without surrounding white space. *)
Theorem think_block_is_removed (before opening reasoning closing answer : string) :
  has_char "<" before = false →
  match_tag opening_tag opening = Some EmptyString →
  match_tag closing_tag closing = Some EmptyString →
  has_tag closing_tag reasoning = false →
  has_tag opening_tag answer = false →
  _strip_think_tags (before +:+ opening +:+ reasoning +:+ closing +:+ answer)
  = strip_unicode (before +:+ answer).
Proof.
  intros Hbefore Hopen Hclose Hreasoning Hanswer.
  unfold _strip_think_tags. f_equal.
  rewrite sub_think_plain by exact Hbefore. f_equal.
  set (rest := reasoning +:+ closing +:+ answer).
  assert (Hmatch : match_tag opening_tag (opening +:+ rest) = Some rest)
    by (by apply (match_tag_append opening_tag opening EmptyString rest)).
  destruct (tag_starts _ _ _ Hopen) as [tail ->].
  change (String "<" tail +:+ rest) with (String "<"%char (tail +:+ rest)) in *.
  cbn [sub_think]. rewrite Hmatch. unfold rest at 1.
  rewrite after_closing_found by done.
  assert (Hskip : (String.length (String "<" (tail +:+ rest))
                   - String.length answer - 1)%nat
                  = String.length (tail +:+ reasoning +:+ closing)).
  { unfold rest. cbn [String.length]. rewrite !append_length. lia. }
  rewrite Hskip. unfold rest.
  replace (tail +:+ reasoning +:+ closing +:+ answer)
    with ((tail +:+ reasoning +:+ closing) +:+ answer)
    by (by rewrite !append_assoc).
  rewrite sub_think_skip. apply sub_think_no_tag. by left.
Qed.

(** X18: a reply without an opening tag, or without a closing tag, in any
    form the pattern matches, is only stripped of surrounding white
    space. *)
Theorem reply_without_think_tag (text : string) :
  has_tag opening_tag text = false ∨ has_tag closing_tag text = false →
  _strip_think_tags text = strip_unicode text.
Proof.
  intros Htext. unfold _strip_think_tags. by rewrite sub_think_no_tag.
Qed.

End ThinkTags.

Lemma think_block_is_removed_witness :
  Llm._strip_think_tags
    (Py.nl +:+ opening_dotless +:+ "The client sounds worried. " +:+ closing_kelvin
     +:+ Py.nl +:+ "{}" +:+ PyStr.utf8 [194; 160])
  = "{}".
Proof.
  etrans.
  - apply (think_block_is_removed Py.nl opening_dotless "The client sounds worried. "
             closing_kelvin (Py.nl +:+ "{}" +:+ PyStr.utf8 [194; 160]));
      reflexivity.
  - vm_compute. reflexivity.
Defined.

Lemma reply_without_think_tag_witness :
  Llm._strip_think_tags (" {} </think>" +:+ PyStr.utf8 [226; 128; 131]) = "{} </think>".
Proof.
  etrans.
  - apply reply_without_think_tag. left. reflexivity.
  - vm_compute. reflexivity.
Defined.
